(** * Resume-Ranker: the scoring core (scoring_engine.py, job_analyzer.py)

    A shallow embedding of [ScoringEngine] and of [JobAnalyzer].

    Modelling choices, fixed once for the whole development:
    - Python values that cross the JSON boundary (model output, the parsed
      job description) are [pyval]; a [dict] with string keys is a
      [gmap string pyval].
    - A Python [float] is a binary64 number, given by its exact rational
      value, or one of inf, -inf, nan ([pyfloat]).  Every arithmetic
      operation rounds its exact result to the nearest binary64 number,
      ties to even ([double]), as IEEE 754 does; comparisons are exact.
      [round(x, 1)] rounds the exact value half-to-even to one decimal and
      gives the float nearest to that decimal.  The sign of a zero is not
      recorded.  A decimal literal that is only stored or compared (0.8,
      0.1) is written as that decimal; a literal that enters arithmetic
      goes through [double].
    - Text is a [string] of 8-bit characters.  [lower], [\w] and
      whitespace are the ASCII ones, which are Python's on text of 7-bit
      ASCII characters ([is_ascii]); on other text Python also changes and
      accepts letters beyond ASCII, and the statements that depend on the
      difference assume ASCII text.
    - The order in which Python lists the elements of a set depends on the
      hashes of the strings, which change from run to run: it is the field
      [set_order] of the [Env], of which only that it rearranges is known.
    - An exception is an instance of a subclass of [Exception], given by its
      class name and [str(e)].  A [try ... except Exception] block is a
      [match] on a [result].
    - The external collaborators (the Gemini client, [json.loads], sklearn)
      are the fields of an [Env] that the functions take as argument. *)

From Stdlib Require Import Ascii String QArith Qround Qpower Lqa Sorted.
From stdpp Require Import gmap strings list fin_maps pretty.

Set Warnings "-register-all".

Local Open Scope string_scope.

(** ** Python values *)

Module Py.

Inductive pyfloat := Fin (q : Q) | PInf | NInf | NaN.

Inductive pyval :=
| VNone
| VBool (b : bool)
| VInt (z : Z)
| VFloat (f : pyfloat)
| VStr (s : string)
| VList (l : list pyval)
| VDict (d : gmap string pyval).

Record exc := Exc { exc_class : string; exc_str : string }.

Inductive result (A : Type) :=
| Ok (a : A)
| Raise (e : exc).
Arguments Ok {A} a.
Arguments Raise {A} e.

#[global] Instance result_ret : MRet result := fun A a => Ok a.
#[global] Instance result_bind : MBind result := fun A B f m =>
  match m with Ok a => f a | Raise e => Raise e end.
#[global] Instance result_fmap : FMap result := fun A B f m =>
  match m with Ok a => Ok (f a) | Raise e => Raise e end.

Definition type_name (v : pyval) : string :=
  match v with
  | VNone => "NoneType" | VBool _ => "bool" | VInt _ => "int"
  | VFloat _ => "float" | VStr _ => "str" | VList _ => "list"
  | VDict _ => "dict"
  end.

Definition TypeError (msg : string) : exc := Exc "TypeError" msg.
Definition AttributeError (v : pyval) (attr : string) : exc :=
  Exc "AttributeError"
      ("'" ++ type_name v ++ "' object has no attribute '" ++ attr ++ "'").
Definition KeyError (k : string) : exc := Exc "KeyError" ("'" ++ k ++ "'").
Definition Exception (msg : string) : exc := Exc "Exception" msg.

(** *** Floats *)

Definition of_Z (z : Z) : pyfloat := Fin (inject_Z z).

Definition Qltb (x y : Q) : bool :=
  match (x ?= y)%Q with Lt => true | _ => false end.

Definition flt (a b : pyfloat) : bool :=
  match a, b with
  | NaN, _ | _, NaN => false
  | Fin x, Fin y => Qltb x y
  | NInf, NInf => false
  | NInf, _ => true
  | _, NInf => false
  | PInf, _ => false
  | Fin _, PInf => true
  end.

Definition fle (a b : pyfloat) : bool :=
  match a, b with
  | NaN, _ | _, NaN => false
  | Fin x, Fin y => Qle_bool x y
  | NInf, _ => true
  | _, PInf => true
  | _, _ => false
  end.

Definition fsign (q : Q) : comparison := (q ?= 0)%Q.

(** Nearest integer, ties to the even one. *)
Definition round_half_even (x : Q) : Z :=
  let fl := Qfloor x in
  match (x - inject_Z fl ?= 1 # 2)%Q with
  | Lt => fl
  | Gt => (fl + 1)%Z
  | Eq => if Z.even fl then fl else (fl + 1)%Z
  end.

(** The largest [k] with [2^k <= q], for [q > 0]. *)
Definition floor_log2 (q : Q) : Z :=
  let k := (Z.log2 (Qnum q) - Z.log2 (Zpos (Qden q)))%Z in
  if Qle_bool (2 ^ k) q then k else (k - 1)%Z.

(** The exponent of the last place of the binary64 numbers around
    [q > 0]: 53 significant bits, and no exponent below -1074. *)
Definition ulp_exp (q : Q) : Z := Z.max (-1074) (floor_log2 q - 52).

(** The binary64 number nearest to [q > 0], ties to the even
    significand, as a multiple of its last place. *)
Definition nearest (q : Q) : Q :=
  let e := ulp_exp q in
  (inject_Z (round_half_even (q / 2 ^ e)) * 2 ^ e)%Q.

(** A real number as a [float]: the nearest binary64 number, and an
    infinity when that is 2^1024 or more. *)
Definition double (q : Q) : pyfloat :=
  let q := Qred q in
  match (q ?= 0)%Q with
  | Eq => Fin 0
  | Gt => let r := nearest q in
          if Qle_bool (2 ^ 1024) r then PInf else Fin (Qred r)
  | Lt => let r := nearest (- q) in
          if Qle_bool (2 ^ 1024) r then NInf else Fin (Qred (- r))
  end.


(** [a * b] and [a + b] on floats. *)
Definition fmul (a b : pyfloat) : pyfloat :=
  match a, b with
  | NaN, _ | _, NaN => NaN
  | Fin x, Fin y => double (x * y)
  | Fin x, PInf | PInf, Fin x =>
      match fsign x with Gt => PInf | Lt => NInf | Eq => NaN end
  | Fin x, NInf | NInf, Fin x =>
      match fsign x with Gt => NInf | Lt => PInf | Eq => NaN end
  | PInf, PInf | NInf, NInf => PInf
  | PInf, NInf | NInf, PInf => NInf
  end.

Definition fadd (a b : pyfloat) : pyfloat :=
  match a, b with
  | NaN, _ | _, NaN => NaN
  | Fin x, Fin y => double (x + y)
  | PInf, NInf | NInf, PInf => NaN
  | PInf, _ | _, PInf => PInf
  | NInf, _ | _, NInf => NInf
  end.

(** [round(x, 1)] on a finite float: the float nearest to the decimal
    with one digit that is nearest to [x], ties to the even digit. *)
Definition round1 (x : Q) : pyfloat := double (round_half_even (x * 10) # 10).

(** [float.__round__] with [ndigits] returns a non-finite float as it is. *)
Definition fround1 (f : pyfloat) : pyfloat :=
  match f with Fin x => round1 x | _ => f end.

(** *** Statically numeric values: an [int] or a [float] *)

Inductive pynum := NInt (z : Z) | NFloat (f : pyfloat).

(** The value of a number.  The [int]s that meet a float below are the
    literals 0, 50 and 100, which a float holds exactly. *)
Definition to_float (x : pynum) : pyfloat :=
  match x with NInt z => of_Z z | NFloat f => f end.

(** [x + y] and [x * y]: an [int] when both are, a [float] otherwise. *)
Definition nadd (x y : pynum) : pynum :=
  match x, y with
  | NInt a, NInt b => NInt (a + b)
  | _, _ => NFloat (fadd (to_float x) (to_float y))
  end.

Definition nmul (x y : pynum) : pynum :=
  match x, y with
  | NInt a, NInt b => NInt (a * b)
  | _, _ => NFloat (fmul (to_float x) (to_float y))
  end.

(** [a / b] for two lengths, [b] not zero: the true division of two
    [int]s gives the float nearest to the quotient. *)
Definition len_div (a b : nat) : pynum :=
  NFloat (double (inject_Z (Z.of_nat a) / inject_Z (Z.of_nat b))).

(** [min(n, x)] for an [int] literal [n]. *)
Definition nmin_int (n : Z) (x : pynum) : pynum :=
  if flt (to_float x) (of_Z n) then x else NInt n.

(** [round(x, 1)]: an [int] is returned as it is. *)
Definition nround1 (x : pynum) : pynum :=
  match x with NInt z => NInt z | NFloat f => NFloat (fround1 f) end.

(** *** Numbers inside dynamic values *)

Definition of_num (x : pynum) : pyval :=
  match x with NInt z => VInt z | NFloat f => VFloat f end.

(** The float a number converts to in mixed arithmetic; [bool] is a
    subclass of [int]. *)
Definition as_float (v : pyval) : option pyfloat :=
  match v with
  | VBool b => Some (of_Z (if b then 1 else 0))
  | VInt z => Some (of_Z z)
  | VFloat f => Some f
  | _ => None
  end.

(** The rational a finite number denotes. *)
Definition num_value (v : pyval) : option Q :=
  match as_float v with Some (Fin q) => Some q | _ => None end.

Definition cmp_error (op : string) (v : pyval) : exc :=
  TypeError ("'" ++ op ++ "' not supported between instances of '"
             ++ type_name v ++ "' and 'int'").

(** [v < n] and [v > n] for an [int] literal [n]. *)
Definition py_lt_int (v : pyval) (n : Z) : result bool :=
  match as_float v with
  | Some f => Ok (flt f (of_Z n))
  | None => Raise (cmp_error "<" v)
  end.

Definition py_gt_int (v : pyval) (n : Z) : result bool :=
  match as_float v with
  | Some f => Ok (flt (of_Z n) f)
  | None => Raise (cmp_error ">" v)
  end.

(** [min(n, v)]: the builtin keeps its first argument unless a later one
    is strictly smaller. *)
Definition py_min_int (n : Z) (v : pyval) : result pyval :=
  b ← py_lt_int v n; Ok (if b : bool then v else VInt n).

(** [max(n, v)]: the first argument stays unless a later one is strictly
    greater. *)
Definition py_max_int (n : Z) (v : pyval) : result pyval :=
  b ← py_gt_int v n; Ok (if b : bool then v else VInt n).

(** [max(lo, min(hi, v))] *)
Definition clamp (lo hi : Z) (v : pyval) : result pyval :=
  m ← py_min_int hi v; py_max_int lo m.

(** [round(v, 1)] *)
Definition py_round1 (v : pyval) : result pyval :=
  match v with
  | VBool b => Ok (VInt (if b then 1 else 0))
  | VInt z => Ok (VInt z)
  | VFloat f => Ok (VFloat (fround1 f))
  | _ => Raise (TypeError ("type " ++ type_name v
                           ++ " doesn't define __round__ method"))
  end.

(** The float an [int] is converted to when it meets a float. *)
Definition float_of_int (z : Z) : result pyfloat :=
  match double (inject_Z z) with
  | Fin q => Ok (Fin q)
  | _ => Raise (Exc "OverflowError" "int too large to convert to float")
  end.

(** [v * w] for the float literal that reads [w]. *)
Definition py_mul_float (v : pyval) (w : Q) : result pyfloat :=
  match v with
  | VBool b => f ← float_of_int (if b then 1 else 0); Ok (fmul f (double w))
  | VInt z => f ← float_of_int z; Ok (fmul f (double w))
  | VFloat f => Ok (fmul f (double w))
  | VStr _ | VList _ =>
      Raise (TypeError "can't multiply sequence by non-int of type 'float'")
  | _ =>
      Raise (TypeError ("unsupported operand type(s) for *: '"
                        ++ type_name v ++ "' and 'float'"))
  end.

(** *** Truth value, equality with a string, containers *)

Definition truthy (v : pyval) : bool :=
  match v with
  | VNone => false
  | VBool b => b
  | VInt z => negb (z =? 0)%Z
  | VFloat (Fin q) => negb (Qeq_bool q 0)
  | VFloat _ => true
  | VStr s => negb (String.eqb s "")
  | VList l => match l with [] => false | _ => true end
  | VDict d => negb (bool_decide (d = ∅))
  end.

(** [v == s] for a string literal [s]. *)
Definition py_eq_str (v : pyval) (s : string) : bool :=
  match v with VStr t => String.eqb t s | _ => false end.

(** [d.get(k, dflt)] *)
Definition get (d : gmap string pyval) (k : string) (dflt : pyval) : pyval :=
  default dflt (d !! k).

(** [d[k]] *)
Definition getitem (d : gmap string pyval) (k : string) : result pyval :=
  match d !! k with Some v => Ok v | None => Raise (KeyError k) end.

Fixpoint chars (s : string) : list string :=
  match s with
  | EmptyString => []
  | String c s' => String c EmptyString :: chars s'
  end.

(** The elements a [for] loop, [list.extend] or [set()] sees.  A dict
    yields its keys; Python yields them in insertion order, which a
    [gmap] does not record: the keys come in the map's own order. *)
Definition py_iter (v : pyval) : result (list pyval) :=
  match v with
  | VList l => Ok l
  | VStr s => Ok (VStr <$> chars s)
  | VDict d => Ok ((λ kv, VStr kv.1) <$> map_to_list d)
  | _ => Raise (TypeError ("'" ++ type_name v ++ "' object is not iterable"))
  end.

(** [v[:n]]; a dict rejects the slice as a key (a TypeError up to
    Python 3.11, where slices are not hashable). *)
Definition py_slice_to (n : nat) (v : pyval) : result pyval :=
  match v with
  | VList l => Ok (VList (take n l))
  | VStr s => Ok (VStr (String.substring 0 n s))
  | VDict _ => Raise (TypeError "unhashable type: 'slice'")
  | _ => Raise (TypeError ("'" ++ type_name v ++ "' object is not subscriptable"))
  end.

(** The items of [sep.join(...)], each of which has to be a string. *)
Fixpoint join_items (i : nat) (l : list pyval) : result (list string) :=
  match l with
  | [] => Ok []
  | VStr s :: l' => rest ← join_items (S i) l'; Ok (s :: rest)
  | v :: _ =>
      Raise (TypeError ("sequence item " ++ pretty i
                        ++ ": expected str instance, " ++ type_name v ++ " found"))
  end.

(** Visit a list left to right, stopping at the first exception. *)
Fixpoint mapM {A B} (f : A → result B) (l : list A) : result (list B) :=
  match l with
  | [] => Ok []
  | a :: l' => b ← f a; bs ← mapM f l'; Ok (b :: bs)
  end.

End Py.
Export Py.

(** ** Text: [str.lower], [in], [str.split], and the two regular expressions *)

Module Text.

Definition code (c : ascii) : N := N_of_ascii c.

Definition between (lo hi : N) (c : ascii) : bool :=
  ((lo <=? code c) && (code c <=? hi))%N.

Definition lower_char (c : ascii) : ascii :=
  if between 65 90 c then ascii_of_N (code c + 32) else c.

(** [s.lower()] *)
Fixpoint lower (s : string) : string :=
  match s with
  | EmptyString => EmptyString
  | String c s' => String (lower_char c) (lower s')
  end.

(** A character of 7-bit ASCII. *)
Definition is_ascii (c : ascii) : bool := (code c <? 128)%N.

(** [\w]: a letter, a digit or the underscore. *)
Definition is_word_char (c : ascii) : bool :=
  between 48 57 c || between 65 90 c || between 97 122 c || (code c =? 95)%N.

(** [str.isspace] on one character. *)
Definition is_space (c : ascii) : bool :=
  between 9 13 c || between 28 32 c.

(** [needle in hay] *)
Fixpoint contains (needle hay : string) : bool :=
  String.prefix needle hay ||
  match hay with
  | EmptyString => false
  | String _ hay' => contains needle hay'
  end.

(** The maximal runs of characters that are not separators, left to
    right; [cur] is the run being read. *)
Fixpoint fields (is_sep : ascii → bool) (cur s : string) : list string :=
  match s with
  | EmptyString => if String.eqb cur "" then [] else [cur]
  | String c s' =>
      if is_sep c
      then (if String.eqb cur "" then fields is_sep "" s'
            else cur :: fields is_sep "" s')
      else fields is_sep (cur ++ String c "") s'
  end.

(** [s.split()] *)
Definition str_split (s : string) : list string := fields is_space "" s.

(** [re.findall(r'\b\w+\b', s)]: the greedy [\w+] started at a word
    boundary takes a whole run of word characters and ends at a
    boundary, so the matches are the maximal runs. *)
Definition findall_words (s : string) : list string :=
  fields (λ c, negb (is_word_char c)) "" s.

Definition first_char (s : string) : option ascii :=
  match s with EmptyString => None | String c _ => Some c end.

Definition is_word (c : option ascii) : bool :=
  match c with Some c => is_word_char c | None => false end.

(** [\b] between the character [prev] and the text [rest] that follows. *)
Definition boundary (prev : option ascii) (rest : string) : bool :=
  xorb (is_word prev) (is_word (first_char rest)).

(** The escaped literal [pat] at the front of [t]: the last character
    read and what is left. *)
Fixpoint match_literal (pat : string) (prev : option ascii) (t : string)
  : option (option ascii * string) :=
  match pat with
  | EmptyString => Some (prev, t)
  | String c pat' =>
      match t with
      | EmptyString => None
      | String d t' =>
          if Ascii.eqb c d then match_literal pat' (Some d) t' else None
      end
  end.

(** [\b pat \b] matched at the current position. *)
Definition match_here (pat : string) (prev : option ascii) (t : string) : bool :=
  boundary prev t &&
  match match_literal pat prev t with
  | Some (last, rest) => boundary last rest
  | None => false
  end.

Fixpoint search_from (pat : string) (prev : option ascii) (t : string) : bool :=
  match_here pat prev t ||
  match t with
  | EmptyString => false
  | String c t' => search_from pat (Some c) t'
  end.

(** [re.search(r'\b' + re.escape(pat) + r'\b', text)] found a match. *)
Definition re_search_word (pat text : string) : bool :=
  search_from pat None text.

(** [sep.join(l)] for strings. *)
Fixpoint join (sep : string) (l : list string) : string :=
  match l with
  | [] => ""
  | [s] => s
  | s :: l' => s ++ sep ++ join sep l'
  end.

End Text.
Export Text.

Abbreviation dict := (gmap string pyval).

(** A dict literal. *)
Definition mkdict (l : list (string * pyval)) : dict := list_to_map l.

Definition strs (l : list string) : pyval := VList (VStr <$> l).

(** ** The external collaborators *)

Record Env := {
  (** [generate_content(model="gemini-2.5-flash", ...).text] for the
      similarity prompt built from the job description and the resume *)
  similarity_response : string → string → result (option string);
  (** [generate_content(model="gemini-2.5-pro", ...).text] for the review
      prompt built from the job description, the resume and the two skill
      lists of the parsed job description *)
  review_response : string → string → pyval → pyval → result (option string);
  (** [json.loads] *)
  json_loads : string → result pyval;
  (** whether the import of sklearn succeeded *)
  SKLEARN_AVAILABLE : bool;
  (** [cosine_similarity] of the two rows of
      [tfidf_vectorizer.fit_transform([resume_text, job_description])] *)
  tfidf_cosine : string → string → result pyfloat;
  (** [list(s)] for a set [s] whose elements were added in the order of
      the argument: some rearrangement of them *)
  set_order : list pyval → list pyval;
  set_order_perm : ∀ l, set_order l ≡ₚ l
}.

(** ** scoring_engine.py *)

Module ScoringEngine.

(** [self.weights] *)
Definition weights : gmap string Q :=
  list_to_map [("hard_match", 4 # 10); ("semantic_match", 4 # 10);
               ("ai_analysis", 2 # 10)]%Q.

Definition weight (k : string) : result Q :=
  match weights !! k with Some w => Ok w | None => Raise (KeyError k) end.

(** *** Skill matcher *)

Definition substitutions : list (string * list string) :=
  [ ("javascript", ["js"; "java script"]);
    ("typescript", ["ts"]);
    ("python", ["py"]);
    ("machine learning", ["ml"; "machinelearning"]);
    ("artificial intelligence", ["ai"]);
    ("node.js", ["nodejs"; "node"]);
    ("react.js", ["reactjs"; "react"]);
    ("angular.js", ["angularjs"; "angular"]);
    ("vue.js", ["vuejs"; "vue"]);
    ("c++", ["cpp"; "c plus plus"]);
    ("c#", ["csharp"; "c sharp"]);
    ("sql server", ["sqlserver"; "mssql"]);
    ("postgresql", ["postgres"; "psql"]) ].

Definition subst_lookup (k : string) : option (list string) :=
  snd <$> find (λ kv, String.eqb k kv.1) substitutions.

Definition mem (s : string) (l : list string) : bool :=
  existsb (String.eqb s) l.

(** The reverse lookup: every entry one of whose aliases is the skill
    contributes its canonical name and all its aliases. *)
Definition reverse_lookup (skill_lower : string) : list string :=
  flat_map (λ kv, if mem skill_lower kv.2 then kv.1 :: kv.2 else [])
           substitutions.

(** [list(set(variations))]: the order of the result is that of a Python
    set and is not specified; the callers only test membership. *)
Definition _get_skill_variations (skill : string) : list string :=
  let skill_lower := lower skill in
  remove_dups
    ([skill] ++ default [] (subst_lookup skill_lower)
             ++ reverse_lookup skill_lower).

Definition _skill_mentioned (skill text : string) : bool :=
  let skill_lower := lower skill in
  if contains skill_lower text then true
  else if existsb (λ variation, contains variation text)
                  (_get_skill_variations skill_lower) then true
  else if (length (str_split skill_lower) =? 1)%nat
       then (if re_search_word skill_lower text then true else false)
  else false.

(** [skill.lower()] exists on strings only. *)
Definition as_skill (v : pyval) : result string :=
  match v with VStr s => Ok s | _ => Raise (AttributeError v "lower") end.

(** [(len(found) / len(skills)) * w if skills else 0] *)
Definition part_score (skills : pyval) (found total : nat) (w : Z) : pynum :=
  if truthy skills then nmul (len_div found total) (NInt w) else NInt 0.

Definition missing (skills found : list string) : list string :=
  filter (λ skill, ¬ (skill ∈ found)) skills.

Definition _calculate_hard_match (resume_text : string) (parsed_jd : dict)
  : result dict :=
  let resume_lower := lower resume_text in
  let must_have_skills := get parsed_jd "must_have_skills" (VList []) in
  let good_to_have_skills := get parsed_jd "good_to_have_skills" (VList []) in
  let all_technologies := get parsed_jd "technologies" (VList []) in
  must_l ← py_iter must_have_skills;
  must ← mapM as_skill must_l;
  let found_must_have :=
    filter (λ skill, _skill_mentioned skill resume_lower = true) must in
  good_l ← py_iter good_to_have_skills;
  good ← mapM as_skill good_l;
  let found_good_to_have :=
    filter (λ skill, _skill_mentioned skill resume_lower = true) good in
  tech_l ← py_iter all_technologies;
  tech ← mapM as_skill tech_l;
  let found_technologies :=
    filter (λ skill, _skill_mentioned skill resume_lower = true) tech in
  let must_have_score :=
    part_score must_have_skills (length found_must_have) (length must) 100 in
  let good_to_have_score :=
    part_score good_to_have_skills (length found_good_to_have) (length good) 50 in
  let hard_score := nmin_int 100 (nadd must_have_score good_to_have_score) in
  Ok (mkdict
    [ ("score", of_num (nround1 hard_score));
      ("found_skills",
         strs (found_must_have ++ found_good_to_have ++ found_technologies));
      ("missing_must_have", strs (missing must found_must_have));
      ("missing_good_to_have", strs (missing good found_good_to_have));
      ("match_details", VDict (mkdict
         [ ("must_have_found", VInt (Z.of_nat (length found_must_have)));
           ("must_have_total", VInt (Z.of_nat (length must)));
           ("good_to_have_found", VInt (Z.of_nat (length found_good_to_have)));
           ("good_to_have_total", VInt (Z.of_nat (length good))) ])) ]).

(** *** Similarity estimator *)

(** [result.get] exists on a dict only. *)
Definition as_dict (v : pyval) : result dict :=
  match v with VDict d => Ok d | _ => Raise (AttributeError v "get") end.

(** [if response.text: ... else: raise Exception(msg)] *)
Definition response_text (text : option string) (msg : string) : result string :=
  match text with
  | Some t => if String.eqb t "" then Raise (Exception msg) else Ok t
  | None => Raise (Exception msg)
  end.

(** The result of the [except] branch of [_gemini_semantic_similarity]. *)
Definition gemini_failed (e : exc) : dict :=
  mkdict [ ("score", VFloat (Fin 0));
           ("method", VStr "gemini_failed");
           ("error", VStr (exc_str e)) ].

Definition _gemini_semantic_similarity (E : Env)
    (resume_text job_description : string) : dict :=
  match
    text ← similarity_response E job_description resume_text;
    text ← response_text text "Empty response from Gemini";
    parsed ← json_loads E text;
    result ← as_dict parsed;
    score ← clamp 0 100 (get result "similarity_score" (VInt 50));
    rounded ← py_round1 score;
    Ok (mkdict
      [ ("score", rounded);
        ("method", VStr "gemini_semantic");
        ("explanation", get result "explanation" (VStr ""));
        ("key_matches", get result "key_matches" (VList []));
        ("key_gaps", get result "key_gaps" (VList [])) ])
  with
  | Ok d => d
  | Raise e => gemini_failed e
  end.

Definition _tfidf_similarity (E : Env) (resume_text job_description : string)
  : result dict :=
  similarity ← tfidf_cosine E resume_text job_description;
  score ← clamp 0 100 (VFloat (fmul similarity (of_Z 100)));
  rounded ← py_round1 score;
  Ok (mkdict [ ("score", rounded);
               ("method", VStr "tfidf");
               ("similarity", VFloat similarity) ]).

Definition stop_words : gset string :=
  list_to_set
    [ "the"; "and"; "or"; "but"; "in"; "on"; "at"; "to"; "for"; "of"; "with";
      "by"; "from"; "as"; "is"; "are"; "was"; "were"; "be"; "been"; "being" ].

(** [set(re.findall(r'\b\w+\b', text.lower())) - stop_words] *)
Definition words_of (text : string) : gset string :=
  list_to_set (findall_words (lower text)) ∖ stop_words.

Definition _word_overlap_similarity (resume_text job_description : string)
  : dict :=
  let resume_words := words_of resume_text in
  let jd_words := words_of job_description in
  let intersection := size (resume_words ∩ jd_words) in
  let union := size (resume_words ∪ jd_words) in
  let jaccard :=
    if (0 <? union)%nat then len_div intersection union else NInt 0 in
  let score := nmul jaccard (NInt 100) in
  mkdict [ ("score", of_num (nround1 score));
           ("method", VStr "word_overlap");
           ("intersection_count", VInt (Z.of_nat intersection));
           ("union_count", VInt (Z.of_nat union)) ].

(** The result of the [except] branch of [_calculate_semantic_match]. *)
Definition semantic_error_result (e : exc) : dict :=
  mkdict [ ("score", VFloat (Fin 50)); ("error", VStr (exc_str e)) ].

Definition _calculate_semantic_match (E : Env)
    (resume_text job_description : string) : dict :=
  match
    let gemini_result := _gemini_semantic_similarity E resume_text job_description in
    score ← getitem gemini_result "score";
    usable ← py_gt_int score 0;
    if usable : bool then Ok gemini_result
    else if SKLEARN_AVAILABLE E
         then _tfidf_similarity E resume_text job_description
    else Ok (_word_overlap_similarity resume_text job_description)
  with
  | Ok d => d
  | Raise e => semantic_error_result e
  end.

(** *** Qualitative reviewer *)

Definition default_analysis (e : exc) : dict :=
  mkdict
    [ ("score", VFloat (Fin 50));
      ("confidence", VFloat (Fin (5 # 10)));
      ("missing_skills", VList []);
      ("strengths", VList []);
      ("weaknesses", VList [VStr ("Analysis error: " ++ exc_str e)]);
      ("experience_match", VStr "unknown");
      ("education_match", VStr "unknown");
      ("overall_fit", VStr "unknown");
      ("detailed_feedback", VStr ("AI analysis failed: " ++ exc_str e));
      ("improvement_areas", VList []);
      ("recommendation", VStr "review_manually") ].

Definition _ai_analysis (E : Env) (resume_text job_description : string)
    (parsed_jd : dict) : dict :=
  match
    text ← review_response E job_description resume_text
             (get parsed_jd "must_have_skills" (VList []))
             (get parsed_jd "good_to_have_skills" (VList []));
    text ← response_text text "Empty response from Gemini model";
    parsed ← json_loads E text;
    result ← as_dict parsed;
    score ← clamp 0 100 (get result "score" (VInt 50));
    let result := <["score" := score]> result in
    confidence ← clamp 0 1 (get result "confidence" (VFloat (Fin (8 # 10))));
    let result := <["confidence" := confidence]> result in
    Ok result
  with
  | Ok d => d
  | Raise e => default_analysis e
  end.

(** *** Score aggregator *)

Definition _calculate_final_score (hard_match semantic_match ai_analysis : dict)
  : result pyfloat :=
  let hard_score := get hard_match "score" (VInt 0) in
  let semantic_score := get semantic_match "score" (VInt 0) in
  let ai_score := get ai_analysis "score" (VInt 0) in
  w_hard ← weight "hard_match";
  hard_term ← py_mul_float hard_score w_hard;
  w_semantic ← weight "semantic_match";
  semantic_term ← py_mul_float semantic_score w_semantic;
  w_ai ← weight "ai_analysis";
  ai_term ← py_mul_float ai_score w_ai;
  let final_score := fadd (fadd hard_term semantic_term) ai_term in
  Ok (fround1 final_score).

Definition _get_verdict (score : pyfloat) : string :=
  if fle (of_Z 75) score then "High"
  else if fle (of_Z 50) score then "Medium"
  else "Low".

Definition generic_suggestions : list pyval :=
  [ VStr "Tailor your resume to better match the job requirements";
    VStr "Add more specific examples of your achievements";
    VStr "Include relevant keywords from the job description" ].

Definition _generate_suggestions (resume_text : string)
    (parsed_jd ai_analysis : dict) : result (list pyval) :=
  let suggestions : list pyval := [] in
  let ai_suggestions := get ai_analysis "improvement_areas" (VList []) in
  extended ← py_iter ai_suggestions;
  let suggestions := (suggestions ++ extended)%list in
  let missing_skills := get ai_analysis "missing_skills" (VList []) in
  suggestions ←
    (if truthy missing_skills
     then first5 ← py_slice_to 5 missing_skills;
          items ← py_iter first5;
          parts ← join_items 0 items;
          Ok (suggestions ++
              [VStr ("Consider adding these skills to your resume: "
                     ++ join ", " parts)])%list
     else Ok suggestions);
  let experience_match := get ai_analysis "experience_match" (VStr "") in
  let suggestions :=
    if py_eq_str experience_match "poor"
    then (suggestions ++
         [VStr "Highlight relevant projects or experience that demonstrate your capabilities"])%list
    else suggestions in
  let education_match := get ai_analysis "education_match" (VStr "") in
  let suggestions :=
    if py_eq_str education_match "poor"
    then (suggestions ++
         [VStr "Consider pursuing relevant certifications or additional training"])%list
    else suggestions in
  let suggestions :=
    match suggestions with [] => generic_suggestions | _ => suggestions end in
  Ok (take 5 suggestions).

(** The result of the [except] branch of [analyze_resume]. *)
Definition failure_result (e : exc) : dict :=
  mkdict
    [ ("relevance_score", VInt 0);
      ("hard_match_score", VInt 0);
      ("semantic_score", VInt 0);
      ("ai_score", VInt 0);
      ("verdict", VStr "Low");
      ("confidence", VFloat (Fin (1 # 10)));
      ("missing_skills", VList []);
      ("found_skills", VList []);
      ("suggestions", VList [VStr ("Error during analysis: " ++ exc_str e)]);
      ("detailed_feedback", VStr ("Analysis failed: " ++ exc_str e));
      ("score_breakdown", VDict (mkdict
         [ ("hard_match", VInt 0); ("semantic_match", VInt 0);
           ("ai_analysis", VInt 0) ])) ].

(** The [try] block of [analyze_resume]. *)
Definition analyze_resume_try (E : Env) (resume_text job_description : string)
    (parsed_jd : dict) : result dict :=
  hard_match_result ← _calculate_hard_match resume_text parsed_jd;
  let semantic_result := _calculate_semantic_match E resume_text job_description in
  let ai_result := _ai_analysis E resume_text job_description parsed_jd in
  final_score ← _calculate_final_score hard_match_result semantic_result ai_result;
  let verdict := _get_verdict final_score in
  suggestions ← _generate_suggestions resume_text parsed_jd ai_result;
  hard_score ← getitem hard_match_result "score";
  semantic_score ← getitem semantic_result "score";
  ai_score ← getitem ai_result "score";
  Ok (mkdict
    [ ("relevance_score", VFloat final_score);
      ("hard_match_score", hard_score);
      ("semantic_score", semantic_score);
      ("ai_score", ai_score);
      ("verdict", VStr verdict);
      ("confidence", get ai_result "confidence" (VFloat (Fin (8 # 10))));
      ("missing_skills", get ai_result "missing_skills" (VList []));
      ("found_skills", get hard_match_result "found_skills" (VList []));
      ("suggestions", VList suggestions);
      ("detailed_feedback", get ai_result "detailed_feedback" (VStr ""));
      ("score_breakdown", VDict (mkdict
         [ ("hard_match", hard_score); ("semantic_match", semantic_score);
           ("ai_analysis", ai_score) ])) ]).

Definition analyze_resume (E : Env) (resume_text job_description : string)
    (parsed_jd : dict) : dict :=
  match analyze_resume_try E resume_text job_description parsed_jd with
  | Ok d => d
  | Raise e => failure_result e
  end.

End ScoringEngine.

(** ** More of [str] and [re]: [find], slices, [re.sub], [re.findall] *)

Module Str.

(** The position of the first occurrence of [needle] in [hay]. *)
Fixpoint find_index (needle hay : string) : option nat :=
  if String.prefix needle hay then Some 0%nat
  else match hay with
       | EmptyString => None
       | String _ hay' => S <$> find_index needle hay'
       end.

(** [hay.find(needle)]: -1 when there is no occurrence. *)
Definition str_find (hay needle : string) : Z :=
  match find_index needle hay with
  | Some i => Z.of_nat i
  | None => -1
  end.

(** [len(s)] *)
Definition len (s : string) : Z := Z.of_nat (String.length s).

(** A slice bound: a negative one counts from the end, and both are cut
    to the length. *)
Definition slice_bound (n i : Z) : Z :=
  if (i <? 0)%Z then Z.max 0 (i + n) else Z.min i n.

(** [s[start:stop]] *)
Definition str_slice (s : string) (start stop : Z) : string :=
  let a := slice_bound (len s) start in
  let b := slice_bound (len s) stop in
  String.substring (Z.to_nat a) (Z.to_nat (b - a)) s.

(** [re.sub(r'[^\w\s]', ' ', s)] *)
Fixpoint sub_non_word_space (s : string) : string :=
  match s with
  | EmptyString => EmptyString
  | String c s' =>
      String (if is_word_char c || is_space c then c else " "%char)
             (sub_non_word_space s')
  end.

(** Every character of [s] is in the class [cls]. *)
Fixpoint all_chars (cls : ascii → bool) (s : string) : bool :=
  match s with
  | EmptyString => true
  | String c s' => cls c && all_chars cls s'
  end.

(** [\d] *)
Definition is_digit (c : ascii) : bool := between 48 57 c.

(** The regular expressions of the job analyzer: literals, greedy
    repetitions of a character class, sequence, alternation, the greedy
    option and one capturing group. *)
Inductive regex :=
| Lit (s : string)
| Star (cls : ascii → bool)
| Plus (cls : ascii → bool)
| Seq (r1 r2 : regex)
| Alt (r1 r2 : regex)
| Opt (r : regex)
| Group (r : regex).

(** [r] has no capturing group. *)
Fixpoint groupless (r : regex) : bool :=
  match r with
  | Lit _ | Star _ | Plus _ => true
  | Seq r1 r2 | Alt r1 r2 => groupless r1 && groupless r2
  | Opt r1 => groupless r1
  | Group _ => false
  end.

(** What is left of [t] after the literal [s], if [t] starts with it. *)
Fixpoint strip (s t : string) : option string :=
  match s, t with
  | EmptyString, _ => Some t
  | String c s', String d t' => if Ascii.eqb c d then strip s' t' else None
  | String _ _, EmptyString => None
  end.

(** The part of [t] that was read when [rest] is what is left of it. *)
Definition consumed (t rest : string) : string :=
  String.substring 0 (String.length t - String.length rest) t.

Section Matcher.
Context {R : Type}.

(** [cls*] followed by the continuation [k]: the longest run first, one
    character given back at a time while the continuation fails. *)
Fixpoint star (cls : ascii → bool) (t : string) (k : string → option R)
  : option R :=
  match t with
  | String c t' =>
      if cls c
      then match star cls t' k with Some x => Some x | None => k t end
      else k t
  | EmptyString => k t
  end.

(** The backtracking matcher: [r] at the front of [t], then the
    continuation [k] on the text of the group and on what is left.  The
    alternatives are tried in the order of the pattern. *)
Fixpoint run (r : regex) (cap : option string) (t : string)
    (k : option string → string → option R) : option R :=
  match r with
  | Lit s => match strip s t with Some t' => k cap t' | None => None end
  | Star cls => star cls t (k cap)
  | Plus cls =>
      match t with
      | String c t' => if cls c then star cls t' (k cap) else None
      | EmptyString => None
      end
  | Seq r1 r2 => run r1 cap t (λ cap' t', run r2 cap' t' k)
  | Alt r1 r2 =>
      match run r1 cap t k with Some x => Some x | None => run r2 cap t k end
  | Opt r1 =>
      match run r1 cap t k with Some x => Some x | None => k cap t end
  | Group r1 => run r1 cap t (λ _ t', k (Some (consumed t t')) t')
  end.

End Matcher.

(** A match of [r] at the front of [t]: the text of the group and what
    is left. *)
Definition match_at (r : regex) (t : string) : option (option string * string) :=
  run r None t (λ cap rest, Some (cap, rest)).

(** [re.findall(r, t)] for a pattern with one group that does not match
    the empty string: the group of every match, left to right, the
    search going on where the last match ended.  [skip] counts the
    characters of the last match that are still to be passed. *)
Fixpoint findall_from (r : regex) (skip : nat) (t : string) : list string :=
  match skip with
  | S skip' =>
      match t with
      | String _ t' => findall_from r skip' t'
      | EmptyString => []
      end
  | O =>
      match match_at r t with
      | Some (cap, rest) =>
          default "" cap ::
          match t with
          | String _ t' =>
              findall_from r (String.length t - String.length rest - 1) t'
          | EmptyString => []
          end
      | None =>
          match t with
          | String _ t' => findall_from r 0 t'
          | EmptyString => []
          end
      end
  end.

Definition re_findall (r : regex) (t : string) : list string :=
  findall_from r 0 t.

End Str.
Export Str.

(** ** job_analyzer.py *)

Module JobAnalyzer.

(** Elements of a set have to be hashable. *)
Definition hashable (v : pyval) : result pyval :=
  match v with
  | VList _ | VDict _ =>
      Raise (TypeError ("unhashable type: '" ++ type_name v ++ "'"))
  | _ => Ok v
  end.

Definition feq (a b : pyfloat) : bool :=
  match a, b with
  | Fin x, Fin y => Qeq_bool x y
  | PInf, PInf | NInf, NInf => true
  | _, _ => false
  end.

(** Equality of two hashable values as set elements: numbers compare by
    value across [bool], [int] and [float]; two [nan] read from JSON are
    different objects and never equal. *)
Definition key_eq (a b : pyval) : bool :=
  match a, b with
  | VNone, VNone => true
  | VStr s, VStr t => String.eqb s t
  | _, _ =>
      match as_float a, as_float b with
      | Some x, Some y => feq x y
      | _, _ => false
      end
  end.

(** A set is kept as the list of its elements in the order they were
    added; the order in which [list(set)] gives them is another one, the
    [set_order] of the [Env]. *)
Definition set_add (s : list pyval) (v : pyval) : list pyval :=
  if existsb (key_eq v) s then s else (s ++ [v])%list.

(** [a.union(b)] *)
Definition set_union (a b : list pyval) : list pyval := foldl set_add a b.

(** [set(v)] *)
Definition py_set (v : pyval) : result (list pyval) :=
  items ← py_iter v;
  keys ← mapM hashable items;
  Ok (foldl set_add [] keys).

Definition _merge_analyses (E : Env) (ai_analysis rule_analysis : dict)
  : result dict :=
  let merged := ai_analysis in
  let merged :=
    if negb (truthy (get merged "must_have_skills" VNone))
    then <["must_have_skills" :=
             get rule_analysis "must_have_skills" (VList [])]> merged
    else merged in
  let merged :=
    if negb (truthy (get merged "good_to_have_skills" VNone))
    then <["good_to_have_skills" :=
             get rule_analysis "good_to_have_skills" (VList [])]> merged
    else merged in
  ai_techs ← py_set (get merged "technologies" (VList []));
  rule_techs ← py_set (get rule_analysis "technologies" (VList []));
  let merged :=
    <["technologies" := VList (set_order E (set_union ai_techs rule_techs))]>
      merged in
  let merged :=
    if py_eq_str (get merged "experience_required" VNone) "Not specified"
       || negb (truthy (get merged "experience_required" VNone))
    then <["experience_required" :=
             get rule_analysis "experience_required" (VStr "Not specified")]> merged
    else merged in
  Ok merged.

(** *** The rule-based extractor *)

(** [self.skill_categories], in the order of the literal. *)
Definition skill_categories : list (string * list string) :=
  [ ("programming_languages",
       [ "python"; "java"; "javascript"; "typescript"; "c++"; "c#"; "php";
         "ruby"; "go"; "rust"; "kotlin"; "swift"; "scala"; "r"; "matlab" ]);
    ("web_technologies",
       [ "html"; "css"; "react"; "angular"; "vue"; "node.js"; "express";
         "django"; "flask"; "spring"; "laravel"; "rails" ]);
    ("databases",
       [ "mysql"; "postgresql"; "mongodb"; "redis"; "elasticsearch";
         "oracle"; "sql server"; "sqlite"; "cassandra"; "dynamodb" ]);
    ("cloud_platforms",
       [ "aws"; "azure"; "gcp"; "google cloud"; "docker"; "kubernetes";
         "terraform"; "jenkins"; "git"; "ci/cd" ]);
    ("data_science",
       [ "machine learning"; "deep learning"; "pandas"; "numpy";
         "scikit-learn"; "tensorflow"; "pytorch"; "tableau"; "power bi";
         "spark" ]);
    ("soft_skills",
       [ "communication"; "leadership"; "teamwork"; "problem solving";
         "analytical thinking"; "project management"; "agile"; "scrum" ]) ].

(** [self.skill_categories[category]] *)
Definition category (name : string) : list string :=
  default [] (snd <$> find (λ kv, String.eqb name kv.1) skill_categories).

Definition _get_skill_context (skill text : string) (context_window : Z)
  : string :=
  let skill_lower := lower skill in
  let text_lower := lower text in
  let index := str_find text_lower skill_lower in
  if (index =? -1)%Z then ""
  else
    let start := Z.max 0 (index - context_window) in
    let stop := Z.min (len text) (index + len skill + context_window) in
    str_slice text start stop.

(** The experience pattern; with a blank between its parts it reads
    [(\d+) [\+\-\s]* (?:years?|yrs?) \s* (?: of \s* )? (?:experience|exp)]. *)
Definition experience_pattern : regex :=
  Seq (Group (Plus is_digit))
 (Seq (Star (λ c, Ascii.eqb c "+" || Ascii.eqb c "-" || is_space c))
 (Seq (Alt (Seq (Lit "year") (Opt (Lit "s"))) (Seq (Lit "yr") (Opt (Lit "s"))))
 (Seq (Star is_space)
 (Seq (Opt (Seq (Lit "of") (Star is_space)))
      (Alt (Lit "experience") (Lit "exp")))))).

Definition education_keywords : list string :=
  [ "bachelor"; "master"; "phd"; "degree"; "diploma"; "certification" ].

Definition must_have_indicators : list string :=
  [ "required"; "essential"; "must have"; "mandatory"; "minimum" ].

Definition good_to_have_indicators : list string :=
  [ "preferred"; "nice to have"; "plus"; "bonus"; "advantage" ].

(** [any(indicator in skill_context.lower() for indicator in indicators)] *)
Definition indicated (indicators : list string) (skill_context : string) : bool :=
  existsb (λ indicator, contains indicator (lower skill_context)) indicators.

(** One turn of the classification loop on the two lists it fills. *)
Definition classify (job_description : string)
    (lists : list string * list string) (skill : string)
  : list string * list string :=
  let '(must_have_skills, good_to_have_skills) := lists in
  let skill_context := _get_skill_context skill job_description 100 in
  if indicated must_have_indicators skill_context
  then ((must_have_skills ++ [skill])%list, good_to_have_skills)
  else if indicated good_to_have_indicators skill_context
  then (must_have_skills, (good_to_have_skills ++ [skill])%list)
  else ((must_have_skills ++ [skill])%list, good_to_have_skills).

(** [list(set(l))] for strings: the order of the result is that of a
    Python set and is not specified.  The list of the first occurrences
    stands for it; what is stated of it below is its elements, never their
    order. *)
Definition list_set (l : list string) : list string := remove_dups l.

Definition _extract_with_rules (job_description : string) : dict :=
  let text_lower := lower job_description in
  let found_skills :=
    filter (λ skill, contains (lower skill) text_lower = true)
           (flat_map snd skill_categories) in
  let experience_matches := re_findall experience_pattern text_lower in
  let experience_required :=
    match experience_matches with
    | m :: _ => m
    | [] => "Not specified"
    end in
  let education_mentions :=
    filter (λ keyword, contains keyword text_lower = true) education_keywords in
  let '(must_have_skills, good_to_have_skills) :=
    foldl (classify job_description) ([], []) found_skills in
  mkdict
    [ ("role_title", VStr "Not extracted");
      ("must_have_skills", strs (list_set must_have_skills));
      ("good_to_have_skills", strs (list_set good_to_have_skills));
      ("qualifications", strs education_mentions);
      ("experience_required", VStr experience_required);
      ("key_responsibilities", VList []);
      ("technologies", strs found_skills);
      ("soft_skills", VList []);
      ("education_level", VStr "Not specified");
      ("industry", VStr "Not specified");
      ("employment_type", VStr "Not specified") ].

(** *** The model-based extractor and the entry point *)

(** [extraction_response] is
    [generate_content(model="gemini-2.5-pro", ...).text] for the
    extraction prompt built from the job description. *)
Definition _analyze_with_ai (E : Env)
    (extraction_response : string → result (option string))
    (job_description : string) : result pyval :=
  text ← extraction_response job_description;
  text ← ScoringEngine.response_text text "Empty response from Gemini model";
  json_loads E text.

(** [ai_analysis.copy()] followed by [merged.get]: a dict has both, a
    list has [copy] only. *)
Definition copy_of (ai_analysis : pyval) : result dict :=
  match ai_analysis with
  | VDict d => Ok d
  | VList _ => Raise (AttributeError ai_analysis "get")
  | _ => Raise (AttributeError ai_analysis "copy")
  end.

(** The message printed in the [except] branch is not part of the
    model. *)
Definition parse_job_description (E : Env)
    (extraction_response : string → result (option string))
    (job_description : string) : dict :=
  match
    ai_analysis ← _analyze_with_ai E extraction_response job_description;
    let rule_based_analysis := _extract_with_rules job_description in
    merged ← copy_of ai_analysis;
    _merge_analyses E merged rule_based_analysis
  with
  | Ok parsed_jd => parsed_jd
  | Raise e => _extract_with_rules job_description
  end.

(** *** Keywords *)

Definition keyword_stop_words : gset string :=
  list_to_set
    [ "the"; "and"; "or"; "but"; "in"; "on"; "at"; "to"; "for"; "of"; "with";
      "by"; "from"; "as"; "is"; "are"; "was"; "were"; "be"; "been"; "being";
      "have"; "has"; "had"; "do"; "does"; "did"; "will"; "would"; "could";
      "should"; "may"; "might"; "must"; "can"; "this"; "that"; "these";
      "those"; "a"; "an"; "we"; "you"; "they"; "our"; "your"; "their" ].

(** [Counter(l)]: the counts, in the order in which the words first
    occur. *)
Fixpoint count_up (word : string) (counts : list (string * nat))
  : list (string * nat) :=
  match counts with
  | [] => [(word, 1%nat)]
  | (w, n) :: counts' =>
      if String.eqb w word then (w, S n) :: counts'
      else (w, n) :: count_up word counts'
  end.

Definition Counter (l : list string) : list (string * nat) :=
  foldl (λ counts word, count_up word counts) [] l.

(** [sorted(items, key=itemgetter(1), reverse=True)]: the sort is stable,
    so items of equal count keep their order. *)
Fixpoint insert_by_count (x : string * nat) (l : list (string * nat))
  : list (string * nat) :=
  match l with
  | [] => [x]
  | y :: l' =>
      if (x.2 <? y.2)%nat then y :: insert_by_count x l' else x :: y :: l'
  end.

Definition sort_by_count (l : list (string * nat)) : list (string * nat) :=
  foldr insert_by_count [] l.

(** [Counter.most_common(n)], which is [heapq.nlargest(n, items, key)]:
    the first [n] items of the stable sort by decreasing count. *)
Definition most_common (n : nat) (counts : list (string * nat))
  : list (string * nat) :=
  take n (sort_by_count counts).

Definition extract_keywords (job_description : string) : list string :=
  let text := sub_non_word_space (lower job_description) in
  let words := str_split text in
  let keywords :=
    filter (λ word, (2 < String.length word)%nat ∧ word ∉ keyword_stop_words)
           words in
  let word_freq := Counter keywords in
  fst <$> most_common 50 word_freq.

(** *** Categories *)

(** [any(name in skill_lower for name in names)] *)
Definition any_in (names : list string) (skill_lower : string) : bool :=
  existsb (λ name, contains name skill_lower) names.

(** [categorized[key].append(skill)] *)
Definition append_to (key : string) (skill : string)
    (categorized : gmap string (list string)) : gmap string (list string) :=
  <[key := (default [] (categorized !! key) ++ [skill])%list]> categorized.

(** One turn of the loop of [categorize_skills]. *)
Definition categorize (categorized : gmap string (list string))
    (skill : string) : gmap string (list string) :=
  let skill_lower := lower skill in
  if any_in (category "programming_languages") skill_lower
  then append_to "programming" skill categorized
  else if any_in (category "web_technologies" ++ category "databases")%list
                 skill_lower
  then append_to "technical" skill categorized
  else if any_in (category "cloud_platforms") skill_lower
  then append_to "tools" skill categorized
  else if any_in (category "soft_skills") skill_lower
  then append_to "soft_skills" skill categorized
  else append_to "other" skill categorized.

Definition categorize_skills (skills : list string)
  : gmap string (list string) :=
  foldl categorize
        (list_to_map [ ("technical", []); ("programming", []); ("tools", []);
                       ("soft_skills", []); ("other", []) ])
        skills.

End JobAnalyzer.

(** ** Concrete collaborators used in the examples *)

Module Fixtures.

(** The model is unreachable and sklearn is not installed. *)
Definition offline : Env :=
  {| similarity_response := λ _ _, Raise (Exception "connection refused");
     review_response := λ _ _ _ _, Raise (Exception "connection refused");
     json_loads := λ _, Raise (Exc "JSONDecodeError" "Expecting value: line 1 column 1 (char 0)");
     SKLEARN_AVAILABLE := false;
     tfidf_cosine := λ _ _, Raise (Exc "NameError" "name 'cosine_similarity' is not defined");
     set_order := reverse;
     set_order_perm := reverse_Permutation |}.

(** The model is unreachable, sklearn is installed, and the vectorizer
    rejects documents that are made of stop words only. *)
Definition offline_sklearn : Env :=
  {| similarity_response := λ _ _, Raise (Exception "connection refused");
     review_response := λ _ _ _ _, Raise (Exception "connection refused");
     json_loads := λ _, Raise (Exc "JSONDecodeError" "Expecting value: line 1 column 1 (char 0)");
     SKLEARN_AVAILABLE := true;
     tfidf_cosine := λ _ _,
       Raise (Exc "ValueError"
                  "empty vocabulary; perhaps the documents only contain stop words");
     set_order := reverse;
     set_order_perm := reverse_Permutation |}.

(** A model that answers every prompt with the same JSON object, whose
    numbers are out of range. *)
Definition out_of_range_reply : pyval :=
  VDict (mkdict [ ("score", VInt 150);
                  ("confidence", VFloat NaN);
                  ("similarity_score", VFloat (Fin (-(25 # 10))));
                  ("missing_skills", VList [VStr "docker"; VInt 7]) ]).

Definition out_of_range : Env :=
  {| similarity_response := λ _ _, Ok (Some "{...}");
     review_response := λ _ _ _ _, Ok (Some "{...}");
     json_loads := λ _, Ok out_of_range_reply;
     SKLEARN_AVAILABLE := false;
     tfidf_cosine := λ _ _, Raise (Exc "NameError" "name 'cosine_similarity' is not defined");
     set_order := reverse;
     set_order_perm := reverse_Permutation |}.

Definition requirements : dict :=
  mkdict [ ("must_have_skills", strs ["python"; "sql"]);
           ("good_to_have_skills", strs ["docker"]) ].

(** A parsed job description whose must-have list holds a number. *)
Definition ill_typed_requirements : dict :=
  mkdict [ ("must_have_skills", VList [VStr "python"; VInt 1]) ].

(** What the model and the rule-based extractor found for one posting. *)
Definition llm_analysis : dict :=
  mkdict [ ("role_title", VStr "Data Engineer");
           ("must_have_skills", VList []);
           ("technologies", strs ["python"; "sql"]);
           ("experience_required", VStr "Not specified") ].

Definition rule_analysis : dict :=
  mkdict [ ("role_title", VStr "Not extracted");
           ("must_have_skills", strs ["python"]);
           ("good_to_have_skills", strs ["docker"]);
           ("technologies", strs ["sql"; "docker"; "sql"]);
           ("experience_required", VStr "3") ].

End Fixtures.

(** ** The formulas of the specification, in its own words *)

Module Spec.

(** The formulas are read in float arithmetic: every quotient, product
    and sum is the float nearest to the exact one. *)

(** min(x, y) *)
Definition fmin (x y : pyfloat) : pyfloat := if flt y x then y else x.

(** The count of matched skills over the length of the list, 0 when the
    list is empty. *)
Definition fraction (matched total : nat) : pyfloat :=
  if (total =? 0)%nat then Fin 0
  else double (inject_Z (Z.of_nat matched) / inject_Z (Z.of_nat total)).

(** round(min(100, must_have_fraction x 100 + good_to_have_fraction x 50), 1) *)
Definition hard_score (must_found must_total good_found good_total : nat)
  : pyfloat :=
  fround1 (fmin (of_Z 100)
                (fadd (fmul (fraction must_found must_total) (of_Z 100))
                      (fmul (fraction good_found good_total) (of_Z 50)))).

(** round(hard x 0.4 + semantic x 0.4 + ai x 0.2, 1) *)
Definition final_score (hard semantic ai : Q) : pyfloat :=
  fround1 (fadd (fadd (fmul (Fin hard) (double (4 # 10)))
                      (fmul (Fin semantic) (double (4 # 10))))
                (fmul (Fin ai) (double (2 # 10)))).

(** round(|intersection| / |union| x 100, 1), 0 when the union is empty *)
Definition jaccard_score (intersection union : nat) : pyfloat :=
  if (union =? 0)%nat then Fin 0
  else fround1 (fmul (double (inject_Z (Z.of_nat intersection)
                              / inject_Z (Z.of_nat union)))
                     (of_Z 100)).

(** The aliases of a skill in the fixed table, read both ways: the other
    names of a canonical skill and, for an alias, its canonical name and
    all the aliases of that name. *)
Definition alias_of (skill a : string) : Prop :=
  ∃ main alts, (main, alts) ∈ ScoringEngine.substitutions ∧
    ((skill = main ∧ a ∈ alts) ∨ (skill ∈ alts ∧ (a = main ∨ a ∈ alts))).

(** Adding a string to a set of strings kept as a list without
    repetition, and the union of two lists of strings built that way. *)
Definition add_str (acc : list string) (s : string) : list string :=
  if decide (s ∈ acc) then acc else (acc ++ [s])%list.

Definition union_strs (a b : list string) : list string :=
  foldl add_str (foldl add_str [] a) (foldl add_str [] b).

(** The fields of a complete AnalysisResult. *)
Definition analysis_result_keys : gset string :=
  list_to_set
    [ "relevance_score"; "hard_match_score"; "semantic_score"; "ai_score";
      "verdict"; "confidence"; "missing_skills"; "found_skills";
      "suggestions"; "detailed_feedback"; "score_breakdown" ].

End Spec.

Import ScoringEngine JobAnalyzer.

(** Steps of the [result] monad. *)
Ltac result_simpl :=
  cbn [mbind result_bind mret result_ret fmap result_fmap] in *.

(** ** Float arithmetic and rounding *)

Lemma Qltb_lt (x y : Q) : Qltb x y = true ↔ (x < y)%Q.
Proof.
  unfold Qltb. rewrite Qlt_alt. destruct (x ?= y)%Q; split; congruence.
Qed.

Lemma Qltb_ge (x y : Q) : Qltb x y = false ↔ (y <= x)%Q.
Proof.
  split.
  - intros H. apply Qnot_lt_le. intros Hlt. apply Qltb_lt in Hlt. congruence.
  - intros H. destruct (Qltb x y) eqn:E; [|done].
    apply Qltb_lt in E. exfalso. by apply (Qlt_not_le x y).
Qed.

Lemma Qle_bool_false (x y : Q) : Qle_bool x y = false ↔ (y < x)%Q.
Proof.
  split.
  - intros H. apply Qnot_le_lt. intros Hle. apply Qle_bool_iff in Hle. congruence.
  - intros H. destruct (Qle_bool x y) eqn:E; [|done].
    apply Qle_bool_iff in E. exfalso. by apply (Qlt_not_le y x).
Qed.

#[global] Instance round_half_even_proper : Proper (Qeq ==> eq) round_half_even.
Proof.
  intros x y Hxy. unfold round_half_even.
  rewrite (Qfloor_comp x y Hxy).
  assert (H : (x - inject_Z (Qfloor y) ?= 1 # 2)%Q
            = (y - inject_Z (Qfloor y) ?= 1 # 2)%Q).
  { apply Qcompare_comp; [by rewrite Hxy | reflexivity]. }
  by rewrite H.
Qed.

(** ** Rounding to the nearest integer *)

Lemma round_half_even_ge_floor (x : Q) : (Qfloor x <= round_half_even x)%Z.
Proof.
  unfold round_half_even.
  destruct (x - inject_Z (Qfloor x) ?= 1 # 2)%Q; [destruct (Z.even _)|..]; lia.
Qed.

Lemma round_half_even_le (x : Q) (n : Z) :
  (x <= inject_Z n)%Q → (round_half_even x <= n)%Z.
Proof.
  intros Hx. unfold round_half_even.
  assert (Hfl : (Qfloor x <= n)%Z).
  { rewrite <- (Qfloor_Z n). by apply Qfloor_resp_le. }
  destruct (Z.eq_dec (Qfloor x) n) as [Heq | Hne].
  - assert (Hxn : (x == inject_Z n)%Q).
    { apply Qle_antisym; [done|]. rewrite <- Heq. apply Qfloor_le. }
    assert (Hc : (x - inject_Z (Qfloor x) ?= 1 # 2)%Q = Lt).
    { apply Qlt_alt. rewrite Heq, Hxn. unfold Qminus. rewrite Qplus_opp_r.
      reflexivity. }
    rewrite Hc. lia.
  - destruct (_ ?= _)%Q; [destruct (Z.even _)|..]; lia.
Qed.

Lemma round_half_even_ge (x : Q) (n : Z) :
  (inject_Z n <= x)%Q → (n <= round_half_even x)%Z.
Proof.
  intros Hx. pose proof (round_half_even_ge_floor x).
  assert ((n <= Qfloor x)%Z); [|lia].
  rewrite <- (Qfloor_Z n). by apply Qfloor_resp_le.
Qed.

Lemma round_half_even_le_floor_succ (x : Q) :
  (round_half_even x <= Qfloor x + 1)%Z.
Proof.
  unfold round_half_even.
  destruct (x - inject_Z (Qfloor x) ?= 1 # 2)%Q; [destruct (Z.even _)|..]; lia.
Qed.

Lemma round_half_even_mono (x y : Q) :
  (x <= y)%Q → (round_half_even x <= round_half_even y)%Z.
Proof.
  intros Hxy.
  pose proof (Qfloor_resp_le _ _ Hxy) as Hfl.
  destruct (Z.eq_dec (Qfloor x) (Qfloor y)) as [Heq|Hne].
  - unfold round_half_even. rewrite Heq.
    set (f := inject_Z (Qfloor y)).
    destruct (x - f ?= 1 # 2)%Q eqn:Hx,
             (y - f ?= 1 # 2)%Q eqn:Hy;
      try (destruct (Z.even _); lia); try lia.
    + apply Qeq_alt in Hx. apply Qlt_alt in Hy. lra.
    + apply Qgt_alt in Hx. apply Qeq_alt in Hy. lra.
    + apply Qgt_alt in Hx. apply Qlt_alt in Hy. lra.
  - pose proof (round_half_even_le_floor_succ x).
    pose proof (round_half_even_ge_floor y). lia.
Qed.

(** ** Powers of two *)

Lemma two_pow_pos (e : Z) : (0 < 2 ^ e)%Q.
Proof. by apply Qpower_0_lt. Qed.

Lemma two_pow_plus (a b : Z) : (2 ^ (a + b) == 2 ^ a * 2 ^ b)%Q.
Proof. by apply Qpower_plus. Qed.

Lemma two_pow_le (a b : Z) : (a <= b)%Z → (2 ^ a <= 2 ^ b)%Q.
Proof. intros H. by apply Qpower_le_compat_l. Qed.

Lemma two_pow_lt_inv (a b : Z) : (2 ^ a < 2 ^ b)%Q → (a < b)%Z.
Proof. intros H. by apply (Qpower_lt_compat_l_inv 2). Qed.

Lemma two_pow_Z (n : Z) : (0 <= n)%Z → (inject_Z (2 ^ n) == 2 ^ n)%Q.
Proof. intros H. by rewrite Zpower_Qpower. Qed.

Lemma two_pow_succ (a : Z) : (2 ^ (a + 1) == 2 * 2 ^ a)%Q.
Proof. rewrite two_pow_plus. change (2 ^ 1)%Q with 2%Q. ring. Qed.

Lemma two_pow_pred (a : Z) : (2 * 2 ^ (a - 1) == 2 ^ a)%Q.
Proof.
  rewrite <- (two_pow_succ (a - 1)). by replace (a - 1 + 1)%Z with a by lia.
Qed.

Lemma two_pow_minus (a b : Z) : (2 ^ (a - b) * 2 ^ b == 2 ^ a)%Q.
Proof. rewrite <- two_pow_plus. by replace (a - b + b)%Z with a by lia. Qed.

(** ** The binary logarithm *)

Lemma floor_log2_spec (q : Q) :
  (0 < q)%Q →
  (2 ^ floor_log2 q <= q)%Q ∧ (q < 2 ^ (floor_log2 q + 1))%Q.
Proof.
  intros Hq. unfold floor_log2.
  destruct q as [n d]. cbn [Qnum Qden].
  assert (Hn : (0 < n)%Z).
  { unfold Qlt in Hq. cbn in Hq. lia. }
  set (ln := Z.log2 n). set (ld := Z.log2 (Z.pos d)).
  destruct (Z.log2_spec n Hn) as [Hn1 Hn2].
  destruct (Z.log2_spec (Z.pos d) eq_refl) as [Hd1 Hd2].
  fold ln in Hn1, Hn2. fold ld in Hd1, Hd2.
  assert (Hln : (0 <= ln)%Z) by apply Z.log2_nonneg.
  assert (Hld : (0 <= ld)%Z) by apply Z.log2_nonneg.
  assert (HA := two_pow_Z ln Hln). assert (HB := two_pow_Z ld Hld).
  assert (HA' := two_pow_Z (Z.succ ln) ltac:(lia)).
  assert (HB' := two_pow_Z (Z.succ ld) ltac:(lia)).
  rewrite Zle_Qle in Hn1, Hd1.
  rewrite Zlt_Qlt in Hn2, Hd2.
  rewrite HA in Hn1. rewrite HB in Hd1. rewrite HA' in Hn2. rewrite HB' in Hd2.
  replace (Z.succ ln) with (ln + 1)%Z in Hn2 by lia.
  replace (Z.succ ld) with (ld + 1)%Z in Hd2 by lia.
  rewrite two_pow_succ in Hn2, Hd2.
  pose proof (two_pow_pos ln) as PA. pose proof (two_pow_pos ld) as PB.
  pose proof (two_pow_pos (ln - ld)) as PK.
  pose proof (two_pow_minus ln ld) as HK.
  assert (Hqv : (n # d == inject_Z n / inject_Z (Z.pos d))%Q) by apply Qmake_Qdiv.
  assert (Hdpos : (0 < inject_Z (Z.pos d))%Q) by reflexivity.
  set (N := inject_Z n) in *. set (D := inject_Z (Z.pos d)) in *.
  set (A := (2 ^ ln)%Q) in *. set (B := (2 ^ ld)%Q) in *.
  set (K := (2 ^ (ln - ld))%Q) in *.
  assert (Hup : (N / D < 2 * K)%Q).
  { apply Qlt_shift_div_r; [done|]. nra. }
  assert (Hlo : (K < 2 * (N / D))%Q).
  { assert (K * D < 2 * N)%Q by nra.
    assert (N / D * D == N)%Q by (field; lra). nra. }
  destruct (Qle_bool K (n # d)) eqn:Hle.
  - apply Qle_bool_iff in Hle. split; [done|].
    rewrite two_pow_succ. fold K. by rewrite Hqv.
  - assert (Hlt : (n # d < K)%Q).
    { apply Qnot_le_lt. intros H. apply Qle_bool_iff in H. congruence. }
    replace (ln - ld - 1 + 1)%Z with (ln - ld)%Z by lia. fold K.
    split; [|done].
    pose proof (two_pow_pred (ln - ld)) as Hp. fold K in Hp.
    rewrite Hqv. pose proof (two_pow_pos (ln - ld - 1)). nra.
Qed.

Lemma floor_log2_mono (x y : Q) :
  (0 < x)%Q → (x <= y)%Q → (floor_log2 x <= floor_log2 y)%Z.
Proof.
  intros Hx Hxy.
  destruct (floor_log2_spec x Hx) as [Hx1 _].
  destruct (floor_log2_spec y ltac:(lra)) as [_ Hy2].
  assert (H : (floor_log2 x < floor_log2 y + 1)%Z); [|lia].
  apply two_pow_lt_inv. lra.
Qed.

Lemma ulp_exp_mono (x y : Q) :
  (0 < x)%Q → (x <= y)%Q → (ulp_exp x <= ulp_exp y)%Z.
Proof.
  intros Hx Hxy. unfold ulp_exp.
  pose proof (floor_log2_mono x y Hx Hxy). lia.
Qed.

(** ** The nearest binary64 number *)

Lemma nearest_nonneg (q : Q) : (0 <= q)%Q → (0 <= nearest q)%Q.
Proof.
  intros Hq. unfold nearest.
  pose proof (two_pow_pos (ulp_exp q)) as HP.
  assert (H0 : (0 <= round_half_even (q / 2 ^ ulp_exp q))%Z).
  { apply round_half_even_ge. change (inject_Z 0) with 0%Q.
    apply Qle_shift_div_l; [done|]. lra. }
  rewrite Zle_Qle in H0. change (inject_Z 0) with 0%Q in H0. nra.
Qed.

Lemma nearest_le_top (q : Q) :
  (0 < q)%Q → (nearest q <= 2 ^ (ulp_exp q + 53))%Q.
Proof.
  intros Hq. unfold nearest.
  destruct (floor_log2_spec q Hq) as [_ Hq2].
  pose proof (two_pow_pos (ulp_exp q)) as HP.
  assert (Hle : (2 ^ (floor_log2 q + 1) <= 2 ^ (ulp_exp q + 53))%Q)
    by (apply two_pow_le; unfold ulp_exp; lia).
  rewrite (two_pow_plus (ulp_exp q) 53) in Hle |- *.
  assert (H53 : (2 ^ 53 == inject_Z (2 ^ 53))%Q) by (by rewrite two_pow_Z).
  assert (Hm : (round_half_even (q / 2 ^ ulp_exp q) <= 2 ^ 53)%Z).
  { apply round_half_even_le. rewrite <- H53.
    apply Qle_shift_div_r; [done|]. lra. }
  rewrite Zle_Qle in Hm. rewrite <- H53 in Hm. nra.
Qed.

Lemma nearest_ge_bottom (q : Q) :
  (0 < q)%Q → (-1074 < ulp_exp q)%Z → (2 ^ (ulp_exp q + 52) <= nearest q)%Q.
Proof.
  intros Hq He. unfold nearest.
  destruct (floor_log2_spec q Hq) as [Hq1 _].
  pose proof (two_pow_pos (ulp_exp q)) as HP.
  assert (Heq : (ulp_exp q + 52 = floor_log2 q)%Z) by (unfold ulp_exp in *; lia).
  rewrite Heq. rewrite <- Heq in Hq1.
  rewrite (two_pow_plus (ulp_exp q) 52) in Hq1.
  rewrite <- Heq, (two_pow_plus (ulp_exp q) 52).
  assert (H52 : (2 ^ 52 == inject_Z (2 ^ 52))%Q) by (by rewrite two_pow_Z).
  assert (Hm : (2 ^ 52 <= round_half_even (q / 2 ^ ulp_exp q))%Z).
  { apply round_half_even_ge. rewrite <- H52.
    apply Qle_shift_div_l; [done|]. lra. }
  rewrite Zle_Qle in Hm. rewrite <- H52 in Hm. nra.
Qed.

Lemma nearest_mono (x y : Q) :
  (0 < x)%Q → (x <= y)%Q → (nearest x <= nearest y)%Q.
Proof.
  intros Hx Hxy.
  pose proof (ulp_exp_mono x y Hx Hxy) as He.
  destruct (Z.eq_dec (ulp_exp x) (ulp_exp y)) as [Heq|Hne].
  - unfold nearest. rewrite Heq.
    pose proof (two_pow_pos (ulp_exp y)) as HP.
    assert (Hm : (round_half_even (x / 2 ^ ulp_exp y)
                  <= round_half_even (y / 2 ^ ulp_exp y))%Z).
    { apply round_half_even_mono. unfold Qdiv.
      apply Qmult_le_compat_r; [done|]. apply Qinv_le_0_compat. lra. }
    rewrite Zle_Qle in Hm. nra.
  - pose proof (nearest_le_top x Hx) as Htop.
    assert (Hy : (-1074 < ulp_exp y)%Z) by (unfold ulp_exp in *; lia).
    pose proof (nearest_ge_bottom y ltac:(lra) Hy) as Hbot.
    assert (Hle : (2 ^ (ulp_exp x + 53) <= 2 ^ (ulp_exp y + 52))%Q)
      by (apply two_pow_le; lia).
    lra.
Qed.

(** ** Floats *)

#[global] Instance double_proper : Proper (Qeq ==> eq) double.
Proof. intros x y Hxy. unfold double. by rewrite (Qred_complete _ _ Hxy). Qed.

(** Rounding keeps the order of non-negative numbers: below a number
    that rounds to a finite float, every non-negative number rounds to a
    finite float that is not greater. *)
Lemma double_mono (x y ry : Q) :
  (0 <= x)%Q → (x <= y)%Q → double y = Fin ry →
  ∃ rx, double x = Fin rx ∧ (0 <= rx)%Q ∧ (rx <= ry)%Q.
Proof.
  intros Hx Hxy. unfold double.
  pose proof (Qred_correct x) as Hrx. pose proof (Qred_correct y) as Hry.
  set (x' := Qred x) in *. set (y' := Qred y) in *. cbv zeta.
  destruct (y' ?= 0)%Q eqn:Hy0.
  - apply Qeq_alt in Hy0. intros [= <-].
    assert (Hx0 : (x' ?= 0)%Q = Eq) by (apply Qeq_alt; lra).
    rewrite Hx0. exists 0%Q. split_and!; [done | lra | lra].
  - apply Qlt_alt in Hy0. lra.
  - apply Qgt_alt in Hy0.
    destruct (Qle_bool (2 ^ 1024) (nearest y')) eqn:Hov; [done|].
    intros [= <-].
    pose proof (Qred_correct (nearest y')) as Hny.
    pose proof (nearest_nonneg y' ltac:(lra)) as Hy1.
    assert (Hovy : (nearest y' < 2 ^ 1024)%Q).
    { apply Qnot_le_lt. intros H. apply Qle_bool_iff in H. congruence. }
    destruct (x' ?= 0)%Q eqn:Hx0.
    + exists 0%Q. split_and!; [done | lra | lra].
    + apply Qlt_alt in Hx0. lra.
    + apply Qgt_alt in Hx0.
      pose proof (nearest_mono x' y' Hx0 ltac:(lra)) as Hm.
      pose proof (nearest_nonneg x' ltac:(lra)) as Hx1.
      pose proof (Qred_correct (nearest x')) as Hnx.
      assert (Hovx : Qle_bool (2 ^ 1024) (nearest x') = false).
      { apply not_true_is_false. intros H. apply Qle_bool_iff in H. lra. }
      rewrite Hovx. eexists. split; [reflexivity|]. split; lra.
Qed.

(** The integers from 0 to 100 are floats. *)
Lemma double_small_int (z : Z) :
  (0 <= z <= 100)%Z → double (inject_Z z) = Fin (inject_Z z).
Proof.
  intros Hz.
  assert (Hall : forallb
            (λ n, match double (inject_Z (Z.of_nat n)) with
                  | Fin (a # b) => Z.eqb a (Z.of_nat n) && Pos.eqb b 1
                  | _ => false
                  end) (seq 0 101) = true) by (vm_compute; reflexivity).
  rewrite forallb_forall in Hall.
  specialize (Hall (Z.to_nat z)). rewrite Z2Nat.id in Hall by lia.
  assert (Hin : In (Z.to_nat z) (seq 0 101)) by (apply in_seq; lia).
  specialize (Hall Hin).
  destruct (double (inject_Z z)) as [[a b]| | |]; try discriminate.
  apply andb_true_iff in Hall as [Ha Hb].
  apply Z.eqb_eq in Ha. apply Pos.eqb_eq in Hb. by subst.
Qed.

(** A number between 0 and an integer up to 100 rounds to a float in the
    same interval. *)
Lemma double_bounded (x : Q) (n : Z) :
  (0 <= n <= 100)%Z → (0 <= x)%Q → (x <= inject_Z n)%Q →
  ∃ r, double x = Fin r ∧ (0 <= r)%Q ∧ (r <= inject_Z n)%Q.
Proof.
  intros Hn Hx0 Hxn.
  exact (double_mono x (inject_Z n) (inject_Z n) Hx0 Hxn (double_small_int n Hn)).
Qed.

#[global] Instance round1_proper : Proper (Qeq ==> eq) round1.
Proof.
  intros x y Hxy. unfold round1.
  assert (H : (x * 10 == y * 10)%Q) by (by rewrite Hxy).
  by rewrite (round_half_even_proper _ _ H).
Qed.

(** A number in such an interval stays there when it is rounded to one
    decimal. *)
Lemma round1_bounded (x : Q) (n : Z) :
  (0 <= n <= 100)%Z → (0 <= x)%Q → (x <= inject_Z n)%Q →
  ∃ r, round1 x = Fin r ∧ (0 <= r)%Q ∧ (r <= inject_Z n)%Q.
Proof.
  intros Hn Hx0 Hxn. unfold round1.
  assert (H0 : (0 <= round_half_even (x * 10))%Z).
  { apply round_half_even_ge. change (inject_Z 0) with 0%Q. lra. }
  assert (H1 : (round_half_even (x * 10) <= n * 10)%Z).
  { apply round_half_even_le. rewrite inject_Z_mult.
    change (inject_Z 10) with 10%Q. lra. }
  apply double_bounded; [done | |].
  - unfold Qle. cbn [Qnum Qden]. lia.
  - unfold Qle, inject_Z. cbn [Qnum Qden]. lia.
Qed.

(** A float that is not below zero: a finite one from 0 on, inf or nan. *)
Lemma not_below_zero (f : pyfloat) :
  flt f (of_Z 0) = false ↔
  match f with Fin r => (0 <= r)%Q | NInf => False | _ => True end.
Proof.
  destruct f as [r| | |]; cbn [flt of_Z]; [|done..].
  change (inject_Z 0) with 0%Q. apply Qltb_ge.
Qed.

Lemma double_not_below_zero (x : Q) :
  (0 <= x)%Q → flt (double x) (of_Z 0) = false.
Proof.
  intros Hx. apply not_below_zero. unfold double.
  pose proof (Qred_correct x) as Hr. set (x' := Qred x) in *. cbv zeta.
  destruct (x' ?= 0)%Q eqn:Hc.
  - done.
  - apply Qlt_alt in Hc. lra.
  - apply Qgt_alt in Hc. destruct (Qle_bool _ _); [done|].
    rewrite Qred_correct. apply nearest_nonneg. lra.
Qed.

Lemma fmul_not_below_zero (a b : pyfloat) :
  flt a (of_Z 0) = false → flt b (of_Z 0) = false →
  flt (fmul a b) (of_Z 0) = false.
Proof.
  rewrite !not_below_zero. intros Ha Hb.
  destruct a as [x| | |], b as [y| | |]; try done; cbn [fmul].
  - apply not_below_zero, double_not_below_zero. nra.
  - unfold fsign. destruct (x ?= 0)%Q eqn:Hc; [done | | done].
    apply Qlt_alt in Hc. lra.
  - unfold fsign. destruct (y ?= 0)%Q eqn:Hc; [done | | done].
    apply Qlt_alt in Hc. lra.
Qed.

Lemma fadd_not_below_zero (a b : pyfloat) :
  flt a (of_Z 0) = false → flt b (of_Z 0) = false →
  flt (fadd a b) (of_Z 0) = false.
Proof.
  rewrite !not_below_zero. intros Ha Hb.
  destruct a as [x| | |], b as [y| | |]; try done; cbn [fadd].
  apply not_below_zero, double_not_below_zero. lra.
Qed.

(** ** Score aggregator: verdict and weighted score *)

Lemma verdict_cases (s : Q) :
  ((75 <= s)%Q ∧ _get_verdict (Fin s) = "High") ∨
  ((50 <= s)%Q ∧ (s < 75)%Q ∧ _get_verdict (Fin s) = "Medium") ∨
  ((s < 50)%Q ∧ _get_verdict (Fin s) = "Low").
Proof.
  unfold _get_verdict, fle, of_Z.
  destruct (Qle_bool (inject_Z 75) s) eqn:H75.
  - left. by apply Qle_bool_iff in H75.
  - apply Qle_bool_false in H75.
    destruct (Qle_bool (inject_Z 50) s) eqn:H50.
    + right; left. by apply Qle_bool_iff in H50.
    + right; right. by apply Qle_bool_false in H50.
Qed.

(** C4: the verdict of a final score [s] is "High" exactly when [s >= 75],
    "Medium" exactly when [50 <= s < 75] and "Low" exactly when [s < 50];
    75.0 is "High", 74.9 and 50.0 are "Medium", 49.9 is "Low". *)
Theorem get_verdict_thresholds (s : Q) :
  (_get_verdict (Fin s) = "High" ↔ (75 <= s)%Q) ∧
  (_get_verdict (Fin s) = "Medium" ↔ (50 <= s)%Q ∧ (s < 75)%Q) ∧
  (_get_verdict (Fin s) = "Low" ↔ (s < 50)%Q) ∧
  _get_verdict (Fin 75) = "High" ∧
  _get_verdict (Fin (749 # 10)) = "Medium" ∧
  _get_verdict (Fin 50) = "Medium" ∧
  _get_verdict (Fin (499 # 10)) = "Low".
Proof.
  assert (Hcases := verdict_cases s).
  split_and!; try reflexivity.
  all: destruct Hcases as [[H1 E] | [(H1 & H2 & E) | [H1 E]]]; rewrite E.
  all: split; intros H; try discriminate; try done; try lra.
Qed.

Lemma num_value_as_float (v : pyval) (q : Q) :
  num_value v = Some q → as_float v = Some (Fin q).
Proof.
  unfold num_value. destruct (as_float v) as [[]|]; congruence.
Qed.






(** The sum of the three products is rounded as a float is: the scores
    100, 61.5 and 51.75 give 74.94999999999999, hence 74.9 and the
    verdict "Medium", where the exact sum would be 74.95; and 72.25 x 0.2
    is 14.450000000000001, which rounds to 14.5. *)
Example final_score_below_the_tie :
  Spec.final_score 100 (615 # 10) (5175 # 100) = double (749 # 10) ∧
  _get_verdict (Spec.final_score 100 (615 # 10) (5175 # 100)) = "Medium" ∧
  fround1 (fmul (Fin (7225 # 100)) (double (2 # 10))) = double (145 # 10).
Proof. vm_compute. by split_and!. Qed.

Lemma lookup_mkdict_head (k : string) (v : pyval) (l : list (string * pyval)) :
  mkdict ((k, v) :: l) !! k = Some v.
Proof. unfold mkdict. cbn [list_to_map foldr]. apply lookup_insert_eq. Qed.

(** ** Qualitative reviewer: clamping and the default review *)

Lemma inject_Z_le (a b : Z) : (a <= b)%Z → (inject_Z a <= inject_Z b)%Q.
Proof. by rewrite <- Zle_Qle. Qed.

(** Whatever number goes in, [max(lo, min(hi, v))] is a finite number
    between [lo] and [hi]; a value that is no number makes it raise. *)
Lemma clamp_range (lo hi : Z) (v r : pyval) :
  (lo <= hi)%Z →
  clamp lo hi v = Ok r →
  ∃ q, num_value r = Some q ∧ (inject_Z lo <= q)%Q ∧ (q <= inject_Z hi)%Q.
Proof.
  intros Hlh. apply inject_Z_le in Hlh.
  unfold clamp, py_min_int, py_lt_int.
  destruct (as_float v) as [f|] eqn:Ef; result_simpl; [|discriminate].
  destruct (flt f (of_Z hi)) eqn:Hhi.
  - unfold py_max_int, py_gt_int. rewrite Ef. result_simpl.
    destruct (flt (of_Z lo) f) eqn:Hlo; intros [= <-].
    + destruct f as [x| | |]; try discriminate.
      unfold flt, of_Z in Hhi, Hlo.
      apply Qltb_lt in Hhi, Hlo.
      exists x. unfold num_value. rewrite Ef.
      split_and!; [done| |]; by apply Qlt_le_weak.
    + exists (inject_Z lo). split_and!; [done | apply Qle_refl | done].
  - unfold py_max_int, py_gt_int. cbn [as_float]. result_simpl.
    destruct (flt (of_Z lo) (of_Z hi)); intros [= <-].
    + exists (inject_Z hi). split_and!; [done | done | apply Qle_refl].
    + exists (inject_Z lo). split_and!; [done | apply Qle_refl | done].
Qed.

Lemma ai_analysis_cases (E : Env) (resume_text job_description : string)
    (parsed_jd : dict) :
  (∃ e, _ai_analysis E resume_text job_description parsed_jd = default_analysis e) ∨
  (∃ (result : dict) (score confidence : pyval),
      clamp 0 100 (get result "score" (VInt 50)) = Ok score ∧
      clamp 0 1 (get (<["score" := score]> result) "confidence"
                     (VFloat (Fin (8 # 10)))) = Ok confidence ∧
      _ai_analysis E resume_text job_description parsed_jd
        = <["confidence" := confidence]> (<["score" := score]> result)).
Proof.
  unfold _ai_analysis.
  destruct (review_response E _ _ _ _) as [t|e]; result_simpl; [|by left; eexists].
  destruct (response_text t _) as [text|e]; result_simpl; [|by left; eexists].
  destruct (json_loads E text) as [parsed|e]; result_simpl; [|by left; eexists].
  destruct (as_dict parsed) as [result|e]; result_simpl; [|by left; eexists].
  destruct (clamp 0 100 _) as [score|e] eqn:Hs; result_simpl; [|by left; eexists].
  destruct (clamp 0 1 _) as [confidence|e] eqn:Hc; result_simpl; [|by left; eexists].
  right. by exists result, score, confidence.
Qed.

(** C9: the review's score is a number in [0, 100] and its confidence a
    number in [0, 1] whatever the model returned; when the call raises,
    the response is empty or its text does not parse, the review is the
    default one: score 50, confidence 0.5, recommendation
    "review_manually", the single weakness "Analysis error: <message>" and
    the three match fields "unknown". *)
Theorem ai_analysis_clamped_or_default (E : Env) (resume_text job_description : string)
    (parsed_jd : dict) :
  (∃ s c : Q,
      (_ai_analysis E resume_text job_description parsed_jd !! "score")
        ≫= num_value = Some s ∧
      (0 <= s)%Q ∧ (s <= 100)%Q ∧
      (_ai_analysis E resume_text job_description parsed_jd !! "confidence")
        ≫= num_value = Some c ∧
      (0 <= c)%Q ∧ (c <= 1)%Q) ∧
  (∀ e t text,
      review_response E job_description resume_text
          (get parsed_jd "must_have_skills" (VList []))
          (get parsed_jd "good_to_have_skills" (VList [])) = Raise e ∨
      (review_response E job_description resume_text
          (get parsed_jd "must_have_skills" (VList []))
          (get parsed_jd "good_to_have_skills" (VList [])) = Ok t ∧
       (t = None ∨ t = Some "") ∧
       e = Exception "Empty response from Gemini model") ∨
      (review_response E job_description resume_text
          (get parsed_jd "must_have_skills" (VList []))
          (get parsed_jd "good_to_have_skills" (VList [])) = Ok (Some text) ∧
       text ≠ "" ∧ json_loads E text = Raise e) →
      _ai_analysis E resume_text job_description parsed_jd = default_analysis e) ∧
  (∀ e,
      default_analysis e !! "score" = Some (VFloat (Fin 50)) ∧
      default_analysis e !! "confidence" = Some (VFloat (Fin (5 # 10))) ∧
      default_analysis e !! "recommendation" = Some (VStr "review_manually") ∧
      default_analysis e !! "weaknesses"
        = Some (VList [VStr ("Analysis error: " ++ exc_str e)]) ∧
      default_analysis e !! "experience_match" = Some (VStr "unknown") ∧
      default_analysis e !! "education_match" = Some (VStr "unknown") ∧
      default_analysis e !! "overall_fit" = Some (VStr "unknown")).
Proof.
  split_and!.
  - destruct (ai_analysis_cases E resume_text job_description parsed_jd)
      as [[e ->] | (result & score & confidence & Hs & Hc & ->)].
    + exists 50%Q, (5 # 10)%Q. vm_compute. split_and!; congruence.
    + destruct (clamp_range 0 100 _ _ ltac:(lia) Hs) as (s & Hsv & Hs0 & Hs1).
      destruct (clamp_range 0 1 _ _ ltac:(lia) Hc) as (c & Hcv & Hc0 & Hc1).
      exists s, c.
      rewrite lookup_insert_ne, !lookup_insert_eq by done. cbn [mbind option_bind].
      split_and!; done.
  - intros e t text H. unfold _ai_analysis.
    destruct H as [-> | [(-> & Ht & ->) | (-> & Hne & Hj)]]; result_simpl.
    + reflexivity.
    + by destruct Ht as [-> | ->].
    + unfold response_text. rewrite (proj2 (String.eqb_neq text "") Hne).
      result_simpl. by rewrite Hj.
  - intros e. vm_compute. split_and!; reflexivity.
Qed.

Example ai_analysis_out_of_range :
  _ai_analysis Fixtures.out_of_range "resume" "job" Fixtures.requirements !! "score"
    = Some (VInt 100) ∧
  _ai_analysis Fixtures.out_of_range "resume" "job" Fixtures.requirements !! "confidence"
    = Some (VInt 1).
Proof. vm_compute. by split. Qed.
(** ** Similarity estimator *)

(** Rounding a number between 0 and an integer up to 100 to one decimal
    gives a number in the same interval. *)
Lemma py_round1_bounded (v : pyval) (q : Q) (n : Z) :
  (0 <= n <= 100)%Z →
  num_value v = Some q → (0 <= q)%Q → (q <= inject_Z n)%Q →
  ∃ r q', py_round1 v = Ok r ∧ num_value r = Some q' ∧
          (0 <= q')%Q ∧ (q' <= inject_Z n)%Q.
Proof.
  intros Hn Hv Hq0 Hqn. destruct v as [|b|z|f| | |]; try discriminate.
  - exists (VInt (if b then 1 else 0)), q. by split_and!.
  - exists (VInt z), q. by split_and!.
  - destruct f as [x| | |]; try discriminate. injection Hv as ->.
    destruct (round1_bounded q n Hn Hq0 Hqn) as (r & Hr & Hr0 & Hrn).
    exists (VFloat (Fin r)), r. cbn [py_round1 fround1]. rewrite Hr.
    by split_and!.
Qed.

(** The LLM strategy always reports a score, and it is a number that is
    not negative. *)
Lemma gemini_score_nonneg (E : Env) (resume_text job_description : string) :
  ∃ v q, _gemini_semantic_similarity E resume_text job_description !! "score" = Some v ∧
         num_value v = Some q ∧ (0 <= q)%Q.
Proof.
  assert (Hfail : ∀ e, ∃ v q, gemini_failed e !! "score" = Some v ∧
                              num_value v = Some q ∧ (0 <= q)%Q).
  { intros e. exists (VFloat (Fin 0)), 0%Q. split_and!; [|done..].
    apply lookup_mkdict_head. }
  unfold _gemini_semantic_similarity.
  destruct (similarity_response E _ _) as [t|]; result_simpl; [|apply Hfail].
  destruct (response_text t _) as [text|]; result_simpl; [|apply Hfail].
  destruct (json_loads E text) as [parsed|]; result_simpl; [|apply Hfail].
  destruct (as_dict parsed) as [result|]; result_simpl; [|apply Hfail].
  destruct (clamp 0 100 _) as [score|] eqn:Hs; result_simpl; [|apply Hfail].
  destruct (clamp_range 0 100 _ _ ltac:(lia) Hs) as (s & Hsv & Hs0 & Hs1).
  destruct (py_round1_bounded _ _ 100 ltac:(lia) Hsv Hs0 Hs1)
    as (r & q' & -> & Hr & Hq' & _).
  result_simpl. exists r, q'. split_and!; [|done..]. apply lookup_mkdict_head.
Qed.

Lemma py_gt_int_num (v : pyval) (q : Q) (n : Z) :
  num_value v = Some q → py_gt_int v n = Ok (Qltb (inject_Z n) q).
Proof.
  intros H. apply num_value_as_float in H. unfold py_gt_int. by rewrite H.
Qed.

Lemma word_overlap_method (resume_text job_description : string) :
  _word_overlap_similarity resume_text job_description !! "method"
    = Some (VStr "word_overlap").
Proof.
  unfold _word_overlap_similarity, mkdict. cbn [list_to_map foldr fst snd].
  rewrite lookup_insert_ne by done. apply lookup_insert_eq.
Qed.

(** C10: when the LLM strategy is not usable, sklearn is available and the
    TF-IDF strategy raises, no further strategy is tried: the result is
    the neutral one, with score 50.0, the message of the exception under
    'error', and no method tag. *)
Theorem semantic_match_neutral_on_error (E : Env) (resume_text job_description : string)
    (v : pyval) (e : exc) :
  _gemini_semantic_similarity E resume_text job_description !! "score" = Some v →
  py_gt_int v 0 = Ok false →
  SKLEARN_AVAILABLE E = true →
  _tfidf_similarity E resume_text job_description = Raise e →
  _calculate_semantic_match E resume_text job_description = semantic_error_result e ∧
  semantic_error_result e !! "score" = Some (VFloat (Fin 50)) ∧
  semantic_error_result e !! "error" = Some (VStr (exc_str e)) ∧
  semantic_error_result e !! "method" = None ∧
  _calculate_semantic_match E resume_text job_description
    ≠ _word_overlap_similarity resume_text job_description.
Proof.
  intros Hv Hgt Hsk Htf.
  assert (Heq : _calculate_semantic_match E resume_text job_description
                = semantic_error_result e).
  { unfold _calculate_semantic_match, getitem. rewrite Hv. result_simpl.
    rewrite Hgt. result_simpl. by rewrite Hsk, Htf. }
  split_and!; [done | reflexivity | reflexivity | reflexivity |].
  rewrite Heq. intros H.
  assert (Hm : semantic_error_result e !! "method" = None) by reflexivity.
  rewrite H, word_overlap_method in Hm. discriminate Hm.
Qed.

Lemma semantic_match_neutral_on_error_witness :
  _calculate_semantic_match Fixtures.offline_sklearn "the" "and"
    = semantic_error_result
        (Exc "ValueError"
             "empty vocabulary; perhaps the documents only contain stop words").
Proof.
  refine (proj1 (semantic_match_neutral_on_error Fixtures.offline_sklearn "the" "and"
            (VFloat (Fin 0))
            (Exc "ValueError"
                 "empty vocabulary; perhaps the documents only contain stop words")
            _ _ _ _)); vm_compute; reflexivity.
Defined.

(** C5, as the code has it: the LLM strategy is tried first and wins when
    its score is greater than 0; its score is never negative, and a failed
    call gives 0, so a score of exactly 0 hands over to the next strategy.
    That is TF-IDF when sklearn is available and word overlap otherwise.
    A TF-IDF strategy that raises is not skipped: the result is the neutral
    one of the [except] branch. *)
Theorem semantic_match_dispatch (E : Env) (resume_text job_description : string)
    (v : pyval) :
  _gemini_semantic_similarity E resume_text job_description !! "score" = Some v →
  (∃ q usable, num_value v = Some q ∧ (0 <= q)%Q ∧
               py_gt_int v 0 = Ok usable ∧ (usable = false ↔ (q == 0)%Q)) ∧
  (∀ e, similarity_response E job_description resume_text = Raise e →
        v = VFloat (Fin 0)) ∧
  (py_gt_int v 0 = Ok true →
   _calculate_semantic_match E resume_text job_description
     = _gemini_semantic_similarity E resume_text job_description) ∧
  (py_gt_int v 0 = Ok false → SKLEARN_AVAILABLE E = true →
   ∀ d, _tfidf_similarity E resume_text job_description = Ok d →
        _calculate_semantic_match E resume_text job_description = d) ∧
  (py_gt_int v 0 = Ok false → SKLEARN_AVAILABLE E = true →
   ∀ e, _tfidf_similarity E resume_text job_description = Raise e →
        _calculate_semantic_match E resume_text job_description
          = semantic_error_result e) ∧
  (py_gt_int v 0 = Ok false → SKLEARN_AVAILABLE E = false →
   _calculate_semantic_match E resume_text job_description
     = _word_overlap_similarity resume_text job_description).
Proof.
  intros Hv.
  assert (Hrun : ∀ usable, py_gt_int v 0 = Ok usable →
            _calculate_semantic_match E resume_text job_description
            = match (if usable
                     then Ok (_gemini_semantic_similarity E resume_text job_description)
                     else if SKLEARN_AVAILABLE E
                          then _tfidf_similarity E resume_text job_description
                          else Ok (_word_overlap_similarity resume_text job_description))
              with Ok d => d | Raise e => semantic_error_result e end).
  { intros usable Hgt. unfold _calculate_semantic_match, getitem.
    rewrite Hv. result_simpl. rewrite Hgt. by result_simpl. }
  split_and!.
  - destruct (gemini_score_nonneg E resume_text job_description)
      as (v' & q & Hv' & Hq & Hq0).
    rewrite Hv in Hv'. injection Hv' as <-.
    exists q, (Qltb (inject_Z 0) q). split_and!; [done | done | by apply py_gt_int_num |].
    rewrite Qltb_ge. change (inject_Z 0) with 0%Q. split.
    + intros Hle. by apply Qle_antisym.
    + intros ->. apply Qle_refl.
  - intros e He. unfold _gemini_semantic_similarity in Hv. rewrite He in Hv.
    result_simpl. unfold gemini_failed in Hv. rewrite lookup_mkdict_head in Hv.
    by injection Hv.
  - intros Hgt. by rewrite (Hrun _ Hgt).
  - intros Hgt Hsk d Hd. by rewrite (Hrun _ Hgt), Hsk, Hd.
  - intros Hgt Hsk e He. by rewrite (Hrun _ Hgt), Hsk, He.
  - intros Hgt Hsk. by rewrite (Hrun _ Hgt), Hsk.
Qed.

Lemma semantic_match_dispatch_witness :
  _calculate_semantic_match Fixtures.offline "python and sql" "sql, docker"
    = _word_overlap_similarity "python and sql" "sql, docker" ∧
  _word_overlap_similarity "python and sql" "sql, docker" !! "score"
    = Some (VFloat (double (333 # 10))).
Proof.
  split; [|vm_compute; reflexivity].
  refine (proj2 (proj2 (proj2 (proj2 (proj2
            (semantic_match_dispatch Fixtures.offline "python and sql" "sql, docker"
               (VFloat (Fin 0)) _)))))  _ _);
    vm_compute; reflexivity.
Defined.

(** The claim C5 fails where it says that a strategy that raises is
    skipped: with the model unreachable, sklearn installed and two documents
    of stop words only, TF-IDF raises and the estimator returns the neutral
    result, which is no strategy's result, instead of the word-overlap one. *)
Lemma semantic_match_raise_not_skipped :
  _gemini_semantic_similarity Fixtures.offline_sklearn "the" "and" !! "score"
    = Some (VFloat (Fin 0)) ∧
  _tfidf_similarity Fixtures.offline_sklearn "the" "and"
    = Raise (Exc "ValueError"
                 "empty vocabulary; perhaps the documents only contain stop words") ∧
  _word_overlap_similarity "the" "and" !! "method" = Some (VStr "word_overlap") ∧
  _calculate_semantic_match Fixtures.offline_sklearn "the" "and" !! "method" = None ∧
  _calculate_semantic_match Fixtures.offline_sklearn "the" "and"
    ≠ _word_overlap_similarity "the" "and".
Proof.
  split_and!; try (vm_compute; reflexivity).
  intros H. apply (f_equal (λ d : dict, d !! "method")) in H.
  vm_compute in H. discriminate H.
Qed.
(** ** Skill matcher: presence test *)

Lemma lower_char_idemp (c : ascii) : lower_char (lower_char c) = lower_char c.
Proof.
  destruct c as [[] [] [] [] [] [] [] []]; reflexivity.
Qed.

Lemma lower_idemp (s : string) : lower (lower s) = lower s.
Proof.
  induction s as [|c s IH]; [done|]. cbn [lower]. by rewrite lower_char_idemp, IH.
Qed.

Lemma ascii_eqb_true (c d : ascii) : Ascii.eqb c d = true → c = d.
Proof. apply Ascii.eqb_eq. Qed.

(** A literal that matches at the front of a text is a prefix of it. *)
Lemma match_literal_prefix (pat : string) :
  ∀ prev t r, match_literal pat prev t = Some r → String.prefix pat t = true.
Proof.
  induction pat as [|c pat IH]; intros prev t r H.
  - by destruct t.
  - destruct t as [|d t]; [discriminate|]. cbn [match_literal] in H.
    destruct (Ascii.eqb c d) eqn:Hcd; [|discriminate].
    apply ascii_eqb_true in Hcd as ->. cbn [String.prefix].
    destruct (Ascii.ascii_dec d d); [|done]. by eapply IH.
Qed.

(** A word-boundary match of a skill is in particular an occurrence of it:
    test (c) of [_skill_mentioned] never succeeds where test (a) fails. *)
Lemma re_search_word_contains (pat : string) :
  ∀ prev t, search_from pat prev t = true → contains pat t = true.
Proof.
  intros prev t. revert prev.
  induction t as [|c t IH]; intros prev H; cbn [search_from contains] in *.
  - apply orb_true_iff in H as [H|H]; [|discriminate].
    unfold match_here in H. apply andb_true_iff in H as [_ H].
    destruct (match_literal pat prev "") as [[last rest]|] eqn:Hm; [|discriminate].
    by rewrite (match_literal_prefix _ _ _ _ Hm).
  - apply orb_true_iff in H as [H|H].
    + unfold match_here in H. apply andb_true_iff in H as [_ H].
      destruct (match_literal pat prev (String c t)) as [[last rest]|] eqn:Hm;
        [|discriminate].
      by rewrite (match_literal_prefix _ _ _ _ Hm).
    + rewrite (IH _ H). apply orb_true_r.
Qed.

Lemma mem_elem_of (s : string) (l : list string) : mem s l = true ↔ s ∈ l.
Proof.
  unfold mem. rewrite existsb_exists. split.
  - intros (x & Hin & Hx). apply String.eqb_eq in Hx as ->.
    by apply list_elem_of_In.
  - intros Hin. exists s. split; [by apply list_elem_of_In | apply String.eqb_refl].
Qed.

Lemma find_assoc (l : list (string * list string)) (k : string) (v : list string) :
  NoDup l.*1 →
  snd <$> find (λ kv, String.eqb k kv.1) l = Some v ↔ (k, v) ∈ l.
Proof.
  induction l as [|[k' v'] l IH]; intros Hnd.
  - cbn. split; [discriminate | by intros ?%elem_of_nil].
  - cbn [fmap list_fmap fst] in Hnd. apply NoDup_cons in Hnd as [Hk' Hnd].
    cbn [find fst]. destruct (String.eqb k k') eqn:Hkk.
    + apply String.eqb_eq in Hkk as ->. cbn. split.
      * intros [= ->]. apply list_elem_of_here.
      * intros [[= ->] | Hin]%elem_of_cons; [done|].
        exfalso. apply Hk'. apply list_elem_of_fmap. by exists (k', v).
    + apply String.eqb_neq in Hkk. rewrite (IH Hnd). split.
      * intros Hin. by apply list_elem_of_further.
      * intros [[= -> ->] | Hin]%elem_of_cons; [done | done].
Qed.

Lemma substitutions_NoDup : NoDup substitutions.*1.
Proof. apply (bool_decide_unpack _). vm_compute. reflexivity. Qed.

(** What [_get_skill_variations] collects: the skill itself and its
    aliases in the table. *)
Lemma get_skill_variations_spec (skill a : string) :
  a ∈ _get_skill_variations skill ↔ a = skill ∨ Spec.alias_of (lower skill) a.
Proof.
  unfold _get_skill_variations, Spec.alias_of.
  rewrite elem_of_remove_dups, !elem_of_app, list_elem_of_singleton.
  apply or_iff_compat_l. split.
  - intros [Hdirect | Hrev].
    + destruct (subst_lookup (lower skill)) as [alts|] eqn:Hl;
        [|by apply elem_of_nil in Hdirect].
      apply find_assoc in Hl; [|apply substitutions_NoDup].
      exists (lower skill), alts. split; [done|]. by left.
    + unfold reverse_lookup in Hrev. apply list_elem_of_In, in_flat_map in Hrev.
      destruct Hrev as ([main alts] & Hin & Ha). apply list_elem_of_In in Hin.
      cbn [fst snd] in Ha. destruct (mem (lower skill) alts) eqn:Hm; [|done].
      apply mem_elem_of in Hm. apply list_elem_of_In, elem_of_cons in Ha.
      exists main, alts. split; [done|]. right. by split.
  - intros (main & alts & Hin & [[-> Ha] | [Hs Ha]]).
    + left. apply find_assoc in Hin; [|apply substitutions_NoDup].
      unfold subst_lookup. by rewrite Hin.
    + right. unfold reverse_lookup. apply list_elem_of_In, in_flat_map.
      exists (main, alts). split; [by apply list_elem_of_In|].
      cbn [fst snd]. apply mem_elem_of in Hs. rewrite Hs.
      apply list_elem_of_In, elem_of_cons. done.
Qed.

Lemma existsb_variations (skill text : string) :
  existsb (λ variation, contains variation text) (_get_skill_variations (lower skill))
    = true ↔
  contains (lower skill) text = true ∨
  ∃ a, Spec.alias_of (lower skill) a ∧ contains a text = true.
Proof.
  rewrite existsb_exists. split.
  - intros (a & Hin & Ha). apply list_elem_of_In, get_skill_variations_spec in Hin.
    rewrite lower_idemp in Hin. destruct Hin as [-> | Hal]; [by left|].
    right. by exists a.
  - intros [Hc | (a & Hal & Ha)].
    + exists (lower skill). split; [|done].
      apply list_elem_of_In, get_skill_variations_spec. by left.
    + exists a. split; [|done].
      apply list_elem_of_In, get_skill_variations_spec. right.
      by rewrite lower_idemp.
Qed.

(** C6: what [_skill_mentioned] computes.  It is true exactly when (a) the
    lowercased skill occurs in the text, or (b) an alias of the skill from
    the table, read both ways, occurs in the text, or (c) the skill is a
    single word and the word-boundary pattern matches.  Test (c) is reached
    only after (a) has failed, and a word-boundary match is an occurrence:
    (c) never decides, and the guard against hits inside longer words that
    the comment "Word boundary matching for better accuracy" announces is
    not in force.  "c++" is found in "I love cpp development", and "r" is
    found in "I use React framework", where the specification requires
    false. *)
Theorem skill_mentioned_spec (skill text : string) :
  (_skill_mentioned skill text = true ↔
     contains (lower skill) text = true ∨
     (∃ a, Spec.alias_of (lower skill) a ∧ contains a text = true) ∨
     (length (str_split (lower skill)) = 1 ∧
      re_search_word (lower skill) text = true)) ∧
  (re_search_word (lower skill) text = true → contains (lower skill) text = true) ∧
  _skill_mentioned "c++" "I love cpp development" = true ∧
  _skill_mentioned "r" "I use React framework" = true.
Proof.
  split_and!; [| apply re_search_word_contains | reflexivity | reflexivity].
  unfold _skill_mentioned.
  destruct (contains (lower skill) text) eqn:Ha; [by split; [left|]|].
  destruct (existsb _ _) eqn:Hb.
  - apply existsb_variations in Hb as [Hb|Hb]; [congruence|].
    split; [by right; left | done].
  - assert (Hnb : ¬ ∃ a, Spec.alias_of (lower skill) a ∧ contains a text = true).
    { intros H. assert (Hex := proj2 (existsb_variations skill text) (or_intror H)).
      congruence. }
    destruct (length (str_split (lower skill)) =? 1)%nat eqn:Hlen.
    + apply Nat.eqb_eq in Hlen.
      destruct (re_search_word (lower skill) text) eqn:Hc.
      * split; [by right; right | done].
      * split; [done|]. intros [? | [? | [_ ?]]]; done.
    + apply Nat.eqb_neq in Hlen.
      split; [done|]. intros [? | [? | [? _]]]; done.
Qed.

(** C6 at the second example of the specification: the word-boundary
    pattern alone does not match "r" in "I use React framework", but "r"
    occurs inside "framework", the substring test comes first, and the
    function answers true. *)
Lemma skill_mentioned_r_framework :
  _skill_mentioned "r" "I use React framework" = true ∧
  contains "r" "I use React framework" = true ∧
  re_search_word "r" "I use React framework" = false.
Proof. vm_compute. by split_and!. Qed.

(** ** Similarity estimator: the word-overlap fallback *)

Lemma Qdiv_self_nat (n : nat) :
  (0 < n)%nat → (inject_Z (Z.of_nat n) / inject_Z (Z.of_nat n) == 1)%Q.
Proof.
  intros Hn. field. intros H.
  assert (Hlt : (0 < inject_Z (Z.of_nat n))%Q)
    by (change 0%Q with (inject_Z 0); rewrite <- Zlt_Qlt; lia).
  rewrite H in Hlt. by apply Qlt_irrefl in Hlt.
Qed.

(** The quotient of a length by itself is the float 1.0, and the quotient
    of 0 by a length is 0.0. *)
Lemma len_div_self (n : nat) : (0 < n)%nat → len_div n n = NFloat (Fin 1).
Proof.
  intros Hn. unfold len_div.
  by rewrite (double_proper _ _ (Qdiv_self_nat n Hn)).
Qed.


Lemma frac_nonneg (a b : nat) :
  (0 <= inject_Z (Z.of_nat a) / inject_Z (Z.of_nat b))%Q.
Proof.
  unfold Qdiv. apply Qmult_le_0_compat.
  - change 0%Q with (inject_Z 0). rewrite <- Zle_Qle. lia.
  - apply Qinv_le_0_compat. change 0%Q with (inject_Z 0). rewrite <- Zle_Qle. lia.
Qed.

Lemma word_overlap_score (resume_text job_description : string) :
  _word_overlap_similarity resume_text job_description !! "score"
  = Some (of_num (nround1 (nmul
      (if (0 <? size (words_of resume_text ∪ words_of job_description))%nat
       then len_div (size (words_of resume_text ∩ words_of job_description))
                    (size (words_of resume_text ∪ words_of job_description))
       else NInt 0) (NInt 100)))).
Proof. unfold _word_overlap_similarity. apply lookup_mkdict_head. Qed.



(** ** Skill matcher: the hard-match score *)

Lemma mapM_as_skill (l : list string) : mapM as_skill (VStr <$> l) = Ok l.
Proof.
  induction l as [|s l IH]; [done|].
  rewrite fmap_cons. cbn [mapM as_skill]. result_simpl. by rewrite IH.
Qed.

Lemma truthy_strs (l : list string) :
  truthy (strs l) = match l with [] => false | _ => true end.
Proof. by destruct l. Qed.

Lemma filter_all {A} (P : A → Prop) `{∀ x, Decision (P x)} (l : list A) :
  Forall P l → filter P l = l.
Proof.
  induction 1 as [|x l Hx Hl IH]; [done|].
  rewrite filter_cons. destruct (decide (P x)); [by rewrite IH | done].
Qed.

(** [round(min(100, x), 1)] of the program against the formula of the
    specification: the program keeps the [int] 100 where the formula has
    the float 100.0. *)
Lemma nmin_round_spec (f : pyfloat) :
  as_float (of_num (nround1 (nmin_int 100 (NFloat f))))
    = Some (fround1 (Spec.fmin (of_Z 100) f)).
Proof.
  unfold nmin_int, Spec.fmin. cbn [to_float].
  destruct (flt f (of_Z 100)); [reflexivity|]. vm_compute. reflexivity.
Qed.

(** A float that is at least [x] once [x] is rounded. *)
Lemma double_ge (x y rx : Q) :
  (0 <= x)%Q → (x <= y)%Q → double x = Fin rx → flt (double y) (Fin rx) = false.
Proof.
  intros Hx Hxy Hrx.
  assert (Hy := double_not_below_zero y ltac:(lra)).
  destruct (double y) as [ry| | |] eqn:Hry; [|done..].
  destruct (double_mono x y ry Hx Hxy Hry) as (rx' & Hrx' & _ & Hle).
  rewrite Hrx in Hrx'. injection Hrx' as <-. cbn [flt]. by apply Qltb_ge.
Qed.

Lemma fadd_100_ge (g : pyfloat) :
  flt g (of_Z 0) = false → flt (fadd (Fin 100) g) (of_Z 100) = false.
Proof.
  intros Hg. apply not_below_zero in Hg.
  destruct g as [y| | |]; [|done..]. cbn [fadd].
  apply (double_ge 100 (100 + y) (inject_Z 100)); [lra | lra |].
  vm_compute. reflexivity.
Qed.

Lemma hard_match_result (resume_text : string) (parsed_jd : dict)
    (must good tech : list string) :
  get parsed_jd "must_have_skills" (VList []) = strs must →
  get parsed_jd "good_to_have_skills" (VList []) = strs good →
  get parsed_jd "technologies" (VList []) = strs tech →
  ∃ d, _calculate_hard_match resume_text parsed_jd = Ok d ∧
       d !! "score"
       = Some (of_num (nround1 (nmin_int 100 (nadd
           (part_score (strs must)
              (length (filter (λ skill, _skill_mentioned skill (lower resume_text) = true) must))
              (length must) 100)
           (part_score (strs good)
              (length (filter (λ skill, _skill_mentioned skill (lower resume_text) = true) good))
              (length good) 50))))).
Proof.
  intros Hm Hg Ht. unfold _calculate_hard_match. rewrite Hm, Hg, Ht.
  cbn [py_iter strs]. result_simpl. rewrite !mapM_as_skill. result_simpl.
  eexists. split; [reflexivity|]. apply lookup_mkdict_head.
Qed.

(** C2: for a resume and requirements whose skill fields are lists of
    strings (an absent field counts as the empty list), the hard-match
    score is round(min(100, must_have_fraction x 100 + good_to_have_fraction
    x 50), 1) computed in float arithmetic, each fraction being matched /
    total and 0 for an empty list; with a non-empty must-have list all of
    whose skills are present the score is 100, and with no must-have skill
    and a non-empty good-to-have list all of whose skills are present it is
    50.0. *)
Theorem hard_match_score_formula (resume_text : string) (parsed_jd : dict)
    (must good tech : list string) :
  get parsed_jd "must_have_skills" (VList []) = strs must →
  get parsed_jd "good_to_have_skills" (VList []) = strs good →
  get parsed_jd "technologies" (VList []) = strs tech →
  ∃ d, _calculate_hard_match resume_text parsed_jd = Ok d ∧
       (d !! "score") ≫= as_float
       = Some (Spec.hard_score
           (length (filter (λ skill, _skill_mentioned skill (lower resume_text) = true) must))
           (length must)
           (length (filter (λ skill, _skill_mentioned skill (lower resume_text) = true) good))
           (length good)) ∧
       (must ≠ [] →
        Forall (λ skill, _skill_mentioned skill (lower resume_text) = true) must →
        d !! "score" = Some (VInt 100)) ∧
       (must = [] → good ≠ [] →
        Forall (λ skill, _skill_mentioned skill (lower resume_text) = true) good →
        d !! "score" = Some (VFloat (Fin 50))).
Proof.
  intros Hm Hg Ht.
  destruct (hard_match_result resume_text parsed_jd must good tech Hm Hg Ht)
    as (d & Hd & Hscore).
  exists d. split; [done|]. rewrite Hscore. clear Hd Hscore Hm Hg Ht.
  set (mf := length (filter _ must)). set (gf := length (filter _ good)).
  unfold part_score. rewrite !truthy_strs. split_and!.
  - cbn [mbind option_bind]. unfold Spec.hard_score, Spec.fraction.
    destruct must as [|m must], good as [|g good]; cbn [length Nat.eqb].
    + vm_compute. reflexivity.
    + unfold len_div. cbn [nadd nmul to_float]. apply nmin_round_spec.
    + unfold len_div. cbn [nadd nmul to_float]. apply nmin_round_spec.
    + unfold len_div. cbn [nadd nmul to_float]. apply nmin_round_spec.
  - intros Hne Hall. subst mf. rewrite (filter_all _ _ Hall).
    destruct must as [|m must]; [done|].
    assert (Hpos : (0 < length (m :: must))%nat) by (cbn; lia).
    rewrite (len_div_self _ Hpos).
    assert (H100 : nmul (NFloat (Fin 1)) (NInt 100) = NFloat (Fin 100))
      by (vm_compute; reflexivity).
    rewrite H100.
    assert (Hge : ∀ g, flt g (of_Z 0) = false →
              of_num (nround1 (nmin_int 100 (NFloat (fadd (Fin 100) g)))) = VInt 100).
    { intros g Hg0. unfold nmin_int. cbn [to_float].
      by rewrite (fadd_100_ge g Hg0). }
    destruct good as [|g good].
    + cbn [nadd to_float]. by rewrite Hge.
    + unfold len_div. cbn [nadd nmul to_float]. rewrite Hge; [done|].
      apply fmul_not_below_zero; [|done].
      apply double_not_below_zero, frac_nonneg.
  - intros -> Hne Hall. subst gf. rewrite (filter_all _ _ Hall).
    destruct good as [|g good]; [done|].
    assert (Hpos : (0 < length (g :: good))%nat) by (cbn; lia).
    rewrite (len_div_self _ Hpos). vm_compute. reflexivity.
Qed.

Lemma hard_match_score_formula_witness :
  ∃ d, _calculate_hard_match "Senior Python developer. Daily SQL."
         Fixtures.requirements = Ok d ∧
       d !! "score" = Some (VInt 100).
Proof.
  destruct (hard_match_score_formula "Senior Python developer. Daily SQL."
              Fixtures.requirements ["python"; "sql"] ["docker"] []
              eq_refl eq_refl eq_refl) as (d & Hd & _ & H100 & _).
  exists d. split; [exact Hd|].
  apply H100; [discriminate|].
  repeat constructor.
Defined.

Example hard_match_good_to_have_only :
  _calculate_hard_match "Python developer"
      (mkdict [("must_have_skills", VList []); ("good_to_have_skills", strs ["python"])])
    ≫= (λ d, getitem d "score") = Ok (VFloat (Fin 50)).
Proof. vm_compute. reflexivity. Qed.

(** The fractions are rounded as floats are: with 2 of 3 must-have and 1
    of 24 good-to-have skills the sum is 68.74999999999999 and the score
    68.7, where the exact sum would be 68.75. *)
Example hard_score_below_the_tie :
  Spec.hard_score 2 3 1 24 = double (687 # 10).
Proof. vm_compute. reflexivity. Qed.

(** The same for the word overlap: 23 common words of 80 give
    28.749999999999996, hence 28.7. *)
Example jaccard_score_below_the_tie :
  Spec.jaccard_score 23 80 = double (287 # 10).
Proof. vm_compute. reflexivity. Qed.
(** ** Job requirement extractor: the merge of the two analyses *)

Lemma existsb_key_eq_str (s : string) (acc : list string) :
  existsb (key_eq (VStr s)) (VStr <$> acc) = bool_decide (s ∈ acc).
Proof.
  induction acc as [|a acc IH]; [done|].
  rewrite fmap_cons. cbn [existsb key_eq]. rewrite IH.
  destruct (String.eqb s a) eqn:Hsa.
  - apply String.eqb_eq in Hsa as ->. symmetry. apply bool_decide_eq_true.
    apply list_elem_of_here.
  - apply String.eqb_neq in Hsa. cbn [orb]. apply bool_decide_ext.
    rewrite elem_of_cons. split; [by right | by intros [? | ?]].
Qed.

Lemma set_add_str (acc : list string) (s : string) :
  set_add (VStr <$> acc) (VStr s) = VStr <$> Spec.add_str acc s.
Proof.
  unfold set_add, Spec.add_str. rewrite existsb_key_eq_str.
  destruct (decide (s ∈ acc)) as [Hin|Hin].
  - by rewrite bool_decide_eq_true_2.
  - rewrite bool_decide_eq_false_2 by done. by rewrite fmap_app.
Qed.

Lemma foldl_set_add_str (l acc : list string) :
  foldl set_add (VStr <$> acc) (VStr <$> l) = VStr <$> foldl Spec.add_str acc l.
Proof.
  revert acc. induction l as [|s l IH]; intros acc; [done|].
  rewrite fmap_cons. cbn [foldl]. by rewrite set_add_str, IH.
Qed.

Lemma elem_of_foldl_add_str (l acc : list string) (s : string) :
  s ∈ foldl Spec.add_str acc l ↔ s ∈ acc ∨ s ∈ l.
Proof.
  revert acc. induction l as [|x l IH]; intros acc; cbn [foldl].
  - rewrite elem_of_nil. tauto.
  - rewrite IH, elem_of_cons. unfold Spec.add_str.
    destruct (decide (x ∈ acc)) as [Hin|Hin].
    + split; [tauto|]. intros [? | [-> | ?]]; tauto.
    + rewrite elem_of_app, list_elem_of_singleton. tauto.
Qed.

Lemma NoDup_foldl_add_str (l acc : list string) :
  NoDup acc → NoDup (foldl Spec.add_str acc l).
Proof.
  revert acc. induction l as [|x l IH]; intros acc Hnd; [done|].
  cbn [foldl]. apply IH. unfold Spec.add_str.
  destruct (decide (x ∈ acc)) as [Hin|Hin]; [done|].
  apply NoDup_app. split_and!; [done | | apply NoDup_singleton].
  intros y Hy ->%list_elem_of_singleton. done.
Qed.

Lemma py_set_strs (l : list string) :
  py_set (strs l) = Ok (VStr <$> foldl Spec.add_str [] l).
Proof.
  unfold py_set, strs. cbn [py_iter]. result_simpl.
  assert (Hh : mapM hashable (VStr <$> l) = Ok (VStr <$> l)).
  { induction l as [|s l IH]; [done|].
    rewrite fmap_cons. cbn [mapM hashable]. result_simpl. by rewrite IH. }
  rewrite Hh. result_simpl. f_equal. apply (foldl_set_add_str l []).
Qed.

Lemma union_strs_spec (a b : list string) :
  NoDup (Spec.union_strs a b) ∧ ∀ s, s ∈ Spec.union_strs a b ↔ s ∈ a ∨ s ∈ b.
Proof.
  unfold Spec.union_strs. split.
  - apply NoDup_foldl_add_str, NoDup_foldl_add_str, NoDup_nil_2.
  - intros s. rewrite !elem_of_foldl_add_str, elem_of_nil. tauto.
Qed.

Lemma lookup_cond_insert_ne (c : bool) (d : dict) (k k' : string) (v : pyval) :
  k ≠ k' → (if c then <[k := v]> d else d) !! k' = d !! k'.
Proof. intros H. destruct c; [|done]. by rewrite lookup_insert_ne. Qed.

Lemma lookup_cond_insert_eq (c : bool) (d : dict) (k : string) (v : pyval) :
  (if c then <[k := v]> d else d) !! k = if c then Some v else d !! k.
Proof. destruct c; [|done]. apply lookup_insert_eq. Qed.

(** The strings of a list of values. *)
Lemma omap_unstr_strs (l : list string) :
  omap (λ v, match v with VStr s => Some s | _ => None end) (VStr <$> l) = l.
Proof. induction l as [|s l IH]; [done|]. rewrite fmap_cons. cbn. by rewrite IH. Qed.

(** A rearrangement of a list of strings is a list of strings. *)
Lemma Permutation_strs (vs : list pyval) (l : list string) :
  vs ≡ₚ VStr <$> l → ∃ l', vs = VStr <$> l' ∧ l' ≡ₚ l.
Proof.
  intros Hp.
  exists (omap (λ v, match v with VStr s => Some s | _ => None end) vs). split.
  - assert (Hall : Forall (λ v, ∃ s, v = VStr s) vs).
    { rewrite Hp. apply Forall_fmap, Forall_true. intros s. by exists s. }
    clear Hp. induction Hall as [|v vs [s ->] _ IH]; [done|].
    cbn. by rewrite <- IH.
  - rewrite Hp. by rewrite omap_unstr_strs.
Qed.

(** C8: for an LLM result and a rule-based result whose technologies are
    lists of strings (or absent), the merge returns the LLM result with:
    the must-have and the good-to-have list replaced by the rule-based one
    when the LLM one is falsy (absent, null or empty) and kept otherwise;
    technologies the union, without repetition, of both lists, in the order
    the set gives them; experience-required replaced by the rule-based
    value when the LLM one is falsy or "Not specified" and kept otherwise;
    every other field as the LLM gave it. *)
Theorem merge_analyses_policy (E : Env) (ai_analysis rule_analysis : dict)
    (ai_techs rule_techs : list string) :
  get ai_analysis "technologies" (VList []) = strs ai_techs →
  get rule_analysis "technologies" (VList []) = strs rule_techs →
  ∃ merged techs, _merge_analyses E ai_analysis rule_analysis = Ok merged ∧
    merged !! "must_have_skills"
      = (if truthy (get ai_analysis "must_have_skills" VNone)
         then ai_analysis !! "must_have_skills"
         else Some (get rule_analysis "must_have_skills" (VList []))) ∧
    merged !! "good_to_have_skills"
      = (if truthy (get ai_analysis "good_to_have_skills" VNone)
         then ai_analysis !! "good_to_have_skills"
         else Some (get rule_analysis "good_to_have_skills" (VList []))) ∧
    merged !! "technologies" = Some (strs techs) ∧
    techs ≡ₚ Spec.union_strs ai_techs rule_techs ∧
    NoDup techs ∧
    (∀ s, s ∈ techs ↔ s ∈ ai_techs ∨ s ∈ rule_techs) ∧
    merged !! "experience_required"
      = (if py_eq_str (get ai_analysis "experience_required" VNone) "Not specified"
            || negb (truthy (get ai_analysis "experience_required" VNone))
         then Some (get rule_analysis "experience_required" (VStr "Not specified"))
         else ai_analysis !! "experience_required") ∧
    (∀ k, k ≠ "must_have_skills" → k ≠ "good_to_have_skills" →
          k ≠ "technologies" → k ≠ "experience_required" →
          merged !! k = ai_analysis !! k) ∧
    (∀ k, ai_analysis !! k = None ∨ ai_analysis !! k = Some (VList []) ∨
          ai_analysis !! k = Some (VStr "") →
          truthy (get ai_analysis k VNone) = false).
Proof.
  intros Ha Hr. unfold _merge_analyses.
  set (m1 := if negb (truthy (get ai_analysis "must_have_skills" VNone))
             then _ else ai_analysis).
  assert (H1 : ∀ k, k ≠ "must_have_skills" → m1 !! k = ai_analysis !! k)
    by (intros k Hk; by apply lookup_cond_insert_ne).
  assert (H1' : m1 !! "must_have_skills"
                = if truthy (get ai_analysis "must_have_skills" VNone)
                  then ai_analysis !! "must_have_skills"
                  else Some (get rule_analysis "must_have_skills" (VList []))).
  { subst m1. rewrite lookup_cond_insert_eq.
    by destruct (truthy (get ai_analysis "must_have_skills" VNone)). }
  assert (Hg : get m1 "good_to_have_skills" VNone
               = get ai_analysis "good_to_have_skills" VNone)
    by (unfold get; by rewrite H1).
  rewrite Hg. clearbody m1.
  set (m2 := if negb (truthy (get ai_analysis "good_to_have_skills" VNone))
             then _ else m1).
  assert (H2 : ∀ k, k ≠ "good_to_have_skills" → m2 !! k = m1 !! k)
    by (intros k Hk; by apply lookup_cond_insert_ne).
  assert (H2' : m2 !! "good_to_have_skills"
                = if truthy (get ai_analysis "good_to_have_skills" VNone)
                  then ai_analysis !! "good_to_have_skills"
                  else Some (get rule_analysis "good_to_have_skills" (VList []))).
  { subst m2. rewrite lookup_cond_insert_eq, (H1 "good_to_have_skills") by done.
    by destruct (truthy (get ai_analysis "good_to_have_skills" VNone)). }
  clearbody m2.
  assert (Ht : get m2 "technologies" (VList []) = strs ai_techs).
  { rewrite <- Ha. unfold get. by rewrite H2, H1. }
  rewrite Ht, py_set_strs. result_simpl. rewrite Hr, py_set_strs. result_simpl.
  assert (Hu : set_union (VStr <$> foldl Spec.add_str [] ai_techs)
                         (VStr <$> foldl Spec.add_str [] rule_techs)
               = VStr <$> Spec.union_strs ai_techs rule_techs).
  { unfold set_union, Spec.union_strs. by rewrite foldl_set_add_str. }
  rewrite Hu.
  destruct (Permutation_strs _ _ (set_order_perm E
              (VStr <$> Spec.union_strs ai_techs rule_techs)))
    as (techs & Htechs & Hperm).
  rewrite Htechs. change (VList (VStr <$> techs)) with (strs techs).
  assert (He : get (<["technologies" := strs techs]> m2)
                   "experience_required" VNone
               = get ai_analysis "experience_required" VNone).
  { unfold get. by rewrite lookup_insert_ne, H2, H1. }
  rewrite He.
  eexists. exists techs. split; [reflexivity|].
  destruct (union_strs_spec ai_techs rule_techs) as [Hnd Hin].
  split_and!; try done.
  - by rewrite lookup_cond_insert_ne, lookup_insert_ne, H2.
  - by rewrite lookup_cond_insert_ne, lookup_insert_ne.
  - by rewrite lookup_cond_insert_ne, lookup_insert_eq.
  - by rewrite Hperm.
  - intros s. by rewrite Hperm.
  - rewrite lookup_cond_insert_eq. destruct (_ || _); [done|].
    by rewrite lookup_insert_ne, H2, H1.
  - intros k Hk1 Hk2 Hk3 Hk4.
    by rewrite lookup_cond_insert_ne, lookup_insert_ne, H2, H1.
  - intros k [Hk | [Hk | Hk]]; unfold get; by rewrite Hk.
Qed.

Lemma merge_analyses_policy_witness :
  ∃ merged techs,
    _merge_analyses Fixtures.offline Fixtures.llm_analysis Fixtures.rule_analysis
      = Ok merged ∧
    merged !! "must_have_skills" = Some (strs ["python"]) ∧
    merged !! "good_to_have_skills" = Some (strs ["docker"]) ∧
    merged !! "technologies" = Some (strs techs) ∧
    techs ≡ₚ ["python"; "sql"; "docker"] ∧
    merged !! "experience_required" = Some (VStr "3") ∧
    merged !! "role_title" = Some (VStr "Data Engineer").
Proof.
  destruct (merge_analyses_policy Fixtures.offline
              Fixtures.llm_analysis Fixtures.rule_analysis
              ["python"; "sql"] ["sql"; "docker"; "sql"] eq_refl eq_refl)
    as (merged & techs & Hm & Hmust & Hgood & Htech & Hperm & _ & _ & Hexp
        & Hother & _).
  exists merged, techs. split; [exact Hm|].
  rewrite Hmust, Hgood, Hexp, (Hother "role_title") by discriminate.
  split_and!; [vm_compute; reflexivity.. | exact Htech | exact Hperm
              | vm_compute; reflexivity | vm_compute; reflexivity].
Defined.

(** The merge needs technologies it can turn into sets: a null field makes
    it raise (and [parse_job_description] then falls back to the rules). *)
Example merge_analyses_null_technologies :
  _merge_analyses Fixtures.offline (mkdict [("technologies", VNone)])
      Fixtures.rule_analysis
    = Raise (TypeError "'NoneType' object is not iterable").
Proof. vm_compute. reflexivity. Qed.

(** With a set that gives its elements in the reverse of the order they
    were added, the merged technologies are docker, sql, python. *)
Example merge_analyses_reverse_order :
  (λ merged, merged !! "technologies")
    <$> _merge_analyses Fixtures.offline Fixtures.llm_analysis Fixtures.rule_analysis
    = Ok (Some (strs ["docker"; "sql"; "python"])).
Proof. vm_compute. reflexivity. Qed.

(** ** The aggregator's failure policy *)

Lemma dom_mkdict (l : list (string * pyval)) : dom (mkdict l) = list_to_set l.*1.
Proof. apply dom_list_to_map_L. Qed.

Lemma hard_match_has_score (resume_text : string) (parsed_jd d : dict) :
  _calculate_hard_match resume_text parsed_jd = Ok d → is_Some (d !! "score").
Proof.
  unfold _calculate_hard_match.
  destruct (py_iter (get parsed_jd "must_have_skills" _)) as [must_l|];
    result_simpl; [|done].
  destruct (mapM as_skill must_l) as [must|]; result_simpl; [|done].
  destruct (py_iter (get parsed_jd "good_to_have_skills" _)) as [good_l|];
    result_simpl; [|done].
  destruct (mapM as_skill good_l) as [good|]; result_simpl; [|done].
  destruct (py_iter (get parsed_jd "technologies" _)) as [tech_l|];
    result_simpl; [|done].
  destruct (mapM as_skill tech_l) as [tech|]; result_simpl; [|done].
  intros [= <-]. rewrite ?lookup_mkdict_head, ?lookup_insert_eq. by eexists.
Qed.

Lemma tfidf_has_score (E : Env) (resume_text job_description : string) (d : dict) :
  _tfidf_similarity E resume_text job_description = Ok d → is_Some (d !! "score").
Proof.
  unfold _tfidf_similarity.
  destruct (tfidf_cosine E _ _) as [similarity|]; result_simpl; [|done].
  destruct (clamp 0 100 _) as [score|]; result_simpl; [|done].
  destruct (py_round1 score) as [rounded|]; result_simpl; [|done].
  intros [= <-]. rewrite ?lookup_mkdict_head, ?lookup_insert_eq. by eexists.
Qed.

Lemma semantic_match_has_score (E : Env) (resume_text job_description : string) :
  is_Some (_calculate_semantic_match E resume_text job_description !! "score").
Proof.
  destruct (gemini_score_nonneg E resume_text job_description)
    as (v & q & Hv & Hq & _).
  unfold _calculate_semantic_match, getitem. rewrite Hv. result_simpl.
  rewrite (py_gt_int_num _ _ _ Hq). result_simpl.
  destruct (Qltb _ _); [by rewrite Hv|].
  destruct (SKLEARN_AVAILABLE E).
  - destruct (_tfidf_similarity E _ _) as [d|e] eqn:Ht.
    + by eapply tfidf_has_score.
    + unfold semantic_error_result. rewrite lookup_mkdict_head. by eexists.
  - unfold _word_overlap_similarity. rewrite lookup_mkdict_head. by eexists.
Qed.

Lemma ai_analysis_has_score (E : Env) (resume_text job_description : string)
    (parsed_jd : dict) :
  is_Some (_ai_analysis E resume_text job_description parsed_jd !! "score").
Proof.
  destruct (ai_analysis_cases E resume_text job_description parsed_jd)
    as [[e ->] | (result & score & confidence & _ & _ & ->)].
  - unfold default_analysis. rewrite lookup_mkdict_head. by eexists.
  - rewrite lookup_insert_ne, lookup_insert_eq by done. by eexists.
Qed.

(** The [try] block raises exactly when the hard match, the weighted sum
    or the suggestions raise; the semantic match and the review never do. *)
Lemma analyze_resume_try_raises (E : Env) (resume_text job_description : string)
    (parsed_jd : dict) (e : exc) :
  analyze_resume_try E resume_text job_description parsed_jd = Raise e ↔
  _calculate_hard_match resume_text parsed_jd = Raise e ∨
  ∃ hard, _calculate_hard_match resume_text parsed_jd = Ok hard ∧
    (_calculate_final_score hard
       (_calculate_semantic_match E resume_text job_description)
       (_ai_analysis E resume_text job_description parsed_jd) = Raise e ∨
     ∃ final, _calculate_final_score hard
                (_calculate_semantic_match E resume_text job_description)
                (_ai_analysis E resume_text job_description parsed_jd) = Ok final ∧
       _generate_suggestions resume_text parsed_jd
         (_ai_analysis E resume_text job_description parsed_jd) = Raise e).
Proof.
  unfold analyze_resume_try. cbv zeta.
  destruct (_calculate_hard_match resume_text parsed_jd) as [hard|e0] eqn:Hh;
    result_simpl.
  2: { split; [by left | by intros [? | (? & [=] & _)]]. }
  destruct (hard_match_has_score _ _ _ Hh) as [hs Hhs].
  destruct (semantic_match_has_score E resume_text job_description) as [ss Hss].
  destruct (ai_analysis_has_score E resume_text job_description parsed_jd)
    as [as' Has].
  destruct (_calculate_final_score hard _ _) as [final|e1] eqn:Hf; result_simpl.
  2: { split.
       - intros [= ->]. right. exists hard. split; [done | by left].
       - intros [[=] | (h & [= <-] & [H | (f & H & _)])]; congruence. }
  destruct (_generate_suggestions _ _ _) as [sugg|e2] eqn:Hsg; result_simpl.
  2: { split.
       - intros [= ->]. right. exists hard. split; [done|]. right. by exists final.
       - intros [[=] | (h & [= <-] & [H | (f & _ & H)])]; congruence. }
  unfold getitem. rewrite Hhs, Hss, Has. result_simpl.
  split; [done|].
  intros [[=] | (h & [= <-] & [H | (f & _ & H)])]; congruence.
Qed.

(** C1: [analyze_resume] always returns a complete result; when a step
    of its [try] block raises, the result has relevance score 0, the three
    component scores 0, verdict "Low", confidence 0.1 and one suggestion
    that describes the error. *)
Theorem analyze_resume_never_raises (E : Env) (resume_text job_description : string)
    (parsed_jd : dict) :
  dom (analyze_resume E resume_text job_description parsed_jd)
    = Spec.analysis_result_keys ∧
  ∀ e,
    (_calculate_hard_match resume_text parsed_jd = Raise e ∨
     ∃ hard, _calculate_hard_match resume_text parsed_jd = Ok hard ∧
       (_calculate_final_score hard
          (_calculate_semantic_match E resume_text job_description)
          (_ai_analysis E resume_text job_description parsed_jd) = Raise e ∨
        ∃ final, _calculate_final_score hard
                   (_calculate_semantic_match E resume_text job_description)
                   (_ai_analysis E resume_text job_description parsed_jd) = Ok final ∧
          _generate_suggestions resume_text parsed_jd
            (_ai_analysis E resume_text job_description parsed_jd) = Raise e)) →
       analyze_resume E resume_text job_description parsed_jd = failure_result e ∧
       failure_result e !! "relevance_score" = Some (VInt 0) ∧
       failure_result e !! "hard_match_score" = Some (VInt 0) ∧
       failure_result e !! "semantic_score" = Some (VInt 0) ∧
       failure_result e !! "ai_score" = Some (VInt 0) ∧
       failure_result e !! "verdict" = Some (VStr "Low") ∧
       failure_result e !! "confidence" = Some (VFloat (Fin (1 # 10))) ∧
       failure_result e !! "suggestions"
         = Some (VList [VStr ("Error during analysis: " ++ exc_str e)]).
Proof.
  split.
  - assert (Hfail : ∀ e, dom (failure_result e) = Spec.analysis_result_keys).
    { intros e. unfold failure_result. rewrite dom_mkdict. reflexivity. }
    unfold analyze_resume, analyze_resume_try.
    destruct (_calculate_hard_match _ _) as [hard|]; result_simpl; [|apply Hfail].
    destruct (_calculate_final_score _ _ _); result_simpl; [|apply Hfail].
    destruct (_generate_suggestions _ _ _); result_simpl; [|apply Hfail].
    destruct (getitem hard "score"); result_simpl; [|apply Hfail].
    destruct (getitem (_calculate_semantic_match _ _ _) "score");
      result_simpl; [|apply Hfail].
    destruct (getitem (_ai_analysis _ _ _ _) "score"); result_simpl; [|apply Hfail].
    rewrite dom_mkdict. reflexivity.
  - intros e Htry%analyze_resume_try_raises. unfold analyze_resume. rewrite Htry.
    split; [reflexivity|]. vm_compute. split_and!; reflexivity.
Qed.

Lemma analyze_resume_never_raises_witness :
  _calculate_hard_match "I know Python" Fixtures.ill_typed_requirements
    = Raise (AttributeError (VInt 1) "lower") ∧
  analyze_resume Fixtures.offline "I know Python" "We need python"
      Fixtures.ill_typed_requirements
    = failure_result (AttributeError (VInt 1) "lower").
Proof.
  split; [vm_compute; reflexivity|].
  refine (proj1 (proj2 (analyze_resume_never_raises Fixtures.offline
            "I know Python" "We need python" Fixtures.ill_typed_requirements)
            (AttributeError (VInt 1) "lower") (or_introl _))).
  vm_compute; reflexivity.
Defined.


(** A model that lists a number among the missing skills makes the
    suggestions raise inside [str.join]; the caller still gets a result. *)
Example analyze_resume_bad_missing_skills :
  analyze_resume Fixtures.out_of_range "Python and SQL" "python, sql, docker"
      Fixtures.requirements
    = failure_result (TypeError "sequence item 1: expected str instance, int found").
Proof. vm_compute. reflexivity. Qed.

(** With the model unreachable: hard match 100, word overlap 2 / 7, the
    default review 50, hence round(100 x 0.4 + 28.6 x 0.4 + 50 x 0.2, 1)
    = 61.4, a "Medium". *)
Example analyze_resume_offline :
  analyze_resume Fixtures.offline "I know Python and SQL"
      "We need python, sql and docker" Fixtures.requirements !! "hard_match_score"
    = Some (VInt 100) ∧
  analyze_resume Fixtures.offline "I know Python and SQL"
      "We need python, sql and docker" Fixtures.requirements !! "semantic_score"
    = Some (VFloat (double (286 # 10))) ∧
  analyze_resume Fixtures.offline "I know Python and SQL"
      "We need python, sql and docker" Fixtures.requirements !! "ai_score"
    = Some (VFloat (Fin 50)) ∧
  analyze_resume Fixtures.offline "I know Python and SQL"
      "We need python, sql and docker" Fixtures.requirements !! "relevance_score"
    = Some (VFloat (double (614 # 10))) ∧
  analyze_resume Fixtures.offline "I know Python and SQL"
      "We need python, sql and docker" Fixtures.requirements !! "verdict"
    = Some (VStr "Medium").
Proof. vm_compute. split_and!; reflexivity. Qed.
(** ** Ranges of the scores *)

(** [round(min(100, y), 1)] of a number that is not below zero, also of
    inf and nan, is in [0, 100]. *)
Lemma nround1_range (y : pynum) :
  flt (to_float y) (of_Z 0) = false →
  ∃ q', num_value (of_num (nround1 (nmin_int 100 y))) = Some q' ∧
        (0 <= q')%Q ∧ (q' <= 100)%Q.
Proof.
  intros Hy. unfold nmin_int.
  destruct (flt (to_float y) (of_Z 100)) eqn:Hlt; [|by exists 100%Q].
  apply not_below_zero in Hy.
  destruct y as [z|f]; cbn [to_float of_Z] in *.
  - cbn [flt] in Hlt. apply Qltb_lt, Qlt_le_weak in Hlt.
    exists (inject_Z z). by split_and!.
  - destruct f as [q| | |]; cbn [flt] in Hlt; [|done..].
    apply Qltb_lt, Qlt_le_weak in Hlt.
    destruct (round1_bounded q 100 ltac:(lia) Hy Hlt) as (r & Hr & Hr0 & Hr1).
    exists r. cbn [nround1 fround1 of_num]. rewrite Hr. by split_and!.
Qed.

Lemma part_score_nonneg (skills : pyval) (found total : nat) (w : Z) :
  (0 <= w)%Z →
  flt (to_float (part_score skills found total w)) (of_Z 0) = false.
Proof.
  intros Hw. unfold part_score. destruct (truthy skills); [|done].
  unfold len_div. cbn [nmul to_float]. apply fmul_not_below_zero.
  - apply double_not_below_zero, frac_nonneg.
  - apply not_below_zero. cbn [of_Z]. change 0%Q with (inject_Z 0).
    by rewrite <- Zle_Qle.
Qed.

Lemma nadd_nonneg (x y : pynum) :
  flt (to_float x) (of_Z 0) = false → flt (to_float y) (of_Z 0) = false →
  flt (to_float (nadd x y)) (of_Z 0) = false.
Proof.
  intros Hx Hy. destruct x as [a|f], y as [b|g]; cbn [nadd to_float];
    try by apply fadd_not_below_zero.
  apply not_below_zero in Hx, Hy. apply not_below_zero.
  cbn [to_float of_Z] in *. rewrite inject_Z_plus.
  change (inject_Z 0) with 0%Q in *. lra.
Qed.

Lemma hard_match_score_range (resume_text : string) (parsed_jd d : dict) :
  _calculate_hard_match resume_text parsed_jd = Ok d →
  ∃ q, (d !! "score") ≫= num_value = Some q ∧ (0 <= q)%Q ∧ (q <= 100)%Q.
Proof.
  unfold _calculate_hard_match.
  destruct (py_iter (get parsed_jd "must_have_skills" _)) as [must_l|];
    result_simpl; [|done].
  destruct (mapM as_skill must_l) as [must|]; result_simpl; [|done].
  destruct (py_iter (get parsed_jd "good_to_have_skills" _)) as [good_l|];
    result_simpl; [|done].
  destruct (mapM as_skill good_l) as [good|]; result_simpl; [|done].
  destruct (py_iter (get parsed_jd "technologies" _)) as [tech_l|];
    result_simpl; [|done].
  destruct (mapM as_skill tech_l) as [tech|]; result_simpl; [|done].
  intros [= <-]. rewrite ?lookup_mkdict_head, ?lookup_insert_eq.
  cbn [mbind option_bind].
  apply nround1_range, nadd_nonneg; apply part_score_nonneg; lia.
Qed.

Lemma frac_le (a b : nat) :
  (a <= b)%nat → (inject_Z (Z.of_nat a) / inject_Z (Z.of_nat b) <= 1)%Q.
Proof.
  intros Hab. destruct b as [|b].
  - assert (a = 0)%nat as -> by lia. unfold Qdiv. by rewrite !Qmult_0_l.
  - assert (Hb : (0 < inject_Z (Z.of_nat (S b)))%Q)
      by (change 0%Q with (inject_Z 0); rewrite <- Zlt_Qlt; lia).
    apply Qle_shift_div_r; [done|]. rewrite Qmult_1_l, <- Zle_Qle. lia.
Qed.

Lemma word_overlap_score_range (resume_text job_description : string) :
  ∃ q, (_word_overlap_similarity resume_text job_description !! "score")
         ≫= num_value = Some q ∧ (0 <= q)%Q ∧ (q <= 100)%Q.
Proof.
  rewrite word_overlap_score. cbn [mbind option_bind].
  set (i := size (_ ∩ _)). set (u := size (_ ∪ _)).
  assert (Hiu : (i <= u)%nat).
  { subst i u. apply subseteq_size. intros x. rewrite elem_of_intersection,
      elem_of_union. tauto. }
  destruct (0 <? u)%nat; [|by exists 0%Q].
  unfold len_div. cbn [nmul to_float of_Z].
  destruct (double_bounded _ 1 ltac:(lia) (frac_nonneg i u) (frac_le i u Hiu))
    as (t & -> & Ht0 & Ht1). cbn [fmul of_Z].
  change (inject_Z 1) with 1%Q in Ht1. change (inject_Z 100) with 100%Q.
  destruct (double_bounded (t * 100) 100 ltac:(lia)) as (p & Hp & Hp0 & Hp1);
    [lra | change (inject_Z 100) with 100%Q; lra |].
  rewrite Hp. cbn [nround1 fround1 of_num].
  destruct (round1_bounded p 100 ltac:(lia) Hp0 Hp1) as (r & -> & Hr0 & Hr1).
  exists r. by split_and!.
Qed.

Lemma gemini_score_range (E : Env) (resume_text job_description : string) :
  ∃ v q, _gemini_semantic_similarity E resume_text job_description !! "score" = Some v ∧
         num_value v = Some q ∧ (0 <= q)%Q ∧ (q <= 100)%Q.
Proof.
  assert (Hfail : ∀ e, ∃ v q, gemini_failed e !! "score" = Some v ∧
                    num_value v = Some q ∧ (0 <= q)%Q ∧ (q <= 100)%Q).
  { intros e. exists (VFloat (Fin 0)), 0%Q. split_and!; [|done..].
    apply lookup_mkdict_head. }
  unfold _gemini_semantic_similarity.
  destruct (similarity_response E _ _) as [t|]; result_simpl; [|apply Hfail].
  destruct (response_text t _) as [text|]; result_simpl; [|apply Hfail].
  destruct (json_loads E text) as [parsed|]; result_simpl; [|apply Hfail].
  destruct (as_dict parsed) as [result|]; result_simpl; [|apply Hfail].
  destruct (clamp 0 100 _) as [score|] eqn:Hs; result_simpl; [|apply Hfail].
  destruct (clamp_range 0 100 _ _ ltac:(lia) Hs) as (s & Hsv & Hs0 & Hs1).
  destruct (py_round1_bounded _ _ 100 ltac:(lia) Hsv Hs0 Hs1)
    as (r & q' & -> & Hr & Hq0 & Hq1).
  result_simpl. exists r, q'. split_and!; [|done..]. apply lookup_mkdict_head.
Qed.

Lemma tfidf_score_range (E : Env) (resume_text job_description : string) (d : dict) :
  _tfidf_similarity E resume_text job_description = Ok d →
  ∃ q, (d !! "score") ≫= num_value = Some q ∧ (0 <= q)%Q ∧ (q <= 100)%Q.
Proof.
  unfold _tfidf_similarity.
  destruct (tfidf_cosine E _ _) as [similarity|]; result_simpl; [|done].
  destruct (clamp 0 100 _) as [score|] eqn:Hs; result_simpl; [|done].
  destruct (clamp_range 0 100 _ _ ltac:(lia) Hs) as (s & Hsv & Hs0 & Hs1).
  destruct (py_round1_bounded _ _ 100 ltac:(lia) Hsv Hs0 Hs1)
    as (r & q' & -> & Hr & Hq0 & Hq1).
  result_simpl. intros [= <-]. rewrite ?lookup_mkdict_head, ?lookup_insert_eq.
  exists q'. by split_and!.
Qed.

Lemma semantic_score_range (E : Env) (resume_text job_description : string) :
  ∃ q, (_calculate_semantic_match E resume_text job_description !! "score")
         ≫= num_value = Some q ∧ (0 <= q)%Q ∧ (q <= 100)%Q.
Proof.
  destruct (gemini_score_range E resume_text job_description)
    as (v & q & Hv & Hq & Hq0 & Hq1).
  unfold _calculate_semantic_match, getitem. rewrite Hv. result_simpl.
  rewrite (py_gt_int_num _ _ _ Hq). result_simpl.
  destruct (Qltb _ _).
  - exists q. rewrite Hv. by split_and!.
  - destruct (SKLEARN_AVAILABLE E).
    + destruct (_tfidf_similarity E _ _) as [d|e] eqn:Ht.
      * by eapply tfidf_score_range.
      * exists 50%Q. unfold semantic_error_result. rewrite lookup_mkdict_head.
        by split_and!.
    + apply word_overlap_score_range.
Qed.


(** Lookups in a dict literal. *)
Ltac dict_lookup :=
  unfold mkdict; cbn [list_to_map foldr fst snd];
  repeat (rewrite lookup_insert_eq || rewrite lookup_insert_ne by done).


(** A score in [0, 100] is multiplied as a float: the [int]s of that
    range are floats. *)
Lemma py_mul_float_bounded (v : pyval) (w q : Q) :
  num_value v = Some q → (0 <= q)%Q → (q <= 100)%Q →
  py_mul_float v w = Ok (fmul (Fin q) (double w)).
Proof.
  intros H H0 H1. apply num_value_as_float in H.
  assert (Hint : ∀ z, q = inject_Z z →
            float_of_int z = Ok (Fin (inject_Z z))).
  { intros z ->. unfold float_of_int. rewrite double_small_int; [done|].
    change 0%Q with (inject_Z 0) in H0. change 100%Q with (inject_Z 100) in H1.
    rewrite <- Zle_Qle in H0, H1. lia. }
  destruct v; cbn [as_float] in H; try discriminate; cbn [py_mul_float].
  - injection H as <-. rewrite (Hint _ eq_refl). by result_simpl.
  - injection H as <-. rewrite (Hint _ eq_refl). by result_simpl.
  - by injection H as ->.
Qed.

Lemma final_score_value (hard sem ai : dict) (h s a : Q) :
  num_value (get hard "score" (VInt 0)) = Some h → (0 <= h)%Q → (h <= 100)%Q →
  num_value (get sem "score" (VInt 0)) = Some s → (0 <= s)%Q → (s <= 100)%Q →
  num_value (get ai "score" (VInt 0)) = Some a → (0 <= a)%Q → (a <= 100)%Q →
  _calculate_final_score hard sem ai = Ok (Spec.final_score h s a).
Proof.
  intros Hh Hh0 Hh1 Hs Hs0 Hs1 Ha Ha0 Ha1.
  assert (W1 : weight "hard_match" = Ok (4 # 10)%Q) by reflexivity.
  assert (W2 : weight "semantic_match" = Ok (4 # 10)%Q) by reflexivity.
  assert (W3 : weight "ai_analysis" = Ok (2 # 10)%Q) by reflexivity.
  unfold _calculate_final_score. rewrite W1, W2, W3. result_simpl.
  rewrite (py_mul_float_bounded _ _ _ Hh Hh0 Hh1),
    (py_mul_float_bounded _ _ _ Hs Hs0 Hs1),
    (py_mul_float_bounded _ _ _ Ha Ha0 Ha1). reflexivity.
Qed.





(** The scores 100, 61.5 and 51.75 of the three components give the
    relevance score 74.9 and the verdict "Medium". *)
Example relevance_below_the_tie :
  _calculate_final_score (mkdict [("score", VInt 100)])
      (mkdict [("score", VFloat (Fin (615 # 10)))])
      (mkdict [("score", VFloat (Fin (5175 # 100)))])
    = Ok (double (749 # 10)) ∧
  _get_verdict (double (749 # 10)) = "Medium".
Proof. vm_compute. by split. Qed.

Lemma gemini_cases (E : Env) (resume_text job_description : string) :
  (∃ e, _gemini_semantic_similarity E resume_text job_description = gemini_failed e) ∨
  _gemini_semantic_similarity E resume_text job_description !! "method"
    = Some (VStr "gemini_semantic").
Proof.
  unfold _gemini_semantic_similarity.
  destruct (similarity_response E _ _) as [t|]; result_simpl; [|by left; eexists].
  destruct (response_text t _) as [text|]; result_simpl; [|by left; eexists].
  destruct (json_loads E text) as [parsed|]; result_simpl; [|by left; eexists].
  destruct (as_dict parsed) as [result|]; result_simpl; [|by left; eexists].
  destruct (clamp 0 100 _) as [score|]; result_simpl; [|by left; eexists].
  destruct (py_round1 score) as [rounded|]; result_simpl; [|by left; eexists].
  right. by dict_lookup.
Qed.

Lemma tfidf_method (E : Env) (resume_text job_description : string) (d : dict) :
  _tfidf_similarity E resume_text job_description = Ok d →
  d !! "method" = Some (VStr "tfidf").
Proof.
  unfold _tfidf_similarity.
  destruct (tfidf_cosine E _ _) as [similarity|]; result_simpl; [|done].
  destruct (clamp 0 100 _) as [score|]; result_simpl; [|done].
  destruct (py_round1 score) as [rounded|]; result_simpl; [|done].
  intros [= <-]. by dict_lookup.
Qed.

(** X2: the similarity estimator always reports a score in [0, 100].  Its
    result is tagged "gemini_semantic", "tfidf" or "word_overlap", or it is
    the untagged neutral result with score 50.0 and an error message; the
    record of a failed LLM call, tagged "gemini_failed", is never what the
    estimator returns. *)
Theorem semantic_match_score_and_method (E : Env)
    (resume_text job_description : string) :
  (∃ q, (_calculate_semantic_match E resume_text job_description !! "score")
          ≫= num_value = Some q ∧ (0 <= q)%Q ∧ (q <= 100)%Q) ∧
  (_calculate_semantic_match E resume_text job_description !! "method"
     = Some (VStr "gemini_semantic") ∨
   _calculate_semantic_match E resume_text job_description !! "method"
     = Some (VStr "tfidf") ∨
   _calculate_semantic_match E resume_text job_description !! "method"
     = Some (VStr "word_overlap") ∨
   ∃ e, _calculate_semantic_match E resume_text job_description
          = semantic_error_result e) ∧
  _calculate_semantic_match E resume_text job_description !! "method"
    ≠ Some (VStr "gemini_failed").
Proof.
  split; [apply semantic_score_range|].
  assert (Hor : _calculate_semantic_match E resume_text job_description !! "method"
                  = Some (VStr "gemini_semantic") ∨
                _calculate_semantic_match E resume_text job_description !! "method"
                  = Some (VStr "tfidf") ∨
                _calculate_semantic_match E resume_text job_description !! "method"
                  = Some (VStr "word_overlap") ∨
                ∃ e, _calculate_semantic_match E resume_text job_description
                       = semantic_error_result e).
  { destruct (gemini_score_nonneg E resume_text job_description)
      as (v & q & Hv & Hq & _).
    unfold _calculate_semantic_match, getitem. rewrite Hv. result_simpl.
    rewrite (py_gt_int_num _ _ _ Hq). result_simpl.
    destruct (Qltb (inject_Z 0) q) eqn:Hpos.
    - left. destruct (gemini_cases E resume_text job_description)
        as [[e He] | Hm]; [|done].
      rewrite He in Hv. unfold gemini_failed in Hv.
      rewrite lookup_mkdict_head in Hv. injection Hv as <-.
      injection Hq as <-. discriminate Hpos.
    - destruct (SKLEARN_AVAILABLE E).
      + destruct (_tfidf_similarity E _ _) as [d|e] eqn:Ht.
        * right; left. by eapply tfidf_method.
        * right; right; right. by exists e.
      + right; right; left. apply word_overlap_method. }
  split; [done|].
  destruct Hor as [-> | [-> | [-> | [e ->]]]]; discriminate.
Qed.
(** ** Skill matcher: when the hard match raises, and what it reports *)

Lemma mapM_as_skill_Ok (l : list pyval) (ss : list string) :
  mapM as_skill l = Ok ss ↔ l = VStr <$> ss.
Proof.
  split; [|intros ->; apply mapM_as_skill].
  revert ss. induction l as [|v l IH]; intros ss; cbn [mapM].
  - by intros [= <-].
  - destruct v; cbn [as_skill]; result_simpl; try done.
    destruct (mapM as_skill l) as [ss'|]; result_simpl; [|done].
    intros [= <-]. by rewrite fmap_cons, (IH ss').
Qed.

Lemma mapM_as_skill_Raise (l : list pyval) (e : exc) :
  mapM as_skill l = Raise e → exc_class e = "AttributeError".
Proof.
  induction l as [|v l IH]; cbn [mapM]; [done|].
  destruct v; cbn [as_skill]; result_simpl; try (by intros [= <-]).
  destruct (mapM as_skill l); result_simpl; [done | intros [= <-]; by apply IH].
Qed.

Lemma py_iter_Raise (v : pyval) (e : exc) :
  py_iter v = Raise e → exc_class e = "TypeError".
Proof. destruct v; cbn [py_iter]; try done; by intros [= <-]. Qed.

(** X3: the hard match returns exactly when each of the three skill
    fields of the parsed job description (absent fields count as empty
    lists) is an iterable of strings; otherwise it raises a TypeError, for
    a field that cannot be iterated, or an AttributeError, for an element
    that is no string. *)
Theorem hard_match_returns_iff (resume_text : string) (parsed_jd : dict) :
  ((∃ d, _calculate_hard_match resume_text parsed_jd = Ok d) ↔
   (∃ must good tech : list string,
      py_iter (get parsed_jd "must_have_skills" (VList [])) = Ok (VStr <$> must) ∧
      py_iter (get parsed_jd "good_to_have_skills" (VList [])) = Ok (VStr <$> good) ∧
      py_iter (get parsed_jd "technologies" (VList [])) = Ok (VStr <$> tech))) ∧
  (∀ e, _calculate_hard_match resume_text parsed_jd = Raise e →
        exc_class e = "TypeError" ∨ exc_class e = "AttributeError").
Proof.
  unfold _calculate_hard_match.
  destruct (py_iter (get parsed_jd "must_have_skills" _)) as [must_l|e1] eqn:H1;
    result_simpl.
  2: { split; [split; [by intros [? ?] | by intros (? & ? & ? & ? & _)]|].
       intros e [= <-]. left. by eapply py_iter_Raise. }
  destruct (mapM as_skill must_l) as [must|e1] eqn:H1'; result_simpl.
  2: { split.
       - split; [by intros [? ?]|]. intros (m & ? & ? & [= ->] & _).
         by rewrite mapM_as_skill in H1'.
       - intros e [= <-]. right. by eapply mapM_as_skill_Raise. }
  destruct (py_iter (get parsed_jd "good_to_have_skills" _)) as [good_l|e1] eqn:H2;
    result_simpl.
  2: { split; [split; [by intros [? ?] | by intros (? & ? & ? & _ & ? & _)]|].
       intros e [= <-]. left. by eapply py_iter_Raise. }
  destruct (mapM as_skill good_l) as [good|e1] eqn:H2'; result_simpl.
  2: { split.
       - split; [by intros [? ?]|]. intros (? & g & ? & _ & [= ->] & _).
         by rewrite mapM_as_skill in H2'.
       - intros e [= <-]. right. by eapply mapM_as_skill_Raise. }
  destruct (py_iter (get parsed_jd "technologies" _)) as [tech_l|e1] eqn:H3;
    result_simpl.
  2: { split; [split; [by intros [? ?] | by intros (? & ? & ? & _ & _ & ?)]|].
       intros e [= <-]. left. by eapply py_iter_Raise. }
  destruct (mapM as_skill tech_l) as [tech|e1] eqn:H3'; result_simpl.
  2: { split.
       - split; [by intros [? ?]|]. intros (? & ? & t & _ & _ & [= ->]).
         by rewrite mapM_as_skill in H3'.
       - intros e [= <-]. right. by eapply mapM_as_skill_Raise. }
  split; [|done]. split; [|by eexists].
  intros _. exists must, good, tech.
  apply mapM_as_skill_Ok in H1', H2', H3'. by subst.
Qed.

Example hard_match_string_field :
  _calculate_hard_match "Python and Rust"
      (mkdict [("must_have_skills", VStr "rq")]) ≫= (λ d, getitem d "score")
    = Ok (VFloat (Fin 50)).
Proof. vm_compute. reflexivity. Qed.

Lemma filter_ext_elem {A} (P Q : A → Prop) `{∀ x, Decision (P x)}
    `{∀ x, Decision (Q x)} (l : list A) :
  (∀ x, x ∈ l → (P x ↔ Q x)) → filter P l = filter Q l.
Proof.
  induction l as [|a l IH]; intros Hl; [done|].
  rewrite !filter_cons.
  assert (Ha : P a ↔ Q a) by (apply Hl, list_elem_of_here).
  assert (IH' : filter P l = filter Q l)
    by (apply IH; intros x Hx; by apply Hl, list_elem_of_further).
  destruct (decide (P a)), (decide (Q a)); rewrite ?IH'; tauto.
Qed.

Lemma missing_filter (P : string → Prop) `{∀ x, Decision (P x)} (skills : list string) :
  missing skills (filter P skills) = filter (λ skill, ¬ P skill) skills.
Proof.
  unfold missing. apply filter_ext_elem. intros x Hx.
  rewrite list_elem_of_filter. tauto.
Qed.

Lemma filter_complement_Permutation {A} (P : A → Prop) `{∀ x, Decision (P x)}
    (l : list A) :
  filter P l ++ filter (λ x, ¬ P x) l ≡ₚ l.
Proof.
  induction l as [|a l IH]; [done|].
  rewrite !filter_cons. destruct (decide (P a)), (decide (¬ P a)); try tauto.
  - cbn. by rewrite IH.
  - rewrite <- Permutation_middle. by rewrite IH.
Qed.

(** X4: for skill fields that are lists of strings, the hard match lists
    as missing exactly the must-have (good-to-have) skills that are not
    mentioned in the lowercased resume, so the skills found and the skills
    missing are a rearrangement of the list asked for; the found skills
    are the mentioned must-have, good-to-have and technology entries, in
    that order. *)
Theorem hard_match_found_and_missing (resume_text : string) (parsed_jd : dict)
    (must good tech : list string) :
  get parsed_jd "must_have_skills" (VList []) = strs must →
  get parsed_jd "good_to_have_skills" (VList []) = strs good →
  get parsed_jd "technologies" (VList []) = strs tech →
  ∃ d, _calculate_hard_match resume_text parsed_jd = Ok d ∧
    d !! "found_skills"
      = Some (strs (filter (λ s, _skill_mentioned s (lower resume_text) = true) must
                    ++ filter (λ s, _skill_mentioned s (lower resume_text) = true) good
                    ++ filter (λ s, _skill_mentioned s (lower resume_text) = true) tech)) ∧
    d !! "missing_must_have"
      = Some (strs (filter (λ s, ¬ _skill_mentioned s (lower resume_text) = true) must)) ∧
    d !! "missing_good_to_have"
      = Some (strs (filter (λ s, ¬ _skill_mentioned s (lower resume_text) = true) good)) ∧
    filter (λ s, _skill_mentioned s (lower resume_text) = true) must
      ++ filter (λ s, ¬ _skill_mentioned s (lower resume_text) = true) must ≡ₚ must ∧
    filter (λ s, _skill_mentioned s (lower resume_text) = true) good
      ++ filter (λ s, ¬ _skill_mentioned s (lower resume_text) = true) good ≡ₚ good.
Proof.
  intros Hm Hg Ht. unfold _calculate_hard_match. rewrite Hm, Hg, Ht.
  cbn [py_iter strs]. result_simpl. rewrite !mapM_as_skill. result_simpl.
  eexists. split; [reflexivity|].
  rewrite !missing_filter. dict_lookup.
  split_and!; try done; apply filter_complement_Permutation.
Qed.

Lemma hard_match_found_and_missing_witness :
  ∃ d, _calculate_hard_match "Senior Python developer. Daily SQL."
         Fixtures.requirements = Ok d ∧
       d !! "found_skills" = Some (strs ["python"; "sql"]) ∧
       d !! "missing_good_to_have" = Some (strs ["docker"]).
Proof.
  destruct (hard_match_found_and_missing "Senior Python developer. Daily SQL."
              Fixtures.requirements ["python"; "sql"] ["docker"] []
              eq_refl eq_refl eq_refl) as (d & Hd & Hf & _ & Hg & _).
  exists d. split; [exact Hd|]. rewrite Hf, Hg. vm_compute. by split.
Defined.

(** ** Skill matcher: more text, letter case, aliases *)

Lemma skill_mentioned_collapse (skill text : string) :
  _skill_mentioned skill text
  = contains (lower skill) text
    || existsb (λ variation, contains variation text)
               (_get_skill_variations (lower skill)).
Proof.
  unfold _skill_mentioned.
  destruct (contains (lower skill) text) eqn:Ha; [done|].
  destruct (existsb _ _); [done|].
  destruct (length (str_split (lower skill)) =? 1)%nat; [|done].
  destruct (re_search_word (lower skill) text) eqn:Hc; [|done].
  apply re_search_word_contains in Hc. congruence.
Qed.

Lemma prefix_app (n t b : string) :
  String.prefix n t = true → String.prefix n (t ++ b) = true.
Proof.
  revert t. induction n as [|c n IH]; intros t H; [by destruct (t ++ b)|].
  destruct t as [|d t]; [done|]. simpl in *.
  destruct (Ascii.ascii_dec c d); [by apply IH | done].
Qed.

Lemma contains_app_r (n t b : string) :
  contains n t = true → contains n (t ++ b) = true.
Proof.
  induction t as [|c t IH]; simpl.
  - rewrite orb_false_r. intros H. destruct n; [|done]. by destruct b.
  - intros [H | H]%orb_true_iff.
    + apply (prefix_app n (String c t) b) in H. simpl in H. by rewrite H.
    + rewrite (IH H). apply orb_true_r.
Qed.

Lemma contains_app_l (n a t : string) :
  contains n t = true → contains n (a ++ t) = true.
Proof.
  intros H. induction a as [|c a IH]; [done|].
  simpl. rewrite IH. apply orb_true_r.
Qed.

Lemma contains_app (n a t b : string) :
  contains n t = true → contains n (a ++ t ++ b) = true.
Proof. intros H. by apply contains_app_l, contains_app_r. Qed.

(** X5: a skill that is mentioned in a text is mentioned in every text
    that has it as a part: text added before or after never hides a skill. *)
Theorem skill_mentioned_more_text (skill text : string) :
  _skill_mentioned skill text = true →
  ∀ before after, _skill_mentioned skill (before ++ text ++ after) = true.
Proof.
  rewrite skill_mentioned_collapse. intros H before after.
  rewrite skill_mentioned_collapse.
  apply orb_true_iff in H as [H | H]; apply orb_true_iff.
  - left. by apply contains_app.
  - right. apply existsb_exists in H as (v & Hv & Hc).
    apply existsb_exists. exists v. split; [done|]. by apply contains_app.
Qed.

Lemma skill_mentioned_more_text_witness :
  _skill_mentioned "C++" "cpp" = true ∧
  _skill_mentioned "C++" ("ten years of " ++ "cpp" ++ " and rust") = true.
Proof.
  split; [reflexivity|].
  apply (skill_mentioned_more_text "C++" "cpp" eq_refl "ten years of " " and rust").
Defined.

(** X6: the matcher ignores the letter case of the skill, and the hard
    match that of the resume; the empty skill counts as mentioned in every
    text. *)
Theorem matching_ignores_case (skill text resume_text : string) (parsed_jd : dict) :
  _skill_mentioned (lower skill) text = _skill_mentioned skill text ∧
  _calculate_hard_match (lower resume_text) parsed_jd
    = _calculate_hard_match resume_text parsed_jd ∧
  _skill_mentioned "" text = true.
Proof.
  split_and!.
  - unfold _skill_mentioned. by rewrite lower_idemp.
  - unfold _calculate_hard_match. by rewrite lower_idemp.
  - rewrite skill_mentioned_collapse. cbn [lower]. by destruct text.
Qed.

Lemma alias_of_sym (s a : string) : Spec.alias_of s a → Spec.alias_of a s.
Proof.
  intros (main & alts & Hin & [[-> Ha] | [Hs [-> | Ha]]]);
    exists main, alts; split; try done.
  - right. split; [done | by left].
  - by left.
  - right. split; [done | by right].
Qed.

(** X7: the variations of a skill have no repetition and include the
    skill itself; for lowercase names the table is read both ways: one
    name is a variation of another exactly when the other is a variation
    of it. *)
Theorem get_skill_variations_symmetric (skill other : string) :
  lower skill = skill → lower other = other →
  NoDup (_get_skill_variations skill) ∧
  skill ∈ _get_skill_variations skill ∧
  (other ∈ _get_skill_variations skill ↔ skill ∈ _get_skill_variations other).
Proof.
  intros Hs Ho. split_and!.
  - unfold _get_skill_variations. apply NoDup_remove_dups.
  - apply get_skill_variations_spec. by left.
  - rewrite !get_skill_variations_spec, Hs, Ho.
    split; (intros [-> | H]; [by left | right; by apply alias_of_sym]).
Qed.

Lemma get_skill_variations_symmetric_witness :
  "java script" ∈ _get_skill_variations "js" ∧
  "js" ∈ _get_skill_variations "java script".
Proof.
  split.
  - apply (bool_decide_unpack _). vm_compute. reflexivity.
  - apply (proj1 (proj2 (proj2 (get_skill_variations_symmetric
             "js" "java script" eq_refl eq_refl)))).
    apply (bool_decide_unpack _). vm_compute. reflexivity.
Defined.

(** ** Word overlap: symmetry and letter case *)

Lemma words_of_lower (text : string) : words_of (lower text) = words_of text.
Proof. unfold words_of. by rewrite lower_idemp. Qed.

(** X8: the word-overlap result, counts included, is the same when the
    resume and the job description change places, and does not depend on
    the letter case of either text. *)
Theorem word_overlap_symmetric (resume_text job_description : string) :
  _word_overlap_similarity resume_text job_description
    = _word_overlap_similarity job_description resume_text ∧
  _word_overlap_similarity (lower resume_text) (lower job_description)
    = _word_overlap_similarity resume_text job_description.
Proof.
  split.
  - unfold _word_overlap_similarity.
    assert (HI : words_of resume_text ∩ words_of job_description
                 = words_of job_description ∩ words_of resume_text)
      by (apply set_eq; intros x; rewrite !elem_of_intersection; tauto).
    assert (HU : words_of resume_text ∪ words_of job_description
                 = words_of job_description ∪ words_of resume_text)
      by (apply set_eq; intros x; rewrite !elem_of_union; tauto).
    by rewrite HI, HU.
  - unfold _word_overlap_similarity. by rewrite !words_of_lower.
Qed.

(** ** Suggestions *)

Lemma take5_bounds (l : list pyval) :
  (1 <= length (take 5 (match l with [] => generic_suggestions | _ => l end)) <= 5)%nat.
Proof.
  rewrite length_take. destruct l as [|x l]; [unfold generic_suggestions; cbn [length]; lia | cbn [length]; lia].
Qed.

(** X9: when the suggestions are computed without an exception there are
    at least one and at most five of them. *)
Theorem generate_suggestions_count (resume_text : string)
    (parsed_jd ai_analysis : dict) (suggestions : list pyval) :
  _generate_suggestions resume_text parsed_jd ai_analysis = Ok suggestions →
  (1 <= length suggestions <= 5)%nat.
Proof.
  unfold _generate_suggestions.
  destruct (py_iter (get ai_analysis "improvement_areas" _)) as [areas|];
    result_simpl; [|done].
  destruct (truthy (get ai_analysis "missing_skills" _)).
  - destruct (py_slice_to 5 _) as [first5|]; result_simpl; [|done].
    destruct (py_iter first5) as [items|]; result_simpl; [|done].
    destruct (join_items 0 items) as [parts|]; result_simpl; [|done].
    intros [= <-]. apply take5_bounds.
  - result_simpl. intros [= <-]. apply take5_bounds.
Qed.

Lemma generate_suggestions_count_witness :
  (1 <= length generic_suggestions <= 5)%nat.
Proof.
  apply (generate_suggestions_count "" ∅ (default_analysis (Exception "offline"))
           generic_suggestions).
  vm_compute. reflexivity.
Defined.

(** X10: when the review lists five or more improvement areas, the
    suggestions are exactly the first five of them: the line about missing
    skills and the lines about experience and education are cut off. *)
Theorem generate_suggestions_five_areas (resume_text : string)
    (parsed_jd ai_analysis : dict) (areas suggestions : list pyval) :
  py_iter (get ai_analysis "improvement_areas" (VList [])) = Ok areas →
  (5 <= length areas)%nat →
  _generate_suggestions resume_text parsed_jd ai_analysis = Ok suggestions →
  suggestions = take 5 areas.
Proof.
  intros Ha Hlen. unfold _generate_suggestions. rewrite Ha. result_simpl.
  assert (Htake : ∀ extra : list pyval,
            take 5 (match (areas ++ extra)%list with
                    | [] => generic_suggestions | _ => (areas ++ extra)%list end)
            = take 5 areas).
  { intros extra. destruct areas as [|x areas]; [cbn in Hlen; lia|].
    cbn [app]. by rewrite app_comm_cons, take_app_le. }
  destruct (truthy (get ai_analysis "missing_skills" _)).
  - destruct (py_slice_to 5 _) as [first5|]; result_simpl; [|done].
    destruct (py_iter first5) as [items|]; result_simpl; [|done].
    destruct (join_items 0 items) as [parts|]; result_simpl; [|done].
    intros [= <-].
    destruct (py_eq_str (get ai_analysis "experience_match" _) "poor"),
      (py_eq_str (get ai_analysis "education_match" _) "poor");
      rewrite <- ?app_assoc; apply Htake.
  - result_simpl. intros [= <-].
    destruct (py_eq_str (get ai_analysis "experience_match" _) "poor"),
      (py_eq_str (get ai_analysis "education_match" _) "poor");
      rewrite <- ?app_assoc; try apply Htake.
    destruct areas as [|x areas]; [cbn in Hlen; lia | done].
Qed.

Lemma generate_suggestions_five_areas_witness :
  _generate_suggestions "" ∅
      (mkdict [ ("improvement_areas", strs ["a"; "b"; "c"; "d"; "e"; "f"]);
                ("missing_skills", strs ["docker"]);
                ("experience_match", VStr "poor") ])
    = Ok (VStr <$> ["a"; "b"; "c"; "d"; "e"]).
Proof.
  assert (H := generate_suggestions_five_areas "" ∅
      (mkdict [ ("improvement_areas", strs ["a"; "b"; "c"; "d"; "e"; "f"]);
                ("missing_skills", strs ["docker"]);
                ("experience_match", VStr "poor") ])
      (VStr <$> ["a"; "b"; "c"; "d"; "e"; "f"])
      (VStr <$> ["a"; "b"; "c"; "d"; "e"])
      eq_refl ltac:(cbn; lia) eq_refl).
  vm_compute. reflexivity.
Defined.

Lemma ai_analysis_call_failed (E : Env) (resume_text job_description : string)
    (parsed_jd : dict) (e : exc) :
  review_response E job_description resume_text
      (get parsed_jd "must_have_skills" (VList []))
      (get parsed_jd "good_to_have_skills" (VList [])) = Raise e →
  _ai_analysis E resume_text job_description parsed_jd = default_analysis e.
Proof. intros H. unfold _ai_analysis. by rewrite H. Qed.

(** X11: when the call of the review model raises and the hard match
    returns, [analyze_resume] does not fail: it reports the default review,
    that is AI score 50.0, confidence 0.5, no missing skill, the feedback
    "AI analysis failed: <message>", and the three generic suggestions. *)
Theorem analyze_resume_review_failed (E : Env) (resume_text job_description : string)
    (parsed_jd hard : dict) (e : exc) :
  review_response E job_description resume_text
      (get parsed_jd "must_have_skills" (VList []))
      (get parsed_jd "good_to_have_skills" (VList [])) = Raise e →
  _calculate_hard_match resume_text parsed_jd = Ok hard →
  analyze_resume E resume_text job_description parsed_jd !! "ai_score"
    = Some (VFloat (Fin 50)) ∧
  analyze_resume E resume_text job_description parsed_jd !! "confidence"
    = Some (VFloat (Fin (5 # 10))) ∧
  analyze_resume E resume_text job_description parsed_jd !! "missing_skills"
    = Some (VList []) ∧
  analyze_resume E resume_text job_description parsed_jd !! "detailed_feedback"
    = Some (VStr ("AI analysis failed: " ++ exc_str e)) ∧
  analyze_resume E resume_text job_description parsed_jd !! "suggestions"
    = Some (VList generic_suggestions) ∧
  analyze_resume E resume_text job_description parsed_jd !! "found_skills"
    = hard !! "found_skills".
Proof.
  intros Hr Hh.
  destruct (hard_match_score_range _ _ _ Hh) as (h & Hhv & Hh0 & Hh1).
  destruct (hard_match_has_score _ _ _ Hh) as [hs Hhs].
  destruct (semantic_score_range E resume_text job_description)
    as (s & Hsv & Hs0 & Hs1).
  destruct (semantic_match_has_score E resume_text job_description) as [ss Hss].
  rewrite Hhs in Hhv. rewrite Hss in Hsv. cbn [mbind option_bind] in Hhv, Hsv.
  assert (Hfound : ∃ fs, hard !! "found_skills" = Some fs).
  { revert Hh. unfold _calculate_hard_match.
    destruct (py_iter (get parsed_jd "must_have_skills" _)) as [must_l|];
      result_simpl; [|done].
    destruct (mapM as_skill must_l) as [must|]; result_simpl; [|done].
    destruct (py_iter (get parsed_jd "good_to_have_skills" _)) as [good_l|];
      result_simpl; [|done].
    destruct (mapM as_skill good_l) as [good|]; result_simpl; [|done].
    destruct (py_iter (get parsed_jd "technologies" _)) as [tech_l|];
      result_simpl; [|done].
    destruct (mapM as_skill tech_l) as [tech|]; result_simpl; [|done].
    intros [= <-]. eexists. by dict_lookup. }
  destruct Hfound as [fs Hfs].
  unfold analyze_resume, analyze_resume_try. cbv zeta.
  rewrite Hh, (ai_analysis_call_failed _ _ _ _ _ Hr). result_simpl.
  rewrite (final_score_value hard _ _ h s 50);
    [| unfold get; by rewrite Hhs | done | done
     | unfold get; by rewrite Hss | done | done
     | reflexivity | discriminate | discriminate].
  result_simpl.
  assert (Hsugg : _generate_suggestions resume_text parsed_jd (default_analysis e)
                  = Ok generic_suggestions) by reflexivity.
  rewrite Hsugg. result_simpl.
  unfold getitem. rewrite Hhs, Hss. result_simpl.
  assert (Hds : default_analysis e !! "score" = Some (VFloat (Fin 50)))
    by reflexivity.
  rewrite Hds. result_simpl.
  assert (Hg1 : get (default_analysis e) "confidence" (VFloat (Fin (8 # 10)))
                = VFloat (Fin (5 # 10))) by reflexivity.
  assert (Hg2 : get (default_analysis e) "missing_skills" (VList []) = VList [])
    by reflexivity.
  assert (Hg3 : get (default_analysis e) "detailed_feedback" (VStr "")
                = VStr ("AI analysis failed: " ++ exc_str e)) by reflexivity.
  rewrite Hg1, Hg2, Hg3. dict_lookup.
  split_and!; try reflexivity.
  unfold get. rewrite Hfs. reflexivity.
Qed.

Lemma analyze_resume_review_failed_witness :
  analyze_resume Fixtures.offline "I know Python and SQL"
      "We need python, sql and docker" Fixtures.requirements !! "suggestions"
    = Some (VList generic_suggestions).
Proof.
  refine (proj1 (proj2 (proj2 (proj2 (proj2
            (analyze_resume_review_failed Fixtures.offline "I know Python and SQL"
               "We need python, sql and docker" Fixtures.requirements
               (match _calculate_hard_match "I know Python and SQL"
                        Fixtures.requirements with
                | Ok d => d
                | Raise _ => ∅
                end)
               (Exception "connection refused") eq_refl _)))))).
  vm_compute. reflexivity.
Defined.
(** * The job analyzer: rules, keywords, categories *)

(** ** Strings as concatenations *)

Lemma app_cons (c : ascii) (a b : string) :
  String c a ++ b = String c (a ++ b).
Proof. reflexivity. Qed.

Lemma app_empty (b : string) : "" ++ b = b.
Proof. reflexivity. Qed.

Ltac app_simpl := rewrite ?app_cons, ?app_empty in *.

Lemma string_app_assoc (a b c : string) : (a ++ b) ++ c = a ++ b ++ c.
Proof. induction a as [|x a IH]; [done|]. app_simpl. by rewrite IH. Qed.

Lemma string_app_nil_r (a : string) : a ++ "" = a.
Proof. induction a as [|x a IH]; [done|]. app_simpl. by rewrite IH. Qed.

Lemma string_length_app (a b : string) :
  String.length (a ++ b) = (String.length a + String.length b)%nat.
Proof. induction a as [|x a IH]; [done|]. app_simpl. simpl. by rewrite IH. Qed.

Lemma lower_app (a b : string) : lower (a ++ b) = lower a ++ lower b.
Proof.
  induction a as [|x a IH]; [done|]. app_simpl. cbn [lower]. app_simpl.
  by rewrite IH.
Qed.

Lemma lower_length (s : string) : String.length (lower s) = String.length s.
Proof. induction s as [|x s IH]; [done|]. simpl. by rewrite IH. Qed.

(** A text whose lower-case form is a concatenation is the concatenation
    of two texts with these lower-case forms. *)
Lemma lower_split (x y : string) :
  ∀ t, lower t = x ++ y → ∃ t1 t2, t = t1 ++ t2 ∧ lower t1 = x ∧ lower t2 = y.
Proof.
  induction x as [|c x IH]; intros t H.
  - by exists "", t.
  - destruct t as [|d t]; [done|]. simpl in H. injection H as Hc Ht.
    destruct (IH t Ht) as (t1 & t2 & -> & H1 & H2).
    exists (String d t1), t2. simpl. by rewrite Hc, H1.
Qed.

Lemma string_split_at (s : string) (k : nat) :
  (k ≤ String.length s)%nat →
  ∃ s1 s2, s = s1 ++ s2 ∧ String.length s1 = k.
Proof.
  revert k. induction s as [|c s IH]; intros k Hk.
  - exists "", "". simpl in *. split; [done | lia].
  - destruct k as [|k]; [by exists "", (String c s)|].
    destruct (IH k) as (s1 & s2 & -> & Hl); [simpl in Hk; lia|].
    exists (String c s1), s2. simpl. by rewrite Hl.
Qed.

Lemma prefix_split (n t : string) :
  String.prefix n t = true → ∃ b, t = n ++ b.
Proof.
  revert t. induction n as [|c n IH]; intros t H; [by exists t|].
  destruct t as [|d t]; [done|]. simpl in H.
  destruct (Ascii.ascii_dec c d) as [->|]; [|done].
  destruct (IH t H) as [b ->]. by exists b.
Qed.

Lemma prefix_refl_app (n b : string) : String.prefix n (n ++ b) = true.
Proof.
  induction n as [|c n IH]; [by destruct b|]. simpl.
  by destruct (Ascii.ascii_dec c c).
Qed.

Lemma contains_refl (n : string) : contains n n = true.
Proof.
  pose proof (prefix_refl_app n "") as H. rewrite string_app_nil_r in H.
  destruct n; simpl in *; [done|]. by rewrite H.
Qed.

Lemma contains_middle (a n b : string) : contains n (a ++ n ++ b) = true.
Proof. apply contains_app, contains_refl. Qed.

Lemma contains_split (n t : string) :
  contains n t = true → ∃ a b, t = a ++ n ++ b.
Proof.
  induction t as [|c t IH]; cbn [contains].
  - rewrite orb_false_r. intros [b ->]%prefix_split. by exists "", b.
  - intros [H|H]%orb_true_iff.
    + apply prefix_split in H as [b Hb]. by exists "", b.
    + destruct (IH H) as (a & b & ->). by exists (String c a), b.
Qed.

(** ** [str.find] and slices *)

Lemma find_index_None (n h : string) :
  find_index n h = None ↔ contains n h = false.
Proof.
  induction h as [|c h IH]; cbn [find_index contains].
  - destruct (String.prefix n ""); [by split|]. by split.
  - destruct (String.prefix n (String c h)); [by split|].
    cbn [orb]. rewrite <- IH. destruct (find_index n h); by split.
Qed.

Lemma find_index_Some (n h : string) (i : nat) :
  find_index n h = Some i →
  ∃ a b, h = a ++ n ++ b ∧ String.length a = i.
Proof.
  revert i. induction h as [|c h IH]; intros i; cbn [find_index].
  - destruct (String.prefix n "") eqn:Hp; [|done]. intros [= <-].
    apply prefix_split in Hp as [b Hb]. by exists "", b.
  - destruct (String.prefix n (String c h)) eqn:Hp.
    + intros [= <-]. apply prefix_split in Hp as [b Hb]. by exists "", b.
    + destruct (find_index n h) as [j|]; [|done]. intros [= <-].
      destruct (IH j eq_refl) as (a & b & -> & Hl).
      exists (String c a), b. simpl. by rewrite Hl.
Qed.

Lemma substring_front (m b : string) :
  String.substring 0 (String.length m) (m ++ b) = m.
Proof.
  induction m as [|d m IHm]; [by destruct b|].
  app_simpl. cbn [String.length String.substring]. by rewrite IHm.
Qed.

Lemma substring_middle (a m b : string) :
  String.substring (String.length a) (String.length m) (a ++ m ++ b) = m.
Proof.
  induction a as [|c a IH]; [exact (substring_front m b)|].
  app_simpl. cbn [String.length String.substring]. apply IH.
Qed.

Lemma contains_empty (t : string) : contains "" t = true.
Proof. by destruct t. Qed.

Lemma len_app (a b : string) : len (a ++ b) = (len a + len b)%Z.
Proof. unfold len. rewrite string_length_app. lia. Qed.

Lemma len_nonneg (a : string) : (0 ≤ len a)%Z.
Proof. unfold len. lia. Qed.

Lemma str_slice_middle (a m b : string) :
  str_slice (a ++ m ++ b) (len a) (len a + len m) = m.
Proof.
  unfold str_slice, slice_bound. rewrite !len_app.
  pose proof (len_nonneg a). pose proof (len_nonneg m). pose proof (len_nonneg b).
  destruct (Z.ltb_spec (len a) 0); [lia|].
  destruct (Z.ltb_spec (len a + len m) 0); [lia|].
  rewrite !Z.min_l by lia.
  replace (Z.to_nat (len a)) with (String.length a) by (unfold len; lia).
  replace (Z.to_nat (len a + len m - len a)) with (String.length m)
    by (unfold len; lia).
  apply substring_middle.
Qed.

(** X12: for an ASCII skill and an ASCII text, where [lower] keeps the
    length and touches the letters A to Z only, and a window [w >= 0], the
    context of the skill is a part of the text of at most len(skill) + 2w
    characters; it is empty when the text does not mention the skill,
    whatever the letter case, and otherwise it contains the mention. *)
Theorem get_skill_context_spec (skill text : string) (w : Z) :
  all_chars is_ascii skill = true →
  all_chars is_ascii text = true →
  (0 ≤ w)%Z →
  contains (_get_skill_context skill text w) text = true ∧
  (len (_get_skill_context skill text w) ≤ len skill + 2 * w)%Z ∧
  (contains (lower skill) (lower text) = false →
     _get_skill_context skill text w = "") ∧
  (contains (lower skill) (lower text) = true →
     contains (lower skill) (lower (_get_skill_context skill text w)) = true).
Proof.
  intros _ _ Hw. unfold _get_skill_context, str_find. cbv zeta.
  destruct (find_index (lower skill) (lower text)) as [i|] eqn:Hfind.
  - destruct (Z.eqb_spec (Z.of_nat i) (-1)) as [|_]; [lia|].
    apply find_index_Some in Hfind as (a' & b' & Htext & Hi).
    apply lower_split in Htext as (a & mb & -> & Ha & Hmb).
    apply lower_split in Hmb as (m & b & -> & Hm & Hb).
    assert (Hla : String.length a = i) by (by rewrite <- Hi, <- Ha, lower_length).
    assert (Hlm : len m = len skill).
    { unfold len. by rewrite <- (lower_length m), Hm, lower_length. }
    destruct (string_split_at a (Z.to_nat (Z.max 0 (Z.of_nat i - w))))
      as (a1 & a2 & -> & Ha1); [lia|].
    destruct (string_split_at b (Z.to_nat (Z.min (len b) w)))
      as (b1 & b2 & -> & Hb1); [unfold len; lia|].
    rewrite string_length_app in Hla.
    pose proof (len_nonneg m).
    assert (Hstart : Z.max 0 (Z.of_nat i - w) = len a1) by (unfold len; lia).
    assert (Hstop : Z.min (len ((a1 ++ a2) ++ m ++ b1 ++ b2))
                          (Z.of_nat i + len skill + w)
                    = (len a1 + len (a2 ++ m ++ b1))%Z).
    { rewrite !len_app. unfold len in *. rewrite string_length_app in Hb1. lia. }
    rewrite Hstart, Hstop.
    replace ((a1 ++ a2) ++ m ++ b1 ++ b2) with (a1 ++ (a2 ++ m ++ b1) ++ b2)
      by (by rewrite !string_app_assoc).
    rewrite str_slice_middle. split_and!.
    + apply contains_middle.
    + rewrite !len_app. unfold len in *. lia.
    + intros Hc. rewrite !lower_app, Hm in Hc.
      by rewrite contains_app in Hc by apply contains_middle.
    + intros _. rewrite !lower_app, Hm. apply contains_middle.
  - cbn [Z.eqb]. split_and!.
    + apply contains_empty.
    + pose proof (len_nonneg skill). unfold len at 1. cbn. lia.
    + done.
    + intros Hc. apply find_index_None in Hfind. congruence.
Qed.

Lemma get_skill_context_spec_witness :
  contains (_get_skill_context "SQL" "We use sql daily" 3) "We use sql daily" = true.
Proof.
  refine (proj1 (get_skill_context_spec "SQL" "We use sql daily" 3 _ _ _));
    [reflexivity | reflexivity | lia].
Defined.
(** ** The rule-based extractor *)

Lemma remove_dups_NoDup {A} `{EqDecision A} (l : list A) :
  NoDup l → remove_dups l = l.
Proof.
  induction 1 as [|x l Hx Hl IH]; [done|].
  cbn [remove_dups]. rewrite IH. by destruct (decide_rel elem_of x l).
Qed.

Lemma taxonomy_NoDup : NoDup (flat_map snd skill_categories).
Proof. apply (bool_decide_unpack _). vm_compute. reflexivity. Qed.

(** The loop of the classifier files a skill as must-have when its
    context names a must-have indicator or no good-to-have indicator. *)
Local Abbreviation must_rule jd :=
  (λ skill : string,
     indicated must_have_indicators (_get_skill_context skill jd 100) = true
     ∨ indicated good_to_have_indicators (_get_skill_context skill jd 100)
       = false).

Lemma classify_foldl (jd : string) (l m0 g0 : list string) :
  foldl (classify jd) (m0, g0) l
  = ((m0 ++ filter (must_rule jd) l)%list,
     (g0 ++ filter (λ skill, ¬ must_rule jd skill) l)%list).
Proof.
  revert m0 g0. induction l as [|s l IH]; intros m0 g0.
  - by rewrite !app_nil_r.
  - cbn [foldl]. rewrite !filter_cons. unfold classify at 2.
    destruct (indicated must_have_indicators _) eqn:Hm.
    + rewrite IH, decide_True, decide_False by tauto.
      by rewrite <- app_assoc.
    + destruct (indicated good_to_have_indicators _) eqn:Hg.
      * rewrite IH, decide_False, decide_True
          by (rewrite ?Hm, ?Hg; intuition congruence).
        by rewrite <- app_assoc.
      * rewrite IH, decide_True, decide_False by tauto.
        by rewrite <- app_assoc.
Qed.

Lemma extract_with_rules_fields (jd : string) :
  let tech := filter (λ skill, contains (lower skill) (lower jd) = true)
                     (flat_map snd skill_categories) in
  _extract_with_rules jd !! "technologies" = Some (strs tech) ∧
  _extract_with_rules jd !! "must_have_skills"
    = Some (strs (filter (must_rule jd) tech)) ∧
  _extract_with_rules jd !! "good_to_have_skills"
    = Some (strs (filter (λ skill, ¬ must_rule jd skill) tech)) ∧
  NoDup tech.
Proof.
  intros tech.
  assert (Hnd : NoDup tech) by apply NoDup_filter, taxonomy_NoDup.
  unfold _extract_with_rules. cbv zeta. fold tech.
  rewrite classify_foldl. cbn [app]. unfold list_set.
  rewrite !remove_dups_NoDup by (by apply NoDup_filter).
  split_and!; [by dict_lookup.. | done].
Qed.

Lemma extract_with_rules_experience_field (jd : string) :
  ∃ e, _extract_with_rules jd !! "experience_required" = Some (VStr e).
Proof.
  unfold _extract_with_rules. cbv zeta. destruct (foldl _ _ _) as [must good].
  eexists. by dict_lookup.
Qed.

(** X13: the rule-based extractor lists as technologies exactly the
    entries of the skill taxonomy that occur in the lowercased description,
    each once; every one of them is filed once, as must-have or as
    good-to-have, and it is good-to-have exactly when its context names no
    must-have indicator and some good-to-have indicator. *)
Theorem extract_with_rules_skills (jd : string) :
  ∃ must good tech : list string,
    _extract_with_rules jd !! "technologies" = Some (strs tech) ∧
    _extract_with_rules jd !! "must_have_skills" = Some (strs must) ∧
    _extract_with_rules jd !! "good_to_have_skills" = Some (strs good) ∧
    NoDup tech ∧
    (∀ skill, skill ∈ tech ↔
       (∃ category skills, (category, skills) ∈ skill_categories
                           ∧ skill ∈ skills)
       ∧ contains (lower skill) (lower jd) = true) ∧
    (must ++ good)%list ≡ₚ tech ∧
    (∀ skill, skill ∈ good ↔
       skill ∈ tech
       ∧ indicated must_have_indicators (_get_skill_context skill jd 100)
         = false
       ∧ indicated good_to_have_indicators (_get_skill_context skill jd 100)
         = true).
Proof.
  destruct (extract_with_rules_fields jd) as (Ht & Hm & Hg & Hnd).
  eexists _, _, _. split_and!; [exact Ht | exact Hm | exact Hg | exact Hnd | ..].
  - intros skill. rewrite list_elem_of_filter, list_elem_of_In, in_flat_map.
    split.
    + intros [Hc ([category skills] & Hin & Hs)]. split; [|done].
      exists category, skills. by rewrite !list_elem_of_In.
    + intros [(category & skills & Hin & Hs) Hc]. split; [done|].
      exists (category, skills). by rewrite <- !list_elem_of_In.
  - apply filter_complement_Permutation.
  - intros skill. rewrite list_elem_of_filter.
    destruct (indicated must_have_indicators _),
             (indicated good_to_have_indicators _); intuition congruence.
Qed.

(** The score when every listed skill is found. *)
Lemma score_all_must_found (must good : list string) (gf : nat) :
  must ≠ [] →
  of_num (nround1 (nmin_int 100 (nadd
    (part_score (strs must) (length must) (length must) 100)
    (part_score (strs good) gf (length good) 50)))) = VInt 100.
Proof.
  intros Hne. unfold part_score at 1. rewrite truthy_strs.
  destruct must as [|m must]; [done|].
  assert (Hpos : (0 < length (m :: must))%nat) by (cbn; lia).
  rewrite (len_div_self _ Hpos).
  assert (H100 : nmul (NFloat (Fin 1)) (NInt 100) = NFloat (Fin 100))
    by (vm_compute; reflexivity).
  rewrite H100.
  pose proof (part_score_nonneg (strs good) gf (length good) 50 ltac:(lia)) as Hg.
  destruct (part_score (strs good) gf (length good) 50) as [z|g];
    cbn [nadd to_float] in *; unfold nmin_int; cbn [to_float];
    by rewrite (fadd_100_ge _ Hg).
Qed.

Lemma score_all_good_found (good : list string) :
  good ≠ [] →
  of_num (nround1 (nmin_int 100 (nadd
    (part_score (strs []) 0 0 100)
    (part_score (strs good) (length good) (length good) 50))))
  = VFloat (Fin 50).
Proof.
  intros Hne. unfold part_score. rewrite !truthy_strs.
  destruct good as [|g good]; [done|].
  assert (Hpos : (0 < length (g :: good))%nat) by (cbn; lia).
  rewrite (len_div_self _ Hpos). vm_compute. reflexivity.
Qed.

Lemma skill_mentioned_in_text (skill jd before after : string) :
  contains (lower skill) (lower jd) = true →
  _skill_mentioned skill (lower (before ++ jd ++ after)) = true.
Proof.
  intros H. rewrite skill_mentioned_collapse, !lower_app.
  by rewrite (contains_app _ _ _ _ H).
Qed.

Lemma filter_none {A} (P : A → Prop) `{∀ x, Decision (P x)} (l : list A) :
  (∀ x, x ∈ l → ¬ P x) → filter P l = [].
Proof.
  induction l as [|a l IH]; intros Hl; [done|].
  rewrite filter_cons, decide_False by apply Hl, list_elem_of_here.
  apply IH. intros x Hx. by apply Hl, list_elem_of_further.
Qed.

Lemma missing_self (l : list string) : missing l l = [].
Proof. unfold missing. apply filter_none. tauto. Qed.

(** The hard match of a text that mentions whatever the job description
    mentions, against the rule-based requirements of that description. *)
Lemma hard_match_of_rules (jd resume_text : string) :
  (∀ skill, contains (lower skill) (lower jd) = true →
            _skill_mentioned skill (lower resume_text) = true) →
  ∃ must good hard,
    _extract_with_rules jd !! "must_have_skills" = Some (strs must) ∧
    _extract_with_rules jd !! "good_to_have_skills" = Some (strs good) ∧
    _calculate_hard_match resume_text (_extract_with_rules jd) = Ok hard ∧
    hard !! "missing_must_have" = Some (VList []) ∧
    hard !! "missing_good_to_have" = Some (VList []) ∧
    hard !! "score"
      = Some (match must, good with
              | [], [] => VInt 0
              | [], _ :: _ => VFloat (Fin 50)
              | _ :: _, _ => VInt 100
              end).
Proof.
  intros Hmentioned.
  destruct (extract_with_rules_fields jd) as (Ht & Hm & Hg & Hnd).
  set (tech := filter _ (flat_map snd skill_categories)) in *.
  set (must := filter (must_rule jd) tech) in *.
  set (good := filter (λ skill, ¬ must_rule jd skill) tech) in *.
  assert (Hall : ∀ l, l ⊆ tech →
            filter (λ skill, _skill_mentioned skill (lower resume_text) = true) l
            = l).
  { intros l Hl. apply filter_all, Forall_forall. intros skill Hs.
    apply Hmentioned.
    apply Hl in Hs. unfold tech in Hs. by apply list_elem_of_filter in Hs as [Hs _]. }
  assert (Hmt : must ⊆ tech) by (intros x [_ Hx]%list_elem_of_filter; done).
  assert (Hgt : good ⊆ tech) by (intros x [_ Hx]%list_elem_of_filter; done).
  exists must, good. eexists. split_and!; [exact Hm | exact Hg | ..].
  - assert (Hgm : get (_extract_with_rules jd) "must_have_skills" (VList [])
                  = strs must) by (unfold get; by rewrite Hm).
    assert (Hgg : get (_extract_with_rules jd) "good_to_have_skills" (VList [])
                  = strs good) by (unfold get; by rewrite Hg).
    assert (Hgt' : get (_extract_with_rules jd) "technologies" (VList [])
                  = strs tech) by (unfold get; by rewrite Ht).
    unfold _calculate_hard_match. rewrite Hgm, Hgg, Hgt'.
    cbn [py_iter strs]. result_simpl. rewrite !mapM_as_skill.
    result_simpl. rewrite !Hall by done. reflexivity.
  - dict_lookup. by rewrite missing_self.
  - dict_lookup. by rewrite missing_self.
  - dict_lookup. f_equal.
    destruct must as [|m must'] eqn:Hmust.
    + destruct good as [|g good'] eqn:Hgood; [reflexivity|].
      by apply (score_all_good_found (g :: good')).
    + by apply (score_all_must_found (m :: must')).
Qed.

(** X15: the hard match never raises on requirements that the rule-based
    extractor produced.  For a resume that contains the job description no
    skill is missing, and the score is 100 when there is a must-have skill,
    50.0 when there are only good-to-have skills, and 0 when no skill was
    extracted. *)
Theorem hard_match_of_extracted_rules (jd before after : string) :
  (∀ resume_text, ∃ d,
     _calculate_hard_match resume_text (_extract_with_rules jd) = Ok d) ∧
  ∃ must good hard,
    _extract_with_rules jd !! "must_have_skills" = Some (strs must) ∧
    _extract_with_rules jd !! "good_to_have_skills" = Some (strs good) ∧
    _calculate_hard_match (before ++ jd ++ after) (_extract_with_rules jd)
      = Ok hard ∧
    hard !! "missing_must_have" = Some (VList []) ∧
    hard !! "missing_good_to_have" = Some (VList []) ∧
    hard !! "score"
      = Some (match must, good with
              | [], [] => VInt 0
              | [], _ :: _ => VFloat (Fin 50)
              | _ :: _, _ => VInt 100
              end).
Proof.
  split.
  - intros resume_text.
    destruct (extract_with_rules_fields jd) as (Ht & Hm & Hg & _).
    edestruct (hard_match_result resume_text (_extract_with_rules jd))
      as (d & Hd & _);
      [unfold get; rewrite Hm; reflexivity
      |unfold get; rewrite Hg; reflexivity
      |unfold get; rewrite Ht; reflexivity|].
    by exists d.
  - apply hard_match_of_rules. intros skill.
    apply skill_mentioned_in_text.
Qed.

(** ** The backtracking matcher *)

Lemma star_elim {R} (cls : ascii → bool) (t : string) (k : string → option R)
    (x : R) :
  star cls t k = Some x →
  ∃ p t', t = p ++ t' ∧ all_chars cls p = true ∧ k t' = Some x.
Proof.
  induction t as [|c t IH]; cbn [star].
  - intros H. by exists "", "".
  - destruct (cls c) eqn:Hc; [|intros H; by exists "", (String c t)].
    destruct (star cls t k) as [y|] eqn:Hs.
    + intros [= ->]. destruct (IH eq_refl) as (p & t' & -> & Hp & Hk).
      exists (String c p), t'. cbn [all_chars]. by rewrite Hc, Hp.
    + intros H. by exists "", (String c t).
Qed.

(** A pattern without a group hands the text of the group on as it got
    it. *)
Lemma run_groupless {R} (r : regex) :
  groupless r = true →
  ∀ cap t (k : option string → string → option R) x,
    run r cap t k = Some x → ∃ t', k cap t' = Some x.
Proof.
  induction r as [s|cls|cls|r1 IH1 r2 IH2|r1 IH1 r2 IH2|r1 IH1|r1 IH1];
    cbn [groupless run]; intros Hg cap t k x H.
  - destruct (strip s t) as [t'|]; [by exists t' | done].
  - apply star_elim in H as (_ & t' & _ & _ & H). by exists t'.
  - destruct t as [|c t]; [done|]. destruct (cls c); [|done].
    apply star_elim in H as (_ & t' & _ & _ & H). by exists t'.
  - apply andb_true_iff in Hg as [Hg1 Hg2].
    apply (IH1 Hg1) in H as [t1 H]. by apply (IH2 Hg2) in H.
  - apply andb_true_iff in Hg as [Hg1 Hg2].
    destruct (run r1 cap t k) as [y|] eqn:H1.
    + injection H as ->. by apply (IH1 Hg1) in H1.
    + by apply (IH2 Hg2) in H.
  - destruct (run r1 cap t k) as [y|] eqn:H1.
    + injection H as ->. by apply (IH1 Hg) in H1.
    + by exists t.
  - done.
Qed.

Lemma consumed_app (p t : string) : consumed (p ++ t) t = p.
Proof.
  unfold consumed. rewrite string_length_app.
  replace (String.length p + String.length t - String.length t)%nat
    with (String.length p) by lia.
  apply substring_front.
Qed.

(** A match of [(cls+)] followed by a pattern without a group: the group
    is a non-empty run of [cls] at the front of the text. *)
Lemma match_group_plus (cls : ascii → bool) (tail : regex) (t : string)
    (cap : option string) (rest : string) :
  groupless tail = true →
  match_at (Seq (Group (Plus cls)) tail) t = Some (cap, rest) →
  ∃ p t', cap = Some p ∧ t = p ++ t' ∧ p ≠ "" ∧ all_chars cls p = true.
Proof.
  intros Hg. unfold match_at. cbn [run].
  destruct t as [|c t]; [done|]. destruct (cls c) eqn:Hc; [|done].
  intros H. apply star_elim in H as (p & t' & -> & Hp & H).
  apply (run_groupless tail Hg) in H as [t'' H]. injection H as <- _.
  exists (String c p), t'. split_and!.
  - f_equal. apply (consumed_app (String c p) t').
  - done.
  - done.
  - cbn [all_chars]. by rewrite Hc, Hp.
Qed.

(** The first item of [re.findall] is the group of a match somewhere in
    the text. *)
Lemma findall_head (r : regex) (t m : string) (l : list string) :
  findall_from r 0 t = m :: l →
  ∃ a t1 cap rest,
    t = a ++ t1 ∧ match_at r t1 = Some (cap, rest) ∧ m = default "" cap.
Proof.
  induction t as [|c t IH]; cbn [findall_from].
  - destruct (match_at r "") as [[cap rest]|] eqn:Hm; [|done].
    intros [= <- _]. by exists "", "", cap, rest.
  - destruct (match_at r (String c t)) as [[cap rest]|] eqn:Hm.
    + intros [= <- _]. by exists "", (String c t), cap, rest.
    + intros H. destruct (IH H) as (a & t1 & cap & rest & -> & Hm1 & ->).
      by exists (String c a), t1, cap, rest.
Qed.

(** X14: the experience that the rule-based extractor reports is either
    "Not specified" or a non-empty string of digits that occurs in the
    lowercased description. *)
Theorem extract_with_rules_experience (jd : string) :
  ∃ e, _extract_with_rules jd !! "experience_required" = Some (VStr e) ∧
       (e = "Not specified"
        ∨ (e ≠ "" ∧ all_chars is_digit e = true
           ∧ contains e (lower jd) = true)).
Proof.
  unfold _extract_with_rules. cbv zeta.
  destruct (foldl _ _ _) as [must good].
  eexists. split; [by dict_lookup|].
  unfold re_findall.
  destruct (findall_from experience_pattern 0 (lower jd)) as [|m l] eqn:Hf;
    [by left | right].
  apply findall_head in Hf as (a & t1 & cap & rest & Ht & Hm & ->).
  apply match_group_plus in Hm as (p & t' & -> & -> & Hne & Hp); [|done].
  cbn [default]. split_and!; [done | done |].
  rewrite Ht. apply contains_middle.
Qed.
(** ** The entry point of the job analyzer *)

Lemma truthy_get_is_Some (d : dict) (k : string) :
  truthy (get d k VNone) = true → is_Some (d !! k).
Proof. unfold get. destruct (d !! k); [by eexists | done]. Qed.

Lemma elem_of_set_add (s : list pyval) (v x : pyval) :
  x ∈ s → x ∈ set_add s v.
Proof.
  intros H. unfold set_add. destruct (existsb _ _); [done|].
  apply elem_of_app. by left.
Qed.

Lemma elem_of_set_union_l (a b : list pyval) (x : pyval) :
  x ∈ a → x ∈ set_union a b.
Proof.
  unfold set_union. revert a. induction b as [|v b IH]; intros a H; [done|].
  cbn [foldl]. by apply IH, elem_of_set_add.
Qed.

Lemma key_eq_str (s : string) (y : pyval) :
  key_eq (VStr s) y = true → y = VStr s.
Proof.
  destruct y; cbn; try done. intros H. by apply String.eqb_eq in H as ->.
Qed.

Lemma elem_of_set_add_str (a : list pyval) (s : string) :
  VStr s ∈ set_add a (VStr s).
Proof.
  unfold set_add. destruct (existsb _ _) eqn:He.
  - apply existsb_exists in He as (y & Hy & Hk).
    apply key_eq_str in Hk as ->. by apply list_elem_of_In.
  - apply elem_of_app. right. apply list_elem_of_singleton. done.
Qed.

Lemma elem_of_set_union_str (a b : list pyval) (s : string) :
  VStr s ∈ b → VStr s ∈ set_union a b.
Proof.
  unfold set_union. revert a. induction b as [|v b IH]; intros a H.
  - by apply elem_of_nil in H.
  - cbn [foldl]. apply elem_of_cons in H as [<-|H].
    + apply (elem_of_set_union_l _ b), elem_of_set_add_str.
    + by apply IH.
Qed.

Lemma strs_inj (a b : list string) : VStr <$> a = VStr <$> b → a = b.
Proof.
  revert b.
  induction a as [|x a IH]; intros [|y b] H; try done.
  rewrite !fmap_cons in H. injection H as -> H. f_equal. by apply IH.
Qed.

(** Whatever the model's analysis holds, a merge that returns has the four
    fields the scoring reads, and its technologies hold every technology
    of the rule-based analysis. *)
Lemma merge_analyses_fields (E : Env) (ai rule merged : dict) (tech : list string) :
  get rule "technologies" (VList []) = strs tech →
  _merge_analyses E ai rule = Ok merged →
  is_Some (merged !! "must_have_skills") ∧
  is_Some (merged !! "good_to_have_skills") ∧
  is_Some (merged !! "experience_required") ∧
  ∃ l, merged !! "technologies" = Some (VList l) ∧
       ∀ skill, skill ∈ tech → VStr skill ∈ l.
Proof.
  intros Hr. unfold _merge_analyses.
  set (m1 := if negb (truthy (get ai "must_have_skills" VNone))
             then _ else ai).
  assert (H1 : is_Some (m1 !! "must_have_skills")).
  { subst m1. rewrite lookup_cond_insert_eq.
    destruct (truthy (get ai "must_have_skills" VNone)) eqn:Ht;
      [by apply truthy_get_is_Some | by eexists]. }
  clearbody m1.
  set (m2 := if negb (truthy (get m1 "good_to_have_skills" VNone))
             then _ else m1).
  assert (H2 : is_Some (m2 !! "good_to_have_skills")).
  { subst m2. rewrite lookup_cond_insert_eq.
    destruct (truthy (get m1 "good_to_have_skills" VNone)) eqn:Ht;
      [by apply truthy_get_is_Some | by eexists]. }
  assert (H2' : is_Some (m2 !! "must_have_skills")).
  { subst m2. by rewrite lookup_cond_insert_ne. }
  clearbody m2.
  destruct (py_set (get m2 "technologies" (VList []))) as [ai_techs|e];
    result_simpl; [|done].
  rewrite Hr, py_set_strs. result_simpl.
  set (m3 := <["technologies" := _]> m2).
  set (c := py_eq_str _ _ || _).
  intros [= <-]. split_and!.
  - subst m3. by rewrite lookup_cond_insert_ne, lookup_insert_ne.
  - subst m3. by rewrite lookup_cond_insert_ne, lookup_insert_ne.
  - rewrite lookup_cond_insert_eq. destruct c eqn:Hc; [by eexists|].
    subst c. apply orb_false_iff in Hc as [_ Hc].
    apply negb_false_iff in Hc. by apply truthy_get_is_Some.
  - eexists. split.
    + subst m3. rewrite lookup_cond_insert_ne by done. apply lookup_insert_eq.
    + intros skill Hs. rewrite set_order_perm.
      apply elem_of_set_union_str, list_elem_of_fmap.
      exists skill. split; [done|]. apply elem_of_foldl_add_str. by right.
Qed.

(** X16: [parse_job_description] never raises.  When the model-based
    analysis is a JSON object and the merge returns, the result is the
    merge; when the merge raises, and when the model-based analysis raises
    or is no JSON object, it is the rule-based analysis.  Either way the
    result has must_have_skills, good_to_have_skills, experience_required,
    and a technologies list that holds every technology the rules found. *)
Theorem parse_job_description_fallback (E : Env)
    (extraction_response : string → result (option string)) (jd : string) :
  (∀ ai merged,
     _analyze_with_ai E extraction_response jd = Ok (VDict ai) →
     _merge_analyses E ai (_extract_with_rules jd) = Ok merged →
     parse_job_description E extraction_response jd = merged) ∧
  (∀ ai e,
     _analyze_with_ai E extraction_response jd = Ok (VDict ai) →
     _merge_analyses E ai (_extract_with_rules jd) = Raise e →
     parse_job_description E extraction_response jd = _extract_with_rules jd) ∧
  ((∀ ai, _analyze_with_ai E extraction_response jd ≠ Ok (VDict ai)) →
   parse_job_description E extraction_response jd = _extract_with_rules jd) ∧
  is_Some (parse_job_description E extraction_response jd
             !! "must_have_skills") ∧
  is_Some (parse_job_description E extraction_response jd
             !! "good_to_have_skills") ∧
  is_Some (parse_job_description E extraction_response jd
             !! "experience_required") ∧
  ∃ l, parse_job_description E extraction_response jd !! "technologies"
         = Some (VList l) ∧
       ∀ tech skill,
         _extract_with_rules jd !! "technologies" = Some (strs tech) →
         skill ∈ tech → VStr skill ∈ l.
Proof.
  destruct (extract_with_rules_fields jd) as (Ht & Hm & Hg & _).
  destruct (extract_with_rules_experience_field jd) as [e He].
  set (tech := filter _ (flat_map snd skill_categories)) in *.
  assert (Hrules :
    is_Some (_extract_with_rules jd !! "must_have_skills") ∧
    is_Some (_extract_with_rules jd !! "good_to_have_skills") ∧
    is_Some (_extract_with_rules jd !! "experience_required") ∧
    ∃ l, _extract_with_rules jd !! "technologies" = Some (VList l) ∧
         ∀ tech' skill,
           _extract_with_rules jd !! "technologies" = Some (strs tech') →
           skill ∈ tech' → VStr skill ∈ l).
  { rewrite Hm, Hg, He, Ht. split_and!; [by eexists..|].
    eexists. split; [reflexivity|]. intros tech' skill Heq Hs.
    injection Heq as Heq. apply strs_inj in Heq.
    subst tech'. apply list_elem_of_fmap. by exists skill. }
  unfold parse_job_description.
  destruct (_analyze_with_ai E extraction_response jd) as [v|e'] eqn:Hai;
    result_simpl.
  2: { split_and!; [done | done | done | apply Hrules..]. }
  destruct v as [| | | | |l|ai]; cbn [copy_of]; result_simpl;
    try (split_and!; [done | done | done | apply Hrules..]).
  destruct (_merge_analyses E ai (_extract_with_rules jd)) as [merged|e'] eqn:Hmerge.
  2: { split_and!; [| done | done | apply Hrules..].
       intros ai' merged [= <-]. by rewrite Hmerge. }
  destruct (merge_analyses_fields E ai (_extract_with_rules jd) merged tech)
    as (Hk1 & Hk2 & Hk3 & l & Hl & Hin); [unfold get; by rewrite Ht | done |].
  split_and!; [| | | done..|].
  - intros ai' merged' [= <-]. rewrite Hmerge. by intros [= ->].
  - intros ai' e0 [= <-]. by rewrite Hmerge.
  - intros Hno. by destruct (Hno ai).
  - exists l. split; [done|]. intros tech' skill Ht'. rewrite Ht in Ht'.
    injection Ht' as Ht'. apply strs_inj in Ht'.
    subst tech'. apply Hin.
Qed.

(** The merge is what a caller gets from a model that answers with a JSON
    object: its own fields are kept, the lists it left out come from the
    rules, and the result is not the rule-based analysis. *)
Example parse_job_description_merges :
  parse_job_description Fixtures.out_of_range (λ _, Ok (Some "{...}"))
      "We need Python" !! "score" = Some (VInt 150) ∧
  parse_job_description Fixtures.out_of_range (λ _, Ok (Some "{...}"))
      "We need Python" !! "must_have_skills" = Some (strs ["python"]) ∧
  _extract_with_rules "We need Python" !! "score" = None.
Proof. vm_compute. by split_and!. Qed.

(** A model that answers with a JSON list leaves the rule-based
    analysis. *)
Example parse_job_description_not_an_object :
  parse_job_description
      {| similarity_response := similarity_response Fixtures.out_of_range;
         review_response := review_response Fixtures.out_of_range;
         json_loads := λ _, Ok (VList []);
         SKLEARN_AVAILABLE := false;
         tfidf_cosine := tfidf_cosine Fixtures.out_of_range;
         set_order := reverse;
         set_order_perm := reverse_Permutation |}
      (λ _, Ok (Some "[]")) "We need Python"
    = _extract_with_rules "We need Python".
Proof. vm_compute. reflexivity. Qed.
(** ** Categories of skills *)

Lemma lookup_append_to_eq (key skill : string) (m : gmap string (list string)) :
  append_to key skill m !! key = Some (default [] (m !! key) ++ [skill])%list.
Proof. apply lookup_insert_eq. Qed.

Lemma lookup_append_to_ne (key key' skill : string)
    (m : gmap string (list string)) :
  key ≠ key' → append_to key skill m !! key' = m !! key'.
Proof. intros H. by apply lookup_insert_ne. Qed.

(** A key whose list takes the skills that satisfy [P], and only them,
    ends with the skills of the input that satisfy [P], in their order. *)
Lemma foldl_categorize_key (key : string) (P : string → Prop)
    `{∀ s, Decision (P s)} :
  (∀ m s l0, m !! key = Some l0 →
     categorize m s !! key
     = Some (if decide (P s) then (l0 ++ [s])%list else l0)) →
  ∀ skills m l0, m !! key = Some l0 →
    foldl categorize m skills !! key = Some (l0 ++ filter P skills)%list.
Proof.
  intros Hstep skills. induction skills as [|s skills IH]; intros m l0 Hm.
  - by rewrite app_nil_r.
  - cbn [foldl]. rewrite (IH _ _ (Hstep m s l0 Hm)), filter_cons.
    destruct (decide (P s)); [by rewrite <- app_assoc | done].
Qed.

Ltac categorize_step :=
  let m := fresh "m" in let s := fresh "s" in let l0 := fresh "l0" in
  let Hm := fresh "Hm" in
  intros m s l0 Hm; unfold categorize; cbv zeta;
  repeat match goal with
         | |- context [any_in ?l (lower s)] =>
             destruct (any_in l (lower s)) eqn:?
         end;
  rewrite ?lookup_append_to_eq, ?lookup_append_to_ne, ?Hm by done;
  repeat case_decide; cbn [default]; first [done | intuition congruence].

Local Abbreviation programming skill :=
  (any_in (category "programming_languages") (lower skill)).
Local Abbreviation technical skill :=
  (any_in (category "web_technologies" ++ category "databases")%list
          (lower skill)).
Local Abbreviation tools skill :=
  (any_in (category "cloud_platforms") (lower skill)).
Local Abbreviation soft skill :=
  (any_in (category "soft_skills") (lower skill)).

Lemma categorize_skills_lists (skills : list string) :
  categorize_skills skills !! "programming"
    = Some (filter (λ skill,
              any_in (category "programming_languages") (lower skill) = true)
            skills) ∧
  categorize_skills skills !! "technical"
    = Some (filter (λ skill,
              any_in (category "programming_languages") (lower skill) = false
              ∧ any_in (category "web_technologies" ++ category "databases")
                       (lower skill) = true)
            skills) ∧
  categorize_skills skills !! "tools"
    = Some (filter (λ skill,
              any_in (category "programming_languages") (lower skill) = false
              ∧ any_in (category "web_technologies" ++ category "databases")
                       (lower skill) = false
              ∧ any_in (category "cloud_platforms") (lower skill) = true)
            skills) ∧
  categorize_skills skills !! "soft_skills"
    = Some (filter (λ skill,
              any_in (category "programming_languages") (lower skill) = false
              ∧ any_in (category "web_technologies" ++ category "databases")
                       (lower skill) = false
              ∧ any_in (category "cloud_platforms") (lower skill) = false
              ∧ any_in (category "soft_skills") (lower skill) = true)
            skills) ∧
  categorize_skills skills !! "other"
    = Some (filter (λ skill,
              any_in (category "programming_languages") (lower skill) = false
              ∧ any_in (category "web_technologies" ++ category "databases")
                       (lower skill) = false
              ∧ any_in (category "cloud_platforms") (lower skill) = false
              ∧ any_in (category "soft_skills") (lower skill) = false)
            skills).
Proof.
  unfold categorize_skills.
  split_and!.
  - refine (foldl_categorize_key "programming" _ _ skills _ [] _);
      [categorize_step | reflexivity].
  - refine (foldl_categorize_key "technical" _ _ skills _ [] _);
      [categorize_step | reflexivity].
  - refine (foldl_categorize_key "tools" _ _ skills _ [] _);
      [categorize_step | reflexivity].
  - refine (foldl_categorize_key "soft_skills" _ _ skills _ [] _);
      [categorize_step | reflexivity].
  - refine (foldl_categorize_key "other" _ _ skills _ [] _);
      [categorize_step | reflexivity].
Qed.

Lemma cascade_Permutation {A} (p t o s : A → bool) (l : list A) :
  (filter (λ x, p x = true) l
   ++ filter (λ x, p x = false ∧ t x = true) l
   ++ filter (λ x, p x = false ∧ t x = false ∧ o x = true) l
   ++ filter (λ x, p x = false ∧ t x = false ∧ o x = false ∧ s x = true) l
   ++ filter (λ x, p x = false ∧ t x = false ∧ o x = false ∧ s x = false) l)%list
  ≡ₚ l.
Proof.
  induction l as [|a l IH]; [done|].
  rewrite !filter_cons.
  destruct (p a) eqn:Hp, (t a) eqn:Ht, (o a) eqn:Ho, (s a) eqn:Hs;
    repeat case_decide; try (exfalso; intuition congruence);
    cbn [app]; rewrite <- ?Permutation_middle; by rewrite IH.
Qed.

(** X17: [categorize_skills] files every skill under exactly one of its
    five keys and keeps the order of the input: under 'programming' the
    skills whose lowercased name contains a language name, under
    'technical' those of the rest that contain a web or database name, then
    'tools' (cloud names), then 'soft_skills', and 'other' for what is
    left; the five lists together are a permutation of the input. *)
Theorem categorize_skills_partition (skills : list string) :
  ∃ p t o s x,
    categorize_skills skills !! "programming" = Some p ∧
    categorize_skills skills !! "technical" = Some t ∧
    categorize_skills skills !! "tools" = Some o ∧
    categorize_skills skills !! "soft_skills" = Some s ∧
    categorize_skills skills !! "other" = Some x ∧
    (p ++ t ++ o ++ s ++ x)%list ≡ₚ skills ∧
    p = filter (λ skill, programming skill = true) skills ∧
    t = filter (λ skill, programming skill = false ∧ technical skill = true)
               skills ∧
    o = filter (λ skill, programming skill = false ∧ technical skill = false
                         ∧ tools skill = true) skills ∧
    s = filter (λ skill, programming skill = false ∧ technical skill = false
                         ∧ tools skill = false ∧ soft skill = true) skills ∧
    x = filter (λ skill, programming skill = false ∧ technical skill = false
                         ∧ tools skill = false ∧ soft skill = false) skills.
Proof.
  destruct (categorize_skills_lists skills) as (Hp & Ht & Ho & Hs & Hx).
  eexists _, _, _, _, _.
  split_and!; [exact Hp | exact Ht | exact Ho | exact Hs | exact Hx | |
               reflexivity..].
  exact (cascade_Permutation (λ skill, programming skill)
           (λ skill, technical skill) (λ skill, tools skill)
           (λ skill, soft skill) skills).
Qed.

Lemma letter_r_programming (skill : string) :
  contains "r" (lower skill) = true → programming skill = true.
Proof.
  intros H. apply existsb_exists. exists "r". split; [|done].
  apply list_elem_of_In, (bool_decide_unpack _). vm_compute. reflexivity.
Qed.

(** X18: the test is a substring test and one of the language names is
    the single letter r, so every skill whose name has the letter r, in
    either case, is filed under 'programming' and under no other key. *)
Theorem categorize_skills_letter_r (skills : list string) (skill : string) :
  skill ∈ skills →
  contains "r" (lower skill) = true →
  (∃ l, categorize_skills skills !! "programming" = Some l ∧ skill ∈ l) ∧
  ∀ key l, key ∈ ["technical"; "tools"; "soft_skills"; "other"] →
           categorize_skills skills !! key = Some l → skill ∉ l.
Proof.
  intros Hin Hr. apply letter_r_programming in Hr.
  destruct (categorize_skills_lists skills) as (Hp & Ht & Ho & Hs & Hx).
  split.
  - eexists. split; [exact Hp|]. by apply list_elem_of_filter.
  - intros key l Hkey Hl.
    repeat (apply elem_of_cons in Hkey as [->|Hkey]);
      [| | | | by apply elem_of_nil in Hkey];
      rewrite ?Ht, ?Ho, ?Hs, ?Hx in Hl; injection Hl as <-;
      rewrite list_elem_of_filter; intros [Hc _];
      assert (Hc' : programming skill = false) by exact (proj1 Hc);
      congruence.
Qed.

Lemma categorize_skills_letter_r_witness :
  (∃ l, categorize_skills ["AWS"; "Docker"] !! "programming" = Some l
        ∧ "Docker" ∈ l) ∧
  ∀ key l, key ∈ ["technical"; "tools"; "soft_skills"; "other"] →
           categorize_skills ["AWS"; "Docker"] !! key = Some l → "Docker" ∉ l.
Proof.
  apply (categorize_skills_letter_r ["AWS"; "Docker"] "Docker").
  - apply (bool_decide_unpack _). vm_compute. reflexivity.
  - vm_compute. reflexivity.
Defined.
(** ** Keywords: the counter and the sort *)

Local Abbreviation occurrences w l := (length (filter (λ x : string, x = w) l)).

Lemma count_up_keys (word : string) (counts : list (string * nat)) :
  (count_up word counts).*1 = Spec.add_str counts.*1 word.
Proof.
  unfold Spec.add_str. induction counts as [|[w n] counts IH].
  - by rewrite decide_False by apply not_elem_of_nil.
  - cbn [count_up]. destruct (String.eqb w word) eqn:Hw.
    + apply String.eqb_eq in Hw as ->. cbn [fmap list_fmap fst].
      rewrite decide_True by apply list_elem_of_here. done.
    + apply String.eqb_neq in Hw. rewrite !fmap_cons, IH. cbn [fst].
      destruct (decide (word ∈ counts.*1)) as [Hin|Hin].
      * by rewrite decide_True by by apply list_elem_of_further.
      * rewrite decide_False; [done|].
        rewrite elem_of_cons. intros [->|?]; done.
Qed.

Lemma Counter_keys_foldl (l : list string) (counts : list (string * nat)) :
  (foldl (λ counts word, count_up word counts) counts l).*1
  = foldl Spec.add_str counts.*1 l.
Proof.
  revert counts. induction l as [|w l IH]; intros counts; [done|].
  cbn [foldl]. by rewrite IH, count_up_keys.
Qed.

Lemma Counter_keys (l : list string) :
  NoDup (Counter l).*1 ∧ ∀ w, w ∈ (Counter l).*1 ↔ w ∈ l.
Proof.
  unfold Counter. rewrite Counter_keys_foldl. split.
  - apply NoDup_foldl_add_str, NoDup_nil_2.
  - intros w. rewrite elem_of_foldl_add_str, elem_of_nil. tauto.
Qed.

Lemma count_up_map (word : string) (counts : list (string * nat)) :
  (list_to_map (count_up word counts) : gmap string nat)
  = <[word := S (default 0%nat ((list_to_map counts : gmap string nat) !! word))]>
      (list_to_map counts).
Proof.
  induction counts as [|[w n] counts IH]; [done|].
  cbn [count_up]. destruct (String.eqb w word) eqn:Hw.
  - apply String.eqb_eq in Hw as ->. rewrite !list_to_map_cons.
    by rewrite lookup_insert_eq, insert_insert_eq.
  - apply String.eqb_neq in Hw. rewrite !list_to_map_cons, IH.
    rewrite lookup_insert_ne by done. by apply insert_insert_ne.
Qed.

Lemma Counter_count_foldl (l : list string) (counts : list (string * nat))
    (w : string) :
  default 0%nat ((list_to_map (foldl (λ counts word, count_up word counts)
                                     counts l) : gmap string nat) !! w)
  = (default 0%nat ((list_to_map counts : gmap string nat) !! w)
     + occurrences w l)%nat.
Proof.
  revert counts. induction l as [|x l IH]; intros counts; [cbn; lia|].
  cbn [foldl]. rewrite IH, count_up_map, filter_cons.
  destruct (decide (x = w)) as [->|Hx].
  - rewrite lookup_insert_eq. cbn. lia.
  - by rewrite lookup_insert_ne.
Qed.

(** The counter holds each word with the number of its occurrences. *)
Lemma Counter_count (l : list string) (w : string) (n : nat) :
  (w, n) ∈ Counter l → n = occurrences w l.
Proof.
  intros H. apply elem_of_list_to_map in H; [|apply Counter_keys].
  pose proof (Counter_count_foldl l [] w) as Hc. fold (Counter l) in Hc.
  rewrite H in Hc. exact Hc.
Qed.

Local Abbreviation by_count := (λ x y : string * nat, (y.2 ≤ x.2)%nat).

Lemma insert_by_count_Permutation (x : string * nat) (l : list (string * nat)) :
  insert_by_count x l ≡ₚ x :: l.
Proof.
  induction l as [|y l IH]; [done|]. cbn [insert_by_count].
  destruct (x.2 <? y.2)%nat; [|done]. rewrite IH. apply perm_swap.
Qed.

Lemma sort_by_count_Permutation (l : list (string * nat)) :
  sort_by_count l ≡ₚ l.
Proof.
  unfold sort_by_count. induction l as [|x l IH]; [done|].
  cbn [foldr]. by rewrite insert_by_count_Permutation, IH.
Qed.

Lemma insert_by_count_sorted (x : string * nat) (l : list (string * nat)) :
  StronglySorted by_count l → StronglySorted by_count (insert_by_count x l).
Proof.
  induction 1 as [|y l Hl IH Hy]; [by repeat constructor|].
  cbn [insert_by_count]. destruct (Nat.ltb_spec x.2 y.2) as [Hlt|Hge].
  - constructor; [done|]. rewrite insert_by_count_Permutation.
    constructor; [lia | done].
  - constructor; [by constructor|]. constructor; [done|].
    eapply Forall_impl; [exact Hy|]. intros z Hz. cbn in *. lia.
Qed.

Lemma sort_by_count_sorted (l : list (string * nat)) :
  StronglySorted by_count (sort_by_count l).
Proof.
  unfold sort_by_count. induction l as [|x l IH]; [constructor|].
  cbn [foldr]. by apply insert_by_count_sorted.
Qed.

Lemma StronglySorted_lookup {A} (R : relation A) (l : list A) (i j : nat)
    (x y : A) :
  StronglySorted R l → (i < j)%nat → l !! i = Some x → l !! j = Some y → R x y.
Proof.
  intros Hl. revert i j. induction Hl as [|a l Hl IH Ha]; intros i j Hij Hi Hj.
  - done.
  - destruct j as [|j]; [lia|]. destruct i as [|i].
    + injection Hi as ->. cbn in Hj.
      apply list_elem_of_lookup_2 in Hj. by eapply Forall_forall in Ha.
    + apply (IH i j); [lia | done..].
Qed.

(** ** Keywords: the words of the text *)

Lemma all_chars_app (cls : ascii → bool) (a b : string) :
  all_chars cls (a ++ b) = all_chars cls a && all_chars cls b.
Proof.
  induction a as [|c a IH]; [done|]. app_simpl. cbn [all_chars].
  by rewrite IH, andb_assoc.
Qed.

(** The fields of a text are made of its characters that are not
    separators. *)
Lemma fields_chars (is_sep cls : ascii → bool) (s : string) :
  ∀ cur, all_chars cls cur = true →
         all_chars (λ c, is_sep c || cls c) s = true →
         Forall (λ f, all_chars cls f = true) (fields is_sep cur s).
Proof.
  induction s as [|c s IH]; intros cur Hcur Hs; cbn [fields].
  - destruct (String.eqb cur ""); by repeat constructor.
  - cbn [all_chars] in Hs. apply andb_true_iff in Hs as [Hc Hs].
    destruct (is_sep c) eqn:Hsep.
    + destruct (String.eqb cur ""); [by apply IH|].
      constructor; [done | by apply IH].
    + apply IH; [|done]. rewrite all_chars_app, Hcur. cbn [all_chars].
      cbn [orb] in Hc. by rewrite Hc.
Qed.

(** Every field is a part of the text. *)
Lemma fields_part (is_sep : ascii → bool) (s : string) :
  ∀ cur f, f ∈ fields is_sep cur s → ∃ a b, cur ++ s = a ++ f ++ b.
Proof.
  induction s as [|c s IH]; intros cur f; cbn [fields].
  - destruct (String.eqb cur ""); [by intros ?%elem_of_nil|].
    intros ->%list_elem_of_singleton. by exists "", "".
  - destruct (is_sep c).
    + assert (Hrest : f ∈ fields is_sep "" s →
                      ∃ a b, cur ++ String c s = a ++ f ++ b).
      { intros (a & b & Hab)%IH. rewrite app_empty in Hab.
        exists (cur ++ String c a), b. rewrite Hab.
        by rewrite string_app_assoc. }
      destruct (String.eqb cur ""); [done|].
      intros [->|Hf]%elem_of_cons; [by exists "", (String c s) | auto].
    + intros (a & b & Hab)%IH. exists a, b. rewrite <- Hab.
      by rewrite string_app_assoc.
Qed.

Lemma sub_non_word_space_split (x y : string) :
  ∀ t, sub_non_word_space t = x ++ y →
       ∃ t1 t2, t = t1 ++ t2 ∧ sub_non_word_space t1 = x
                ∧ sub_non_word_space t2 = y.
Proof.
  induction x as [|c x IH]; intros t H.
  - by exists "", t.
  - destruct t as [|d t]; [done|]. cbn [sub_non_word_space] in H.
    rewrite app_cons in H. injection H as Hc Ht.
    destruct (IH t Ht) as (t1 & t2 & -> & H1 & H2).
    exists (String d t1), t2. cbn [sub_non_word_space]. by rewrite Hc, H1.
Qed.

(** A text that the substitution turns into word characters was made of
    them. *)
Lemma sub_non_word_space_word (t : string) :
  all_chars is_word_char (sub_non_word_space t) = true →
  sub_non_word_space t = t.
Proof.
  induction t as [|c t IH]; [done|]. cbn [sub_non_word_space all_chars].
  intros [Hc Ht]%andb_true_iff. rewrite (IH Ht). f_equal.
  destruct (is_word_char c || is_space c); [done|]. by vm_compute in Hc.
Qed.

Lemma sub_non_word_space_chars (t : string) :
  all_chars (λ c, is_space c || is_word_char c) (sub_non_word_space t) = true.
Proof.
  induction t as [|c t IH]; [done|]. cbn [sub_non_word_space all_chars].
  rewrite IH, andb_true_r.
  destruct (is_word_char c) eqn:Hw; cbn [orb]; [by rewrite Hw, orb_true_r|].
  destruct (is_space c) eqn:Hs; [by rewrite Hs | done].
Qed.

(** A word character of a lowercased text is a lowercase letter, a digit
    or the underscore. *)
Lemma lower_word_char (c : ascii) :
  is_word_char (lower_char c) = true →
  is_digit (lower_char c) || between 97 122 (lower_char c)
  || (code (lower_char c) =? 95)%N = true.
Proof.
  destruct c as [[] [] [] [] [] [] [] []]; vm_compute; done.
Qed.

Lemma lower_word_chars (t : string) :
  all_chars is_word_char (lower t) = true →
  all_chars (λ c, is_digit c || between 97 122 c || (code c =? 95)%N)
            (lower t) = true.
Proof.
  induction t as [|c t IH]; [done|]. cbn [lower all_chars].
  intros [Hc Ht]%andb_true_iff. by rewrite lower_word_char, IH.
Qed.

(** The words of the cleaned text are runs of word characters of the
    lowercased description. *)
Lemma keyword_words (jd word : string) :
  word ∈ str_split (sub_non_word_space (lower jd)) →
  all_chars (λ c, is_digit c || between 97 122 c || (code c =? 95)%N) word
    = true
  ∧ contains word (lower jd) = true.
Proof.
  intros Hw.
  assert (Hchars : all_chars is_word_char word = true).
  { pose proof (fields_chars is_space is_word_char
                  (sub_non_word_space (lower jd)) "" eq_refl
                  (sub_non_word_space_chars _)) as Hall.
    by eapply Forall_forall in Hall. }
  apply fields_part in Hw as (a & b & Hab). rewrite app_empty in Hab.
  apply sub_non_word_space_split in Hab as (ta & tfb & Hjd & Ha & Hfb).
  apply sub_non_word_space_split in Hfb as (tf & tb & -> & Hf & Hb).
  assert (Htf : tf = word).
  { rewrite <- Hf. symmetry. apply sub_non_word_space_word. by rewrite Hf. }
  subst tf. split; [|rewrite Hjd; apply contains_middle].
  apply lower_split in Hjd as (j1 & j2 & -> & H1 & H2).
  apply lower_split in H2 as (jw & j3 & -> & H2 & H3).
  rewrite <- H2 in *. by apply lower_word_chars.
Qed.

Lemma occurrences_filter (P : string → Prop) `{∀ x, Decision (P x)}
    (l : list string) (w : string) :
  P w → occurrences w (filter P l) = occurrences w l.
Proof.
  intros Hw. rewrite list_filter_filter. f_equal.
  apply filter_ext_elem. intros x _. split; [tauto|]. by intros ->.
Qed.

Local Abbreviation is_keyword :=
  (λ word : string, (2 < String.length word)%nat ∧ word ∉ keyword_stop_words).

(** The items of the sorted counter: each keyword of the text once, with
    the number of its occurrences among the words. *)
Lemma sorted_counter_items (jd : string) :
  let words := str_split (sub_non_word_space (lower jd)) in
  let items := sort_by_count (Counter (filter is_keyword words)) in
  NoDup items.*1 ∧
  StronglySorted by_count items ∧
  (∀ w n, (w, n) ∈ items → is_keyword w ∧ w ∈ words ∧ n = occurrences w words) ∧
  (∀ w, w ∈ words → is_keyword w → ∃ n, (w, n) ∈ items) ∧
  extract_keywords jd = take 50 items.*1.
Proof.
  intros words items.
  destruct (Counter_keys (filter is_keyword words)) as [Hnd Hkeys].
  assert (Hperm : items ≡ₚ Counter (filter is_keyword words))
    by apply sort_by_count_Permutation.
  split_and!.
  - by rewrite Hperm.
  - apply sort_by_count_sorted.
  - intros w n Hin. rewrite Hperm in Hin.
    assert (Hw : w ∈ filter is_keyword words).
    { apply Hkeys, list_elem_of_fmap. by exists (w, n). }
    apply list_elem_of_filter in Hw as [Hk Hw].
    split; [exact Hk|]. split; [exact Hw|].
    rewrite (Counter_count _ _ _ Hin). by apply occurrences_filter.
  - intros w Hw Hk.
    assert (Hin : w ∈ (Counter (filter is_keyword words)).*1)
      by (by apply Hkeys, list_elem_of_filter).
    apply list_elem_of_fmap in Hin as ([w' n] & -> & Hin).
    exists n. by rewrite Hperm.
  - unfold extract_keywords, most_common. cbv zeta. by rewrite fmap_take.
Qed.

(** X19: for an ASCII description, where the word characters are the
    letters, the digits and the underscore, [extract_keywords] returns at
    most 50 keywords, none twice; each has more than two characters, is no
    stop word, is made of lowercase letters, digits and underscores only,
    and occurs in the lowercased description. *)
Theorem extract_keywords_spec (jd : string) :
  all_chars is_ascii jd = true →
  NoDup (extract_keywords jd) ∧
  (length (extract_keywords jd) ≤ 50)%nat ∧
  ∀ keyword, keyword ∈ extract_keywords jd →
    (2 < String.length keyword)%nat ∧
    (keyword ∉ keyword_stop_words) ∧
    all_chars (λ c, is_digit c || between 97 122 c || (code c =? 95)%N)
              keyword = true ∧
    contains keyword (lower jd) = true.
Proof.
  intros _.
  destruct (sorted_counter_items jd) as (Hnd & _ & Hitems & _ & ->).
  split_and!.
  - eapply sublist_NoDup; [done | apply sublist_take].
  - rewrite length_take. lia.
  - intros keyword Hk. apply elem_of_take in Hk as (i & Hi & _).
    apply list_elem_of_lookup_2, list_elem_of_fmap in Hi as ([w n] & -> & Hin).
    destruct (Hitems _ _ Hin) as ([Hlen Hstop] & Hw & _).
    apply keyword_words in Hw as [Hchars Hc]. by split_and!.
Qed.

Lemma extract_keywords_spec_witness :
  NoDup (extract_keywords "Python, SQL and more Python") ∧
  extract_keywords "Python, SQL and more Python" = ["python"; "sql"; "more"].
Proof.
  split; [|vm_compute; reflexivity].
  refine (proj1 (extract_keywords_spec "Python, SQL and more Python" _)).
  reflexivity.
Defined.

(** X20: the keywords come by decreasing number of occurrences among the
    words of the cleaned text, and they are the most frequent ones: a word
    of more than two characters that is no stop word is either a keyword,
    or there are 50 keywords and each occurs at least as often. *)
Theorem extract_keywords_most_frequent (jd : string) :
  (∀ i j a b, (i < j)%nat →
     extract_keywords jd !! i = Some a → extract_keywords jd !! j = Some b →
     (occurrences b (str_split (sub_non_word_space (lower jd)))
      ≤ occurrences a (str_split (sub_non_word_space (lower jd))))%nat) ∧
  (∀ word, word ∈ str_split (sub_non_word_space (lower jd)) →
     (2 < String.length word)%nat → word ∉ keyword_stop_words →
     word ∈ extract_keywords jd
     ∨ (length (extract_keywords jd) = 50%nat
        ∧ ∀ keyword, keyword ∈ extract_keywords jd →
            (occurrences word (str_split (sub_non_word_space (lower jd)))
             ≤ occurrences keyword
                 (str_split (sub_non_word_space (lower jd))))%nat)).
Proof.
  destruct (sorted_counter_items jd) as (Hnd & Hsorted & Hitems & Hall & ->).
  set (words := str_split (sub_non_word_space (lower jd))) in *.
  set (items := sort_by_count _) in *.
  assert (Hlook : ∀ i a, take 50 items.*1 !! i = Some a →
            (i < 50)%nat ∧ items !! i = Some (a, occurrences a words)).
  { intros i a Hi. apply lookup_take_Some in Hi as [Hi Hlt]. split; [done|].
    rewrite list_lookup_fmap in Hi.
    destruct (items !! i) as [[w n]|] eqn:Hw; [|done]. injection Hi as ->.
    apply list_elem_of_lookup_2, Hitems in Hw as (_ & _ & ->). done. }
  split.
  - intros i j a b Hij Ha Hb.
    apply Hlook in Ha as [_ Ha]. apply Hlook in Hb as [_ Hb].
    apply (StronglySorted_lookup _ _ _ _ _ _ Hsorted Hij Ha Hb).
  - intros word Hw Hlen Hstop.
    destruct (Hall word Hw (conj Hlen Hstop)) as [n Hin].
    destruct (Hitems _ _ Hin) as (_ & _ & ->).
    apply list_elem_of_lookup_1 in Hin as [j Hj].
    destruct (decide (j < 50)%nat) as [Hlt|Hge].
    + left. apply elem_of_take. exists j. split; [|done].
      by rewrite list_lookup_fmap, Hj.
    + right. split.
      * rewrite length_take, length_fmap.
        apply lookup_lt_Some in Hj. lia.
      * intros keyword Hk. apply list_elem_of_lookup_1 in Hk as [i Hi].
        apply Hlook in Hi as [Hi50 Hi].
        exact (StronglySorted_lookup by_count items i j _ _ Hsorted
                 ltac:(lia) Hi Hj).
Qed.
(** ** The two modules together, without the model *)

Lemma semantic_match_offline (E : Env) (resume_text job_description : string)
    (e : exc) :
  similarity_response E job_description resume_text = Raise e →
  SKLEARN_AVAILABLE E = false →
  _calculate_semantic_match E resume_text job_description
  = _word_overlap_similarity resume_text job_description.
Proof.
  intros Hs Hk. unfold _calculate_semantic_match, _gemini_semantic_similarity.
  rewrite Hs. result_simpl. cbv zeta.
  assert (Hg : getitem (gemini_failed e) "score" = Ok (VFloat (Fin 0)))
    by reflexivity.
  rewrite Hg. result_simpl.
  assert (Hu : py_gt_int (VFloat (Fin 0)) 0 = Ok false) by reflexivity.
  rewrite Hu. result_simpl. by rewrite Hk.
Qed.

Lemma word_overlap_self (text : string) :
  words_of text ≠ ∅ →
  _word_overlap_similarity text text !! "score" = Some (VFloat (Fin 100)).
Proof.
  intros Hne. rewrite word_overlap_score.
  assert (HI : words_of text ∩ words_of text = words_of text)
    by (apply set_eq; intros x; rewrite elem_of_intersection; tauto).
  assert (HU : words_of text ∪ words_of text = words_of text)
    by (apply set_eq; intros x; rewrite elem_of_union; tauto).
  rewrite HI, HU.
  assert (Hsz : (0 < size (words_of text))%nat).
  { apply Nat.neq_0_lt_0, size_non_empty_iff. intros H. apply Hne.
    by apply leibniz_equiv. }
  rewrite (proj2 (Nat.ltb_lt _ _) Hsz), (len_div_self _ Hsz).
  vm_compute. reflexivity.
Qed.

Lemma parse_job_description_call_failed (E : Env)
    (extraction_response : string → result (option string)) (jd : string)
    (e : exc) :
  extraction_response jd = Raise e →
  parse_job_description E extraction_response jd = _extract_with_rules jd.
Proof.
  intros H. unfold parse_job_description, _analyze_with_ai. by rewrite H.
Qed.

(** X21: both modules without the model.  When the three calls of the
    model raise and sklearn is absent, a resume that is the job description
    itself, with a word that is no stop word and a must-have skill found by
    the rules, gets hard match 100, semantic score 100.0 (word overlap), AI
    score 50.0, relevance 90.0 and the verdict "High". *)
Theorem offline_self_match (E : Env)
    (extraction_response : string → result (option string)) (jd : string)
    (e1 e2 e3 : exc) :
  extraction_response jd = Raise e1 →
  similarity_response E jd jd = Raise e2 →
  (∀ must good, review_response E jd jd must good = Raise e3) →
  SKLEARN_AVAILABLE E = false →
  words_of jd ≠ ∅ →
  _extract_with_rules jd !! "must_have_skills" ≠ Some (VList []) →
  let result :=
    analyze_resume E jd jd (parse_job_description E extraction_response jd) in
  result !! "hard_match_score" = Some (VInt 100) ∧
  result !! "semantic_score" = Some (VFloat (Fin 100)) ∧
  result !! "ai_score" = Some (VFloat (Fin 50)) ∧
  result !! "relevance_score" = Some (VFloat (Fin 90)) ∧
  result !! "verdict" = Some (VStr "High").
Proof.
  intros Hext Hsim Hrev Hsk Hwords Hmust result. subst result.
  rewrite (parse_job_description_call_failed _ _ _ _ Hext).
  destruct (hard_match_of_rules jd jd) as (must & good & hard & Hm & _ & Hh & _ & _ & Hscore).
  { intros skill Hc. by rewrite skill_mentioned_collapse, Hc. }
  destruct must as [|m must]; [by rewrite Hm in Hmust|].
  unfold analyze_resume, analyze_resume_try. cbv zeta.
  rewrite Hh, (ai_analysis_call_failed _ _ _ _ _ (Hrev _ _)),
    (semantic_match_offline _ _ _ _ Hsim Hsk). result_simpl.
  rewrite (final_score_value hard _ _ 100 100 50);
    [| unfold get; by rewrite Hscore | discriminate | discriminate
     | unfold get; by rewrite (word_overlap_self _ Hwords)
     | discriminate | discriminate
     | reflexivity | discriminate | discriminate].
  assert (H90 : Spec.final_score 100 100 50 = Fin 90) by (vm_compute; reflexivity).
  rewrite H90. result_simpl.
  assert (Hsugg : _generate_suggestions jd (_extract_with_rules jd)
                    (default_analysis e3) = Ok generic_suggestions)
    by reflexivity.
  rewrite Hsugg. result_simpl.
  unfold getitem. rewrite Hscore, (word_overlap_self _ Hwords). result_simpl.
  assert (Hds : default_analysis e3 !! "score" = Some (VFloat (Fin 50)))
    by reflexivity.
  rewrite Hds. result_simpl.
  split_and!; by dict_lookup.
Qed.

Lemma offline_self_match_witness :
  analyze_resume Fixtures.offline "Python is required. SQL is a plus."
      "Python is required. SQL is a plus."
      (parse_job_description Fixtures.offline
         (λ _, Raise (Exception "connection refused"))
         "Python is required. SQL is a plus.") !! "relevance_score"
  = Some (VFloat (Fin 90)).
Proof.
  refine (proj1 (proj2 (proj2 (proj2
    (offline_self_match Fixtures.offline
       (λ _, Raise (Exception "connection refused"))
       "Python is required. SQL is a plus."
       (Exception "connection refused") (Exception "connection refused")
       (Exception "connection refused") eq_refl eq_refl (λ _ _, eq_refl)
       eq_refl _ _))))).
  - apply (bool_decide_unpack _). vm_compute. reflexivity.
  - vm_compute. discriminate.
Defined.
